(** * Market-maker bot: a shallow embedding of the quoting engine

  The development follows the TypeScript sources:
  - [src/utils/priceUtils.ts]            (module [PriceUtils])
  - [src/utils/orderUtils.ts]            (module [OrderUtils])
  - [src/types/marketMaker.ts], with the order requests and the order
    update events, and [src/types/price.ts]
  - [src/services/DeviationCheckService.ts]
  - class [PriceSnapshotService] of [src/services/EtherealService.ts], the
    wiring and the shutdown handler of [src/index.ts].

  Conventions.
  - In the engine a JavaScript [number] holding a price, a quantity or a
    percentage is an exact rational ([Q]); NaN, the infinities and binary64
    rounding are not represented there.  The risk check, whose outcome
    rounding decides, is embedded a second time over binary64 values (module
    [Binary64]).  Clock readings ([Date.now()]) are integers ([Z]).
  - An optional field ([x?: T], or a value that may be [undefined]) is an
    [option].
  - A [Map<string, V>] is an association list in insertion order, because
    the code iterates over it; a [Set<string>] is a [gset string].  The
    plain object [snapshots] is the association list of its own properties,
    read through [Object.prototype] for a key that is not one of them.
  - An [async] function is cut at its [await]s on the network: the part
    before the request is a function that returns the suspended frame, the
    part after it is a function of the response. *)

From Stdlib Require Import QArith Qabs Qround ZArith Ascii String List Bool Lia Lqa.
From Stdlib Require Floats.SpecFloat.
From stdpp Require Import base gmap sets strings.
Import ListNotations.

Open Scope string_scope.
Open Scope list_scope.

(** ** JavaScript values *)

Definition number := Q.

(** [a > b] and [a < b] on numbers. *)
Definition gtb (a b : number) : bool := negb (Qle_bool a b).
Definition ltb (a b : number) : bool := gtb b a.

(** Truthiness of a number ([0] is falsy) and of a string (the empty string
    is falsy); [undefined] is falsy. *)
Definition truthy_number (x : number) : bool := negb (Qeq_bool x 0).

Definition truthy_string (s : string) : bool :=
  match s with EmptyString => false | _ => true end.

Definition truthy_opt_string (s : option string) : bool :=
  match s with Some x => truthy_string x | None => false end.

(** [a || b] on optional strings and on optional numbers. *)
Definition or_string (a b : option string) : option string :=
  if truthy_opt_string a then a else b.

Definition or_number (a : option number) (b : number) : number :=
  match a with
  | Some x => if truthy_number x then x else b
  | None => b
  end.

(** [!x] for an optional object. *)
Definition absent {A : Type} (x : option A) : bool :=
  match x with Some _ => false | None => true end.

(** [s === lit] for a string that may be undefined. *)
Definition is_string (s : option string) (lit : string) : bool :=
  match s with Some x => String.eqb x lit | None => false end.

(** [s.startsWith(p)]. *)
Definition startsWith (s p : string) : bool := String.prefix p s.

(** A template literal prints [undefined] for a missing value. *)
Definition show_opt_string (s : option string) : string :=
  match s with Some x => x | None => "undefined" end.

(** ** [Map<string, V>]: keys in insertion order *)

Module JSMap.
Section WithValue.
Context {V : Type}.

Definition t := list (string * V).

Fixpoint get (m : t) (k : string) : option V :=
  match m with
  | [] => None
  | (k', v) :: m' => if String.eqb k' k then Some v else get m' k
  end.

(** [set] keeps the position of a key that is already present and appends a
    new key. *)
Fixpoint set (m : t) (k : string) (v : V) : t :=
  match m with
  | [] => [(k, v)]
  | (k', v') :: m' =>
      if String.eqb k' k then (k, v) :: m' else (k', v') :: set m' k v
  end.

Definition values (m : t) : list V := map snd m.
Definition keys (m : t) : list string := map fst m.

End WithValue.
Arguments t : clear implicits.
End JSMap.

(** ** A plain object used as a dictionary

    [obj[key]] on an object literal finds an own property, or else the member
    of [Object.prototype] that the key names, or else nothing. *)

Definition Object_prototype : list string :=
  ["constructor"; "__defineGetter__"; "__defineSetter__"; "hasOwnProperty";
   "__lookupGetter__"; "__lookupSetter__"; "isPrototypeOf";
   "propertyIsEnumerable"; "toString"; "valueOf"; "__proto__";
   "toLocaleString"].

Definition inherited (key : string) : bool :=
  existsb (String.eqb key) Object_prototype.

Inductive Property (V : Type) :=
| Own (value : V)
| Inherited
| Undefined.
Arguments Own {V} value.
Arguments Inherited {V}.
Arguments Undefined {V}.

Definition property {V : Type} (own : JSMap.t V) (key : string) : Property V :=
  match JSMap.get own key with
  | Some value => Own value
  | None => if inherited key then Inherited else Undefined
  end.

(** ** src/utils/priceUtils.ts *)

Module PriceUtils.
Local Open Scope Q_scope.

(** [Math.round]: the nearest integer, halves towards +infinity. *)
Definition Math_round (x : number) : number := inject_Z (Qfloor (x + (1 # 2))).

Definition roundToTickSize (price tickSize : number) : number :=
  Math_round (price / tickSize) * tickSize.

Definition basisPointsToDecimal (basisPoints : number) : number :=
  basisPoints / 10000.

Definition calculateBidPrice (midPrice spreadBasisPoints : number) : number :=
  let spreadDecimal := basisPointsToDecimal spreadBasisPoints in
  midPrice - (midPrice * spreadDecimal).

Definition calculateAskPrice (midPrice spreadBasisPoints : number) : number :=
  let spreadDecimal := basisPointsToDecimal spreadBasisPoints in
  midPrice + (midPrice * spreadDecimal).

Definition calculateMaxDeviationAmount (price deviationPercent : number) : number :=
  price * (deviationPercent / 100).

Definition calculatePriceDeviation (price1 price2 : number) : number :=
  Qabs (price1 - price2).

Definition calculateRoundedBidAsk (midPrice spreadBasisPoints tickSize : number)
  : number * number :=
  let bidPrice := calculateBidPrice midPrice spreadBasisPoints in
  let askPrice := calculateAskPrice midPrice spreadBasisPoints in
  (roundToTickSize bidPrice tickSize, roundToTickSize askPrice tickSize).

Definition calculateSpreadAmount (midPrice spreadBasisPoints : number) : number :=
  let spreadDecimal := basisPointsToDecimal spreadBasisPoints in
  midPrice * spreadDecimal.

End PriceUtils.

(** ** src/utils/orderUtils.ts *)

Module OrderUtils.

(** [Math.floor(Date.now() / 1000) + minutesFromNow * 60]. *)
Definition generateExpiresAt (now : Z) (minutesFromNow : Z) : Z :=
  (now / 1000 + minutesFromNow * 60)%Z.

Inductive ApiSide := BUY | SELL.

Definition convertSideToNumber (side : ApiSide) : Z :=
  match side with BUY => 0%Z | SELL => 1%Z end.

End OrderUtils.

(** ** src/types/marketMaker.ts *)

Inductive OrderSide := BID | ASK.
Inductive PositionSide := LONG | SHORT.

(** [status] is declared as the union [OrderStatus], but reconciliation
    stores whatever string the event carries, and the code tests for a missing
    status: it is an optional string here. *)
Module Order.
Record t := mk {
  id : string;
  ticker : string;
  side : OrderSide;
  price : number;
  quantity : number;
  quantityFilled : number;
  status : option string;
  timestamp : Z
}.

(** [order.status = s]. *)
Definition set_status (o : t) (s : option string) : t :=
  mk (id o) (ticker o) (side o) (price o) (quantity o) (quantityFilled o) s
     (timestamp o).
End Order.

Module Position.
Record t := mk {
  ticker : string;
  side : PositionSide;
  quantity : number;
  entryPrice : number;
  timestamp : Z
}.
End Position.

Module TradingPair.
Record t := mk {
  ticker : string;
  bidOrder : option Order.t;
  askOrder : option Order.t;
  longPosition : option Position.t;
  shortPosition : option Position.t
}.

(** The object literal [{ ticker }]. *)
Definition fresh (ticker : string) : t := mk ticker None None None None.

Definition set_bidOrder (p : t) (o : option Order.t) : t :=
  mk (ticker p) o (askOrder p) (longPosition p) (shortPosition p).

Definition set_askOrder (p : t) (o : option Order.t) : t :=
  mk (ticker p) (bidOrder p) o (longPosition p) (shortPosition p).

Definition set_longPosition (p : t) (x : option Position.t) : t :=
  mk (ticker p) (bidOrder p) (askOrder p) x (shortPosition p).

Definition set_shortPosition (p : t) (x : option Position.t) : t :=
  mk (ticker p) (bidOrder p) (askOrder p) (longPosition p) x.
End TradingPair.

Module MarketState.
Record t := mk {
  ticker : string;
  midPrice : number;
  bidPrice : number;
  askPrice : number;
  maxDeviationPrice : number;
  timestamp : Z
}.
End MarketState.

(** ** src/config/marketConfig.ts *)

Module AssetConfig.
Record t := mk {
  ticker : string;
  orderSize : number;
  spreadWidth : number;
  maxPriceDeviation : number;
  tickSize : option number;
  minQuantity : option number;
  maxQuantity : option number;
  productId : option string
}.
End AssetConfig.

Module MarketMakingConfig.
Record t := mk {
  quoteRefreshCycle : Z;
  assets : list AssetConfig.t
}.
End MarketMakingConfig.

(** ** src/types/orders.ts, src/types/orderUpdates.ts, src/types/price.ts *)

Inductive OrderType := LIMIT | MARKET.
Inductive TimeInForce := GTD | GTC | IOC | FOK.

Module CreateOrderRequest.
Record t := mk {
  order_type : OrderType;
  quantity : number;
  side : Z;
  price : option number;
  ticker : string;
  client_order_id : option string;
  time_in_force : TimeInForce;
  expires_at : option Z
}.
End CreateOrderRequest.

Module CancelOrderRequest.
Record t := mk {
  order_ids : list string;
  subaccount : string
}.
End CancelOrderRequest.

Module OrderUpdateEvent.
Record t := mk {
  id : string;
  status : string
}.
End OrderUpdateEvent.

Module PriceUpdate.
Record t := mk {
  ticker : string;
  price : number;
  confidence : number;
  timestamp : Z
}.
End PriceUpdate.

Module PriceSnapshot.
Record t := mk {
  ticker : string;
  price : number;
  confidence : number;
  timestamp : Z
}.
End PriceSnapshot.

(** ** src/services/DeviationCheckService.ts *)

Module DeviationCheckService.
Local Open Scope Q_scope.

(** The service holds the configuration that [loadConfig()] returned when it
    was constructed. *)
Record t := mk { config : MarketMakingConfig.t }.

Record Checks := mkChecks {
  shouldCancelBid : bool;
  shouldCancelAsk : bool;
  shouldClosePositions : bool
}.

(** [assetConfig?.spreadWidth || 10], the local [spreadWidthBp]. *)
Definition spreadWidthBp (self : t) (ticker : string) : number :=
  let assetConfig :=
    find (fun asset => String.eqb (AssetConfig.ticker asset) ticker)
         (MarketMakingConfig.assets (config self)) in
  or_number (option_map AssetConfig.spreadWidth assetConfig) 10.

(** [now] is the reading of [Date.now()]. *)
Definition calculateMarketState (self : t) (now : Z) (ticker : string)
    (currentPrice maxDeviation : number) : MarketState.t :=
  let maxDeviationPrice :=
    PriceUtils.calculateMaxDeviationAmount currentPrice maxDeviation in
  let spreadAmount :=
    PriceUtils.calculateSpreadAmount currentPrice (spreadWidthBp self ticker) in
  {| MarketState.ticker := ticker;
     MarketState.midPrice := currentPrice;
     MarketState.bidPrice := currentPrice - spreadAmount / 2;
     MarketState.askPrice := currentPrice + spreadAmount / 2;
     MarketState.maxDeviationPrice := maxDeviationPrice;
     MarketState.timestamp := now |}.

Definition checkOrdersAndPositions (tradingPair : TradingPair.t)
    (marketState : MarketState.t) : Checks :=
  let shouldCancelBid :=
    match TradingPair.bidOrder tradingPair with
    | Some bidOrder =>
        if is_string (Order.status bidOrder) "NEW" then
          let bidDeviation :=
            PriceUtils.calculatePriceDeviation
              (Order.price bidOrder) (MarketState.midPrice marketState) in
          if gtb bidDeviation (MarketState.maxDeviationPrice marketState)
          then true else false
        else false
    | None => false
    end in
  let shouldCancelAsk :=
    match TradingPair.askOrder tradingPair with
    | Some askOrder =>
        if is_string (Order.status askOrder) "NEW" then
          let askDeviation :=
            PriceUtils.calculatePriceDeviation
              (Order.price askOrder) (MarketState.midPrice marketState) in
          if gtb askDeviation (MarketState.maxDeviationPrice marketState)
          then true else false
        else false
    | None => false
    end in
  let shouldClosePositions := false in
  let shouldClosePositions :=
    match TradingPair.longPosition tradingPair with
    | Some longPosition =>
        let longDeviation :=
          PriceUtils.calculatePriceDeviation
            (Position.entryPrice longPosition) (MarketState.midPrice marketState) in
        if gtb longDeviation (MarketState.maxDeviationPrice marketState)
        then true else shouldClosePositions
    | None => shouldClosePositions
    end in
  let shouldClosePositions :=
    match TradingPair.shortPosition tradingPair with
    | Some shortPosition =>
        let shortDeviation :=
          PriceUtils.calculatePriceDeviation
            (Position.entryPrice shortPosition) (MarketState.midPrice marketState) in
        if gtb shortDeviation (MarketState.maxDeviationPrice marketState)
        then true else shouldClosePositions
    | None => shouldClosePositions
    end in
  mkChecks shouldCancelBid shouldCancelAsk shouldClosePositions.

End DeviationCheckService.

(** ** What the process does to the outside

    Console lines are recorded by call site, with the values their templates
    print; requests are the calls of [EtherealService] on its HTTP clients.
    [UncaughtTypeError] is the report of the runtime, on the error stream,
    of the TypeError that [takeSnapshot] throws for the ticker. *)

Inductive Message :=
| OrderUpdateSeen (id status : string)
| OrderRemoved (ticker : string) (side : OrderSide) (orderId status : string)
| ManagerStarted (cycle : Z)
| ManagerStopped
| NoActiveOrders
| CancellingActiveOrders (n : nat)
| SubaccountNotSetCannotCancelOrders
| SuccessfullyCancelledOrders (n : nat)
| ErrorCancellingDuringShutdown
| ServiceNotSetCannotFetchPositions
| FetchingPositions
| FoundLong (ticker : string) (quantity entryPrice : number)
| FoundShort (ticker : string) (quantity entryPrice : number)
| FinishedLoadingPositions
| ErrorLoadingPositions
| TakingSnapshot (now : Z) (prices : nat)
| CancellationInProgress (ticker : string) (side : OrderSide)
| CreationInProgress (ticker : string)
| ErrorCreatingOrders (ticker : string)
| CreatingOrder (ticker : string) (side : OrderSide) (price : option number)
    (quantity : number)
| SubaccountNotSetCannotCancelOrder
| CancellingOrder (ticker : string) (side : OrderSide) (orderId : string)
| SuccessfullyCancelledOrder (ticker : string) (side : OrderSide) (orderId : string)
| ErrorCancellingOrder (ticker : string) (side : OrderSide) (orderId : string)
| AdapterErrorPlacingOrder
| AdapterErrorCancellingOrder
| AdapterErrorFetchingPositions
| ShutdownReceived
| ShutdownComplete
| UncaughtTypeError (ticker : string).

Inductive Effect :=
| console_log (m : Message)
| console_error (m : Message)
| post_orders (request : CreateOrderRequest.t)
| post_orders_cancel (request : CancelOrderRequest.t)
| get_position (subaccountId : string) (productIds : list string)
| snapshotCallback_call (snapshot : PriceSnapshot.t)
| feeds_disconnect
| process_exit (code : Z).

(** The outcome of an awaited request: the promise resolves (for a placement,
    with [response.order.id] when the body has one) or rejects. *)
Inductive Response :=
| Resolved (order_id : option string)
| Rejected.

(** A suspended [async] call, with the locals its continuation reads.
    [sent = false] marks a frame whose awaited [cancelOrder] returned without
    a request (no subaccount, or no service): it only waits for its turn. *)
Inductive Frame :=
| AwaitCancelBid (ticker cancelKey orderId : string) (sent : bool)
    (shouldCancelAsk : bool)
| AwaitCancelAsk (ticker cancelKey orderId : string) (sent : bool)
| AwaitPlaceBid (ticker : string) (currentPrice : number)
    (config : AssetConfig.t) (needsAskOrder : bool)
    (bidOrder : CreateOrderRequest.t)
| AwaitPlaceAsk (ticker : string) (askOrder : CreateOrderRequest.t)
| AwaitCancelAll (orderIds : list string)
| AwaitShutdown.

(** ** src/services/PriceSnapshotService.ts *)

Module PriceSnapshotService.

Record t := mk {
  snapshots : JSMap.t (list PriceSnapshot.t);
  latestPrices : JSMap.t PriceUpdate.t;
  tradingPairs : JSMap.t TradingPair.t;
  assetConfigs : JSMap.t AssetConfig.t;
  snapshotTimer : bool;
  snapshotCallback : bool;
  quoteRefreshCycle : Z;
  deviationCheckService : option DeviationCheckService.t;
  etherealService : bool;
  orderCreationInProgress : gset string;
  orderCancellationInProgress : gset string
}.

(** [new PriceSnapshotService(quoteRefreshCycle)]. *)
Definition new (quoteRefreshCycle : Z) : t :=
  mk [] [] [] [] false false quoteRefreshCycle None false ∅ ∅.

Definition set_snapshots (self : t) (x : JSMap.t (list PriceSnapshot.t)) : t :=
  mk x (latestPrices self) (tradingPairs self) (assetConfigs self)
     (snapshotTimer self) (snapshotCallback self) (quoteRefreshCycle self)
     (deviationCheckService self) (etherealService self)
     (orderCreationInProgress self) (orderCancellationInProgress self).

Definition set_latestPrices (self : t) (x : JSMap.t PriceUpdate.t) : t :=
  mk (snapshots self) x (tradingPairs self) (assetConfigs self)
     (snapshotTimer self) (snapshotCallback self) (quoteRefreshCycle self)
     (deviationCheckService self) (etherealService self)
     (orderCreationInProgress self) (orderCancellationInProgress self).

Definition set_tradingPairs (self : t) (x : JSMap.t TradingPair.t) : t :=
  mk (snapshots self) (latestPrices self) x (assetConfigs self)
     (snapshotTimer self) (snapshotCallback self) (quoteRefreshCycle self)
     (deviationCheckService self) (etherealService self)
     (orderCreationInProgress self) (orderCancellationInProgress self).

Definition set_assetConfigs (self : t) (x : JSMap.t AssetConfig.t) : t :=
  mk (snapshots self) (latestPrices self) (tradingPairs self) x
     (snapshotTimer self) (snapshotCallback self) (quoteRefreshCycle self)
     (deviationCheckService self) (etherealService self)
     (orderCreationInProgress self) (orderCancellationInProgress self).

Definition set_snapshotTimer (self : t) (x : bool) : t :=
  mk (snapshots self) (latestPrices self) (tradingPairs self) (assetConfigs self)
     x (snapshotCallback self) (quoteRefreshCycle self)
     (deviationCheckService self) (etherealService self)
     (orderCreationInProgress self) (orderCancellationInProgress self).

Definition set_snapshotCallback (self : t) (x : bool) : t :=
  mk (snapshots self) (latestPrices self) (tradingPairs self) (assetConfigs self)
     (snapshotTimer self) x (quoteRefreshCycle self)
     (deviationCheckService self) (etherealService self)
     (orderCreationInProgress self) (orderCancellationInProgress self).

Definition set_deviationCheckService (self : t)
    (x : option DeviationCheckService.t) : t :=
  mk (snapshots self) (latestPrices self) (tradingPairs self) (assetConfigs self)
     (snapshotTimer self) (snapshotCallback self) (quoteRefreshCycle self)
     x (etherealService self)
     (orderCreationInProgress self) (orderCancellationInProgress self).

Definition set_etherealService (self : t) (x : bool) : t :=
  mk (snapshots self) (latestPrices self) (tradingPairs self) (assetConfigs self)
     (snapshotTimer self) (snapshotCallback self) (quoteRefreshCycle self)
     (deviationCheckService self) x
     (orderCreationInProgress self) (orderCancellationInProgress self).

Definition set_orderCreationInProgress (self : t) (x : gset string) : t :=
  mk (snapshots self) (latestPrices self) (tradingPairs self) (assetConfigs self)
     (snapshotTimer self) (snapshotCallback self) (quoteRefreshCycle self)
     (deviationCheckService self) (etherealService self)
     x (orderCancellationInProgress self).

Definition set_orderCancellationInProgress (self : t) (x : gset string) : t :=
  mk (snapshots self) (latestPrices self) (tradingPairs self) (assetConfigs self)
     (snapshotTimer self) (snapshotCallback self) (quoteRefreshCycle self)
     (deviationCheckService self) (etherealService self)
     (orderCreationInProgress self) x.

(** The running process: the service object, the environment variable read
    at cancel time, everything written or requested so far (oldest first),
    the suspended calls, and whether the process has ended. *)
Record Process := mkProcess {
  this : PriceSnapshotService.t;
  ETHEREAL_SUBACCOUNT : option string;
  output : list Effect;
  pending : list Frame;
  exited : bool
}.

Definition set_this (p : Process) (x : PriceSnapshotService.t) : Process :=
  mkProcess x (ETHEREAL_SUBACCOUNT p) (output p) (pending p) (exited p).

Definition emit (e : Effect) (p : Process) : Process :=
  mkProcess (this p) (ETHEREAL_SUBACCOUNT p) (output p ++ [e]) (pending p)
            (exited p).

Definition emits (es : list Effect) (p : Process) : Process :=
  mkProcess (this p) (ETHEREAL_SUBACCOUNT p) (output p ++ es) (pending p)
            (exited p).

Definition set_pending (p : Process) (x : list Frame) : Process :=
  mkProcess (this p) (ETHEREAL_SUBACCOUNT p) (output p) x (exited p).

Definition set_exited (p : Process) (x : bool) : Process :=
  mkProcess (this p) (ETHEREAL_SUBACCOUNT p) (output p) (pending p) x.

Definition suspend (f : option Frame) (p : Process) : Process :=
  match f with
  | Some frame => set_pending p (pending p ++ [frame])
  | None => p
  end.

(** [setDeviationCheckService], [setEtherealService], [setAssetConfig],
    [onSnapshot], [updatePrice], [updateTradingPair], [getTradingPair]. *)
Definition setDeviationCheckService (service : DeviationCheckService.t)
    (p : Process) : Process :=
  set_this p (set_deviationCheckService (this p) (Some service)).

Definition setEtherealService (p : Process) : Process :=
  set_this p (set_etherealService (this p) true).

Definition setAssetConfig (ticker : string) (config : AssetConfig.t)
    (p : Process) : Process :=
  set_this p (set_assetConfigs (this p)
                (JSMap.set (assetConfigs (this p)) ticker config)).

Definition onSnapshot (p : Process) : Process :=
  set_this p (set_snapshotCallback (this p) true).

Definition updatePrice (priceUpdate : PriceUpdate.t) (p : Process) : Process :=
  set_this p (set_latestPrices (this p)
                (JSMap.set (latestPrices (this p))
                           (PriceUpdate.ticker priceUpdate) priceUpdate)).

Definition updateTradingPair (tradingPair : TradingPair.t) (p : Process) : Process :=
  set_this p (set_tradingPairs (this p)
                (JSMap.set (tradingPairs (this p))
                           (TradingPair.ticker tradingPair) tradingPair)).

Definition getTradingPair (p : Process) (ticker : string) : option TradingPair.t :=
  JSMap.get (tradingPairs (this p)) ticker.

(** *** updateOrderStatus *)

(** The body of the loop on one entry: the pair after the bid check and the
    ask check, the flag [orderUpdated], and the lines logged. *)
Definition updateOrderStatus_entry (ticker orderId status : string)
    (tradingPair : TradingPair.t) : TradingPair.t * bool * list Effect :=
  let terminal := String.eqb status "CANCELED" || String.eqb status "EXPIRED" in
  let '(tradingPair, bidUpdated, bidLog) :=
    match TradingPair.bidOrder tradingPair with
    | Some bidOrder =>
        if String.eqb (Order.id bidOrder) orderId then
          if terminal then
            (TradingPair.set_bidOrder tradingPair None, true,
             [console_log (OrderRemoved ticker BID orderId status)])
          else
            (TradingPair.set_bidOrder tradingPair
               (Some (Order.set_status bidOrder (Some status))), true, [])
        else (tradingPair, false, [])
    | None => (tradingPair, false, [])
    end in
  let '(tradingPair, askUpdated, askLog) :=
    match TradingPair.askOrder tradingPair with
    | Some askOrder =>
        if String.eqb (Order.id askOrder) orderId then
          if terminal then
            (TradingPair.set_askOrder tradingPair None, true,
             [console_log (OrderRemoved ticker ASK orderId status)])
          else
            (TradingPair.set_askOrder tradingPair
               (Some (Order.set_status askOrder (Some status))), true, [])
        else (tradingPair, false, [])
    | None => (tradingPair, false, [])
    end in
  (tradingPair, bidUpdated || askUpdated, bidLog ++ askLog).

(** The loop over [tradingPairs.entries()], with its [break]. *)
Fixpoint updateOrderStatus_loop (orderId status : string)
    (entries : JSMap.t TradingPair.t) : JSMap.t TradingPair.t * list Effect :=
  match entries with
  | [] => ([], [])
  | (ticker, tradingPair) :: rest =>
      let '(tradingPair', orderUpdated, log) :=
        updateOrderStatus_entry ticker orderId status tradingPair in
      if orderUpdated then ((ticker, tradingPair') :: rest, log)
      else
        let '(rest', log') := updateOrderStatus_loop orderId status rest in
        ((ticker, tradingPair) :: rest', log')
  end.

Definition updateOrderStatus (orderUpdate : OrderUpdateEvent.t) (p : Process)
    : Process :=
  let orderId := OrderUpdateEvent.id orderUpdate in
  let status := OrderUpdateEvent.status orderUpdate in
  let '(pairs, log) :=
    updateOrderStatus_loop orderId status (tradingPairs (this p)) in
  emits log (set_this p (set_tradingPairs (this p) pairs)).

(** *** start, stop *)

Definition start (p : Process) : Process :=
  if snapshotTimer (this p) then p
  else emit (console_log (ManagerStarted (quoteRefreshCycle (this p))))
            (set_this p (set_snapshotTimer (this p) true)).

Definition stop (p : Process) : Process :=
  if snapshotTimer (this p) then
    emit (console_log ManagerStopped)
         (set_this p (set_snapshotTimer (this p) false))
  else p.

(** *** getLatestSnapshot, getSnapshots *)

(** For a key that only [Object.prototype] knows, [snapshots] is a function
    or [Object.prototype] itself: its [length] is a small number or
    undefined and it has no element at [length - 1], so the result is
    undefined. *)
Definition getLatestSnapshot (p : Process) (ticker : string)
    : option PriceSnapshot.t :=
  match property (snapshots (this p)) ticker with
  | Own l => last l
  | Inherited => None
  | Undefined => None
  end.

(** [snapshots.slice(-count)]. *)
Definition slice_last {A : Type} (count : nat) (l : list A) : list A :=
  skipn (length l - count) l.

(** What [getSnapshots] gives: an array of snapshots; or, for a key that only
    [Object.prototype] knows, the inherited member itself, which is truthy
    and no array, or the TypeError of calling its missing [slice]. *)
Inductive Snapshots :=
| SnapshotList (l : list PriceSnapshot.t)
| InheritedMember
| ThrowsTypeError.

Definition getSnapshots (p : Process) (ticker : string) (count : option nat)
    : Snapshots :=
  match property (snapshots (this p)) ticker with
  | Own l =>
      match count with
      | Some (S n) => SnapshotList (slice_last (S n) l)
      | _ => SnapshotList l
      end
  | Inherited =>
      match count with
      | Some (S n) => ThrowsTypeError
      | _ => InheritedMember
      end
  | Undefined =>
      match count with
      | Some (S n) => SnapshotList (slice_last (S n) [])
      | _ => SnapshotList []
      end
  end.

(** *** getAllActiveOrders, cancelAllActiveOrders *)

Record ActiveOrder := mkActiveOrder {
  ao_ticker : string;
  ao_orderId : string;
  ao_side : OrderSide
}.

Definition getAllActiveOrders (p : Process) : list ActiveOrder :=
  flat_map
    (fun '(ticker, tradingPair) =>
       (match TradingPair.bidOrder tradingPair with
        | Some bidOrder =>
            if (is_string (Order.status bidOrder) "NEW"
                || negb (truthy_opt_string (Order.status bidOrder)))
               && negb (startsWith (Order.id bidOrder) "position-")
            then [mkActiveOrder ticker (Order.id bidOrder) BID]
            else []
        | None => []
        end)
       ++
       (match TradingPair.askOrder tradingPair with
        | Some askOrder =>
            if (is_string (Order.status askOrder) "NEW"
                || negb (truthy_opt_string (Order.status askOrder)))
               && negb (startsWith (Order.id askOrder) "position-")
            then [mkActiveOrder ticker (Order.id askOrder) ASK]
            else []
        | None => []
        end))
    (tradingPairs (this p)).

(** The loop that clears both slots of every trading pair. *)
Definition clearAllOrders (pairs : JSMap.t TradingPair.t) : JSMap.t TradingPair.t :=
  map (fun '(ticker, tradingPair) =>
         (ticker,
          TradingPair.set_askOrder (TradingPair.set_bidOrder tradingPair None) None))
      pairs.

(** [cancelAllActiveOrders] up to its [await]: the process at that point and
    the frame that waits for the bulk cancel, if the request was made. *)
Definition cancelAllActiveOrders (p : Process) : Process * option Frame :=
  let activeOrders := getAllActiveOrders p in
  match activeOrders with
  | [] => (emit (console_log NoActiveOrders) p, None)
  | _ :: _ =>
      let p := emit (console_log (CancellingActiveOrders (length activeOrders))) p in
      match ETHEREAL_SUBACCOUNT p with
      | Some subaccount =>
          if truthy_string subaccount then
            let p := set_this p (set_orderCreationInProgress (this p) ∅) in
            let p := set_this p (set_orderCancellationInProgress (this p) ∅) in
            let orderIds := map ao_orderId activeOrders in
            let cancelRequest := CancelOrderRequest.mk orderIds subaccount in
            if etherealService (this p) then
              (emit (post_orders_cancel cancelRequest) p,
               Some (AwaitCancelAll orderIds))
            else
              (emit (console_error ErrorCancellingDuringShutdown) p, None)
          else (emit (console_error SubaccountNotSetCannotCancelOrders) p, None)
      | None => (emit (console_error SubaccountNotSetCannotCancelOrders) p, None)
      end
  end.

(** The rest of [cancelAllActiveOrders], once the bulk cancel has settled. *)
Definition cancelAllActiveOrders_resume (orderIds : list string)
    (response : Response) (p : Process) : Process :=
  match response with
  | Resolved _ =>
      let p := set_this p (set_tradingPairs (this p)
                             (clearAllOrders (tradingPairs (this p)))) in
      emit (console_log (SuccessfullyCancelledOrders (length orderIds))) p
  | Rejected =>
      emits [console_error AdapterErrorCancellingOrder;
             console_error ErrorCancellingDuringShutdown] p
  end.

(** *** loadExistingPositions *)

(** An element of [positionsResponse.data], with the fields the code reads. *)
Record PositionData := mkPositionData {
  pd_productId : option string;
  pd_productTicker : option string;
  pd_ticker : option string;
  pd_quantity : option string;
  pd_size : option string;
  pd_entryPrice : option string;
  pd_avgPrice : option string
}.

Inductive PositionsOutcome :=
| PositionsResolved (data : option (list PositionData))
| PositionsRejected.

(** [a || b || '0'], the argument of [parseFloat]. *)
Definition or_zero (a b : option string) : string :=
  default "0" (or_string (or_string a b) (Some "0")).

(** The ticker of a position: its own, or the ticker of the first asset
    configuration with its product id. *)
Definition positionTicker (p : Process) (position : PositionData) : option string :=
  let productId := pd_productId position in
  let ticker := or_string (pd_productTicker position) (pd_ticker position) in
  if negb (truthy_opt_string ticker) && truthy_opt_string productId then
    let assetConfig :=
      find (fun config =>
              match AssetConfig.productId config, productId with
              | Some a, Some b => String.eqb a b
              | _, _ => false
              end)
           (JSMap.values (assetConfigs (this p))) in
    option_map AssetConfig.ticker assetConfig
  else ticker.

(** The body of the loop over the positions; [parseFloat] is the built-in.
    The position and its order read the clock one after the other; [now]
    stands for both readings. *)
Definition loadPosition (parseFloat : string -> number) (now : Z)
    (position : PositionData) (p : Process) : Process :=
  let productId := pd_productId position in
  let ticker := positionTicker p position in
  if negb (truthy_opt_string ticker) then p
  else
    let ticker := default "" ticker in
    let tradingPair :=
      default (TradingPair.fresh ticker)
              (JSMap.get (tradingPairs (this p)) ticker) in
    let quantity := parseFloat (or_zero (pd_quantity position) (pd_size position)) in
    let entryPrice :=
      parseFloat (or_zero (pd_entryPrice position) (pd_avgPrice position)) in
    let '(tradingPair, log) :=
      if gtb quantity 0%Q then
        let tradingPair :=
          TradingPair.set_longPosition tradingPair
            (Some (Position.mk ticker LONG (Qabs quantity) entryPrice now)) in
        let tradingPair :=
          TradingPair.set_bidOrder tradingPair
            (Some (Order.mk ("position-bid-" ++ show_opt_string productId)%string
                     ticker BID entryPrice (Qabs quantity) (Qabs quantity)
                     (Some "FILLED") now)) in
        (tradingPair, [console_log (FoundLong ticker quantity entryPrice)])
      else if ltb quantity 0%Q then
        let tradingPair :=
          TradingPair.set_shortPosition tradingPair
            (Some (Position.mk ticker SHORT (Qabs quantity) entryPrice now)) in
        let tradingPair :=
          TradingPair.set_askOrder tradingPair
            (Some (Order.mk ("position-ask-" ++ show_opt_string productId)%string
                     ticker ASK entryPrice (Qabs quantity) (Qabs quantity)
                     (Some "FILLED") now)) in
        (tradingPair, [console_log (FoundShort ticker (Qabs quantity) entryPrice)])
      else (tradingPair, []) in
    emits log
      (set_this p (set_tradingPairs (this p)
                     (JSMap.set (tradingPairs (this p)) ticker tradingPair))).

(** [response] is what [getPositions] settles with. *)
Definition loadExistingPositions (parseFloat : string -> number) (now : Z)
    (subaccountId : string) (response : PositionsOutcome) (p : Process)
    : Process :=
  if negb (etherealService (this p)) then
    emit (console_error ServiceNotSetCannotFetchPositions) p
  else
    let p := emit (console_log FetchingPositions) p in
    let productIds :=
      omap (fun config =>
              match AssetConfig.productId config with
              | Some id => if truthy_string id then Some id else None
              | None => None
              end)
           (JSMap.values (assetConfigs (this p))) in
    let p := emit (get_position subaccountId productIds) p in
    match response with
    | PositionsResolved data =>
        let p :=
          match data with
          | Some positions =>
              fold_left (fun p position => loadPosition parseFloat now position p)
                        positions p
          | None => p
          end in
        emit (console_log FinishedLoadingPositions) p
    | PositionsRejected =>
        emits [console_error AdapterErrorFetchingPositions;
               console_error ErrorLoadingPositions] p
    end.

(** *** cancelOrder (private) *)

Definition clearSlot (side : OrderSide) (tradingPair : TradingPair.t)
    : TradingPair.t :=
  match side with
  | BID => TradingPair.set_bidOrder tradingPair None
  | ASK => TradingPair.set_askOrder tradingPair None
  end.

(** Up to the [await]: the process, and whether the request was made. *)
Definition cancelOrder (ticker orderId : string) (side : OrderSide)
    (p : Process) : Process * bool :=
  if truthy_opt_string (ETHEREAL_SUBACCOUNT p) then
    let subaccount := default "" (ETHEREAL_SUBACCOUNT p) in
    let cancelRequest := CancelOrderRequest.mk [orderId] subaccount in
    let p := emit (console_log (CancellingOrder ticker side orderId)) p in
    if etherealService (this p) then
      (emit (post_orders_cancel cancelRequest) p, true)
    else (emit (console_error (ErrorCancellingOrder ticker side orderId)) p, false)
  else (emit (console_error SubaccountNotSetCannotCancelOrder) p, false).

Definition cancelOrder_resume (ticker orderId : string) (side : OrderSide)
    (response : Response) (p : Process) : Process :=
  match response with
  | Resolved _ =>
      let p :=
        match JSMap.get (tradingPairs (this p)) ticker with
        | Some tradingPair =>
            set_this p (set_tradingPairs (this p)
                          (JSMap.set (tradingPairs (this p)) ticker
                                     (clearSlot side tradingPair)))
        | None => p
        end in
      emit (console_log (SuccessfullyCancelledOrder ticker side orderId)) p
  | Rejected =>
      emits [console_error AdapterErrorCancellingOrder;
             console_error (ErrorCancellingOrder ticker side orderId)] p
  end.

Definition addCancellation (cancelKey : string) (p : Process) : Process :=
  set_this p (set_orderCancellationInProgress (this p)
                ({[cancelKey]} ∪ orderCancellationInProgress (this p))).

Definition deleteCancellation (cancelKey : string) (p : Process) : Process :=
  set_this p (set_orderCancellationInProgress (this p)
                (orderCancellationInProgress (this p) ∖ {[cancelKey]})).

Definition addCreation (ticker : string) (p : Process) : Process :=
  set_this p (set_orderCreationInProgress (this p)
                ({[ticker]} ∪ orderCreationInProgress (this p))).

Definition deleteCreation (ticker : string) (p : Process) : Process :=
  set_this p (set_orderCreationInProgress (this p)
                (orderCreationInProgress (this p) ∖ {[ticker]})).

(** *** checkOrdersAndPositions (private) *)

(** The second [if] of the method, on the ask order of [tradingPair]. *)
Definition cancelAskIfFlagged (ticker : string) (shouldCancelAsk : bool)
    (tradingPair : TradingPair.t) (p : Process) : Process * option Frame :=
  match shouldCancelAsk, TradingPair.askOrder tradingPair with
  | true, Some askOrder =>
      let cancelKey := (ticker ++ "-ask-" ++ Order.id askOrder)%string in
      if bool_decide (cancelKey ∈ orderCancellationInProgress (this p)) then
        (emit (console_log (CancellationInProgress ticker ASK)) p, None)
      else
        let p := addCancellation cancelKey p in
        let '(p, sent) := cancelOrder ticker (Order.id askOrder) ASK p in
        (p, Some (AwaitCancelAsk ticker cancelKey (Order.id askOrder) sent))
  | _, _ => (p, None)
  end.

(** The method up to its first [await]. *)
Definition checkOrdersAndPositions (now : Z) (ticker : string)
    (currentPrice : number) (p : Process) : Process * option Frame :=
  match deviationCheckService (this p) with
  | None => (p, None)
  | Some service =>
    if negb (etherealService (this p)) then (p, None)
    else
      match JSMap.get (tradingPairs (this p)) ticker with
      | None => (p, None)
      | Some tradingPair =>
        match JSMap.get (assetConfigs (this p)) ticker with
        | None => (p, None)
        | Some assetConfig =>
          let maxDeviation := AssetConfig.maxPriceDeviation assetConfig in
          let marketState :=
            DeviationCheckService.calculateMarketState
              service now ticker currentPrice maxDeviation in
          let checks :=
            DeviationCheckService.checkOrdersAndPositions tradingPair marketState in
          match DeviationCheckService.shouldCancelBid checks,
                TradingPair.bidOrder tradingPair with
          | true, Some bidOrder =>
              let cancelKey := (ticker ++ "-bid-" ++ Order.id bidOrder)%string in
              if bool_decide (cancelKey ∈ orderCancellationInProgress (this p)) then
                cancelAskIfFlagged ticker
                  (DeviationCheckService.shouldCancelAsk checks) tradingPair
                  (emit (console_log (CancellationInProgress ticker BID)) p)
              else
                let p := addCancellation cancelKey p in
                let '(p, sent) := cancelOrder ticker (Order.id bidOrder) BID p in
                (p, Some (AwaitCancelBid ticker cancelKey (Order.id bidOrder) sent
                            (DeviationCheckService.shouldCancelAsk checks)))
          | _, _ =>
              cancelAskIfFlagged ticker
                (DeviationCheckService.shouldCancelAsk checks) tradingPair p
          end
        end
      end
  end.

(** After the awaited bid cancel: the rest of [cancelOrder], the [finally],
    and the second [if].  The local [tradingPair] is the object stored under
    [ticker], which no transition replaces, so it is read from the map. *)
Definition checkOrdersAndPositions_resumeBid (ticker cancelKey orderId : string)
    (sent shouldCancelAsk : bool) (response : Response) (p : Process)
    : Process * option Frame :=
  let p := if sent then cancelOrder_resume ticker orderId BID response p else p in
  let p := deleteCancellation cancelKey p in
  match JSMap.get (tradingPairs (this p)) ticker with
  | Some tradingPair => cancelAskIfFlagged ticker shouldCancelAsk tradingPair p
  | None => (p, None)
  end.

Definition checkOrdersAndPositions_resumeAsk (ticker cancelKey orderId : string)
    (sent : bool) (response : Response) (p : Process) : Process :=
  let p := if sent then cancelOrder_resume ticker orderId ASK response p else p in
  deleteCancellation cancelKey p.

(** *** createBidOrder, createAskOrder, checkAndCreateOrders *)

(** The request literals [bidOrder] and [askOrder]. *)
Definition bidOrderRequest (now : Z) (ticker : string) (currentPrice : number)
    (config : AssetConfig.t) : CreateOrderRequest.t :=
  let bidPrice :=
    PriceUtils.calculateBidPrice currentPrice (AssetConfig.spreadWidth config) in
  let tickSize := or_number (AssetConfig.tickSize config) 1%Q in
  CreateOrderRequest.mk LIMIT (AssetConfig.orderSize config)
    (OrderUtils.convertSideToNumber OrderUtils.BUY)
    (Some (PriceUtils.roundToTickSize bidPrice tickSize))
    ticker None GTD (Some (OrderUtils.generateExpiresAt now 5)).

Definition askOrderRequest (now : Z) (ticker : string) (currentPrice : number)
    (config : AssetConfig.t) : CreateOrderRequest.t :=
  let askPrice :=
    PriceUtils.calculateAskPrice currentPrice (AssetConfig.spreadWidth config) in
  let tickSize := or_number (AssetConfig.tickSize config) 1%Q in
  CreateOrderRequest.mk LIMIT (AssetConfig.orderSize config)
    (OrderUtils.convertSideToNumber OrderUtils.SELL)
    (Some (PriceUtils.roundToTickSize askPrice tickSize))
    ticker None GTD (Some (OrderUtils.generateExpiresAt now 5)).

(** Up to the [await]: [None] when the call on a missing service throws. *)
Definition createBidOrder (now : Z) (ticker : string) (currentPrice : number)
    (config : AssetConfig.t) (p : Process)
    : Process * option CreateOrderRequest.t :=
  let bidOrder := bidOrderRequest now ticker currentPrice config in
  let p := emit (console_log (CreatingOrder ticker BID
                                (CreateOrderRequest.price bidOrder)
                                (CreateOrderRequest.quantity bidOrder))) p in
  if etherealService (this p) then (emit (post_orders bidOrder) p, Some bidOrder)
  else (p, None).

Definition createAskOrder (now : Z) (ticker : string) (currentPrice : number)
    (config : AssetConfig.t) (p : Process)
    : Process * option CreateOrderRequest.t :=
  let askOrder := askOrderRequest now ticker currentPrice config in
  let p := emit (console_log (CreatingOrder ticker ASK
                                (CreateOrderRequest.price askOrder)
                                (CreateOrderRequest.quantity askOrder))) p in
  if etherealService (this p) then (emit (post_orders askOrder) p, Some askOrder)
  else (p, None).

(** The order stored when the response carries an id ([price!] is the price
    of the request, which both request literals set). *)
Definition placedOrder (now : Z) (id ticker : string) (side : OrderSide)
    (request : CreateOrderRequest.t) : Order.t :=
  Order.mk id ticker side (default 0%Q (CreateOrderRequest.price request))
    (CreateOrderRequest.quantity request) 0%Q (Some "NEW") now.

(** The rest of [createBidOrder] and of [createAskOrder] on a response. *)
Definition installPlaced (now : Z) (ticker : string) (side : OrderSide)
    (request : CreateOrderRequest.t) (order_id : option string) (p : Process)
    : Process :=
  if truthy_opt_string order_id then
    let id := default "" order_id in
    let tradingPair :=
      default (TradingPair.fresh ticker)
              (JSMap.get (tradingPairs (this p)) ticker) in
    let order := placedOrder now id ticker side request in
    let tradingPair :=
      match side with
      | BID => TradingPair.set_bidOrder tradingPair (Some order)
      | ASK => TradingPair.set_askOrder tradingPair (Some order)
      end in
    set_this p (set_tradingPairs (this p)
                  (JSMap.set (tradingPairs (this p)) ticker tradingPair))
  else p.

(** The [catch] and [finally] of [checkAndCreateOrders]. *)
Definition creationFailed (ticker : string) (p : Process) : Process :=
  deleteCreation ticker (emit (console_error (ErrorCreatingOrders ticker)) p).

(** [checkAndCreateOrders] up to its first [await]. *)
Definition checkAndCreateOrders (now : Z) (ticker : string)
    (currentPrice : number) (p : Process) : Process * option Frame :=
  if negb (etherealService (this p)) then (p, None)
  else
    match JSMap.get (assetConfigs (this p)) ticker with
    | None => (p, None)
    | Some assetConfig =>
      if bool_decide (ticker ∈ orderCreationInProgress (this p)) then
        (emit (console_log (CreationInProgress ticker)) p, None)
      else
        let tradingPair :=
          default (TradingPair.fresh ticker)
                  (JSMap.get (tradingPairs (this p)) ticker) in
        let needsBidOrder := absent (TradingPair.bidOrder tradingPair) in
        let needsAskOrder := absent (TradingPair.askOrder tradingPair) in
        if needsBidOrder || needsAskOrder then
          let p := addCreation ticker p in
          if needsBidOrder then
            match createBidOrder now ticker currentPrice assetConfig p with
            | (p, Some bidOrder) =>
                (p, Some (AwaitPlaceBid ticker currentPrice assetConfig
                            needsAskOrder bidOrder))
            | (p, None) => (creationFailed ticker p, None)
            end
          else
            match createAskOrder now ticker currentPrice assetConfig p with
            | (p, Some askOrder) => (p, Some (AwaitPlaceAsk ticker askOrder))
            | (p, None) => (creationFailed ticker p, None)
            end
        else (p, None)
    end.

(** After the awaited bid placement. *)
Definition checkAndCreateOrders_resumeBid (now : Z) (ticker : string)
    (currentPrice : number) (config : AssetConfig.t) (needsAskOrder : bool)
    (bidOrder : CreateOrderRequest.t) (response : Response) (p : Process)
    : Process * option Frame :=
  match response with
  | Resolved order_id =>
      let p := installPlaced now ticker BID bidOrder order_id p in
      if needsAskOrder then
        match createAskOrder now ticker currentPrice config p with
        | (p, Some askOrder) => (p, Some (AwaitPlaceAsk ticker askOrder))
        | (p, None) => (creationFailed ticker p, None)
        end
      else (deleteCreation ticker p, None)
  | Rejected =>
      (creationFailed ticker (emit (console_error AdapterErrorPlacingOrder) p),
       None)
  end.

(** After the awaited ask placement. *)
Definition checkAndCreateOrders_resumeAsk (now : Z) (ticker : string)
    (askOrder : CreateOrderRequest.t) (response : Response) (p : Process)
    : Process :=
  match response with
  | Resolved order_id =>
      deleteCreation ticker (installPlaced now ticker ASK askOrder order_id p)
  | Rejected =>
      creationFailed ticker (emit (console_error AdapterErrorPlacingOrder) p)
  end.

(** *** cleanupCompletedTradingPairs *)

Definition cleanupCompletedTradingPairs (ticker : string) (p : Process) : Process :=
  match JSMap.get (tradingPairs (this p)) ticker with
  | None => p
  | Some tradingPair =>
      let bidFilled :=
        match TradingPair.bidOrder tradingPair with
        | Some o => is_string (Order.status o) "FILLED"
        | None => false
        end in
      let askFilled :=
        match TradingPair.askOrder tradingPair with
        | Some o => is_string (Order.status o) "FILLED"
        | None => false
        end in
      if bidFilled && askFilled then
        set_this p (set_tradingPairs (this p)
                      (JSMap.set (tradingPairs (this p)) ticker
                         (TradingPair.set_askOrder
                            (TradingPair.set_bidOrder tradingPair None) None)))
      else p
  end.

(** *** takeSnapshot *)

(** The body of [latestPrices.forEach] for a ticker whose history is an
    array or is missing (see [throwsAtPush] for the other tickers). *)
Definition takeSnapshot_entry (now : Z) (ticker : string)
    (priceUpdate : PriceUpdate.t) (p : Process) : Process :=
  let snapshot :=
    PriceSnapshot.mk ticker (PriceUpdate.price priceUpdate)
                     (PriceUpdate.confidence priceUpdate) now in
  let history := default [] (JSMap.get (snapshots (this p)) ticker) ++ [snapshot] in
  let history :=
    if (100 <? length history)%nat then slice_last 100 history else history in
  let p := set_this p (set_snapshots (this p)
                         (JSMap.set (snapshots (this p)) ticker history)) in
  let p :=
    match deviationCheckService (this p) with
    | Some _ =>
        let '(p, frame) :=
          checkOrdersAndPositions now ticker (PriceUpdate.price priceUpdate) p in
        suspend frame p
    | None => p
    end in
  let '(p, frame) :=
    checkAndCreateOrders now ticker (PriceUpdate.price priceUpdate) p in
  let p := suspend frame p in
  let p := cleanupCompletedTradingPairs ticker p in
  if snapshotCallback (this p) then emit (snapshotCallback_call snapshot) p
  else p.

(** For a ticker that only [Object.prototype] knows, [snapshots[ticker]] is
    truthy, the history is not initialised, and [push] is not a function:
    the TypeError leaves [forEach], [takeSnapshot] and the callback of the
    timer, nothing catches it, and the runtime reports it and ends the
    process with exit code 1. *)
Definition throwsAtPush (p : Process) (ticker : string) : bool :=
  match property (snapshots (this p)) ticker with
  | Inherited => true
  | _ => false
  end.

Definition uncaughtException (ticker : string) (p : Process) : Process :=
  set_exited (emits [console_error (UncaughtTypeError ticker); process_exit 1] p)
             true.

(** [latestPrices.forEach], entry by entry. *)
Fixpoint takeSnapshot_loop (now : Z) (entries : JSMap.t PriceUpdate.t)
    (p : Process) : Process :=
  match entries with
  | [] => p
  | (ticker, priceUpdate) :: rest =>
      if throwsAtPush p ticker then uncaughtException ticker p
      else takeSnapshot_loop now rest (takeSnapshot_entry now ticker priceUpdate p)
  end.

Definition takeSnapshot (now : Z) (p : Process) : Process :=
  let p := emit (console_log (TakingSnapshot now (length (latestPrices (this p))))) p in
  takeSnapshot_loop now (latestPrices (this p)) p.

(** ** src/index.ts: wiring, events and shutdown *)

(** The end of the [shutdown] handler, after its [await]. *)
Definition shutdown_finish (p : Process) : Process :=
  set_exited (emits [feeds_disconnect; console_log ShutdownComplete;
                     process_exit 0] p) true.

(** The [shutdown] handler up to its [await]. *)
Definition shutdown (p : Process) : Process :=
  let p := emit (console_log ShutdownReceived) p in
  let p := stop p in
  let '(p, frame) := cancelAllActiveOrders p in
  match frame with
  | Some f => suspend (Some f) p
  | None => suspend (Some AwaitShutdown) p
  end.

(** A suspended call continues with the outcome of what it awaited. *)
Definition resume (frame : Frame) (response : Response) (now : Z)
    (p : Process) : Process :=
  match frame with
  | AwaitCancelBid ticker cancelKey orderId sent shouldCancelAsk =>
      let '(p, next) :=
        checkOrdersAndPositions_resumeBid ticker cancelKey orderId sent
          shouldCancelAsk response p in
      suspend next p
  | AwaitCancelAsk ticker cancelKey orderId sent =>
      checkOrdersAndPositions_resumeAsk ticker cancelKey orderId sent response p
  | AwaitPlaceBid ticker currentPrice config needsAskOrder bidOrder =>
      let '(p, next) :=
        checkAndCreateOrders_resumeBid now ticker currentPrice config
          needsAskOrder bidOrder response p in
      suspend next p
  | AwaitPlaceAsk ticker askOrder =>
      checkAndCreateOrders_resumeAsk now ticker askOrder response p
  | AwaitCancelAll orderIds =>
      shutdown_finish (cancelAllActiveOrders_resume orderIds response p)
  | AwaitShutdown => shutdown_finish p
  end.

(** What can happen to the running process: a price from the oracle feed, an
    order update from the exchange stream, the refresh timer, the settling
    of the [i]-th suspended call, a termination signal. *)
Inductive Event :=
| PriceArrives (priceUpdate : PriceUpdate.t)
| OrderUpdateArrives (orderUpdate : OrderUpdateEvent.t)
| TimerFires (now : Z)
| Settles (i : nat) (response : Response) (now : Z)
| Signal.

Definition step (e : Event) (p : Process) : Process :=
  if exited p then p
  else
    match e with
    | PriceArrives priceUpdate => updatePrice priceUpdate p
    | OrderUpdateArrives orderUpdate =>
        updateOrderStatus orderUpdate
          (emit (console_log (OrderUpdateSeen (OrderUpdateEvent.id orderUpdate)
                                (OrderUpdateEvent.status orderUpdate))) p)
    | TimerFires now => if snapshotTimer (this p) then takeSnapshot now p else p
    | Settles i response now =>
        match pending p !! i with
        | Some frame => resume frame response now (set_pending p (delete i (pending p)))
        | None => p
        end
    | Signal => shutdown p
    end.

Definition run (events : list Event) (p : Process) : Process :=
  fold_left (fun p e => step e p) events p.

(** [runMarketMaker] up to the point where the bot is running: the services
    are wired, the asset configurations set, the positions loaded, the
    snapshot callback registered and the timer started. *)
Definition boot (parseFloat : string -> number) (now : Z)
    (config : MarketMakingConfig.t) (assets : list AssetConfig.t)
    (subaccountId : string) (subaccount : option string)
    (positions : PositionsOutcome) : Process :=
  let p :=
    mkProcess (new (MarketMakingConfig.quoteRefreshCycle config)) subaccount
              [] [] false in
  let p := setDeviationCheckService (DeviationCheckService.mk config) p in
  let p := setEtherealService p in
  let p :=
    fold_left (fun p asset => setAssetConfig (AssetConfig.ticker asset) asset p)
              assets p in
  let p := loadExistingPositions parseFloat now subaccountId positions p in
  let p := onSnapshot p in
  start p.

End PriceSnapshotService.

(** * The risk check in binary64

    The risk check compares a computed distance with a computed threshold,
    and there the rounding of JavaScript's numbers decides the outcome: with
    a bid at 0.0679, a mid price of 0.07 and a threshold of 0.0021 the code
    computes the distance 0.0021000000000000046 and flags the bid, although
    the decimals are exactly a threshold apart.  This part embeds
    [calculateMarketState], [checkOrdersAndPositions] and the functions of
    [priceUtils.ts] that they call over IEEE 754 binary64 values, with the
    operations of the Standard Library's specification of floating-point
    arithmetic (rounding to nearest, ties to even). *)

Module Binary64.

(** A JavaScript [number]: a binary64 value, NaN and the infinities
    included. *)
Definition number := SpecFloat.spec_float.

Definition prec : Z := 53.
Definition emax : Z := 1024.

(** [a + b], [a - b], [a * b], [a / b], [Math.abs(a)]. *)
Definition add (a b : number) : number := SpecFloat.SFadd prec emax a b.
Definition sub (a b : number) : number := SpecFloat.SFsub prec emax a b.
Definition mul (a b : number) : number := SpecFloat.SFmul prec emax a b.
Definition div (a b : number) : number := SpecFloat.SFdiv prec emax a b.
Definition Math_abs (a : number) : number := SpecFloat.SFabs a.

(** [a > b] and [a == b]: both are false when an operand is NaN, and the two
    zeros are equal. *)
Definition gtb (a b : number) : bool := SpecFloat.SFltb b a.
Definition eqb (a b : number) : bool := SpecFloat.SFeqb a b.

(** An integer literal of the code. *)
Definition literal (z : Z) : number :=
  SpecFloat.binary_normalize prec emax z 0 false.

(** Truthiness of a number: the zeros and NaN are falsy. *)
Definition truthy_number (x : number) : bool :=
  match x with
  | SpecFloat.S754_zero _ | SpecFloat.S754_nan => false
  | _ => true
  end.

(** [a || b] on an optional number. *)
Definition or_number (a : option number) (b : number) : number :=
  match a with
  | Some x => if truthy_number x then x else b
  | None => b
  end.

(** *** src/utils/priceUtils.ts *)

Module PriceUtils.

Definition basisPointsToDecimal (basisPoints : number) : number :=
  div basisPoints (literal 10000).

Definition calculateMaxDeviationAmount (price deviationPercent : number) : number :=
  mul price (div deviationPercent (literal 100)).

Definition calculatePriceDeviation (price1 price2 : number) : number :=
  Math_abs (sub price1 price2).

Definition calculateSpreadAmount (midPrice spreadBasisPoints : number) : number :=
  let spreadDecimal := basisPointsToDecimal spreadBasisPoints in
  mul midPrice spreadDecimal.

End PriceUtils.

(** *** src/types/marketMaker.ts and src/config/marketConfig.ts *)

Module Order.
Record t := mk {
  id : string;
  ticker : string;
  side : OrderSide;
  price : number;
  quantity : number;
  quantityFilled : number;
  status : option string;
  timestamp : Z
}.
End Order.

Module Position.
Record t := mk {
  ticker : string;
  side : PositionSide;
  quantity : number;
  entryPrice : number;
  timestamp : Z
}.
End Position.

Module TradingPair.
Record t := mk {
  ticker : string;
  bidOrder : option Order.t;
  askOrder : option Order.t;
  longPosition : option Position.t;
  shortPosition : option Position.t
}.
End TradingPair.

Module MarketState.
Record t := mk {
  ticker : string;
  midPrice : number;
  bidPrice : number;
  askPrice : number;
  maxDeviationPrice : number;
  timestamp : Z
}.
End MarketState.

Module AssetConfig.
Record t := mk {
  ticker : string;
  orderSize : number;
  spreadWidth : number;
  maxPriceDeviation : number;
  tickSize : option number;
  minQuantity : option number;
  maxQuantity : option number;
  productId : option string
}.
End AssetConfig.

Module MarketMakingConfig.
Record t := mk {
  quoteRefreshCycle : Z;
  assets : list AssetConfig.t
}.
End MarketMakingConfig.

(** *** src/services/DeviationCheckService.ts *)

Module DeviationCheckService.

Record t := mk { config : MarketMakingConfig.t }.

Record Checks := mkChecks {
  shouldCancelBid : bool;
  shouldCancelAsk : bool;
  shouldClosePositions : bool
}.

(** [assetConfig?.spreadWidth || 10], the local [spreadWidthBp]. *)
Definition spreadWidthBp (self : t) (ticker : string) : number :=
  let assetConfig :=
    find (fun asset => String.eqb (AssetConfig.ticker asset) ticker)
         (MarketMakingConfig.assets (config self)) in
  or_number (option_map AssetConfig.spreadWidth assetConfig) (literal 10).

(** [now] is the reading of [Date.now()]. *)
Definition calculateMarketState (self : t) (now : Z) (ticker : string)
    (currentPrice maxDeviation : number) : MarketState.t :=
  let maxDeviationPrice :=
    PriceUtils.calculateMaxDeviationAmount currentPrice maxDeviation in
  let spreadAmount :=
    PriceUtils.calculateSpreadAmount currentPrice (spreadWidthBp self ticker) in
  {| MarketState.ticker := ticker;
     MarketState.midPrice := currentPrice;
     MarketState.bidPrice := sub currentPrice (div spreadAmount (literal 2));
     MarketState.askPrice := add currentPrice (div spreadAmount (literal 2));
     MarketState.maxDeviationPrice := maxDeviationPrice;
     MarketState.timestamp := now |}.

Definition checkOrdersAndPositions (tradingPair : TradingPair.t)
    (marketState : MarketState.t) : Checks :=
  let shouldCancelBid :=
    match TradingPair.bidOrder tradingPair with
    | Some bidOrder =>
        if is_string (Order.status bidOrder) "NEW" then
          let bidDeviation :=
            PriceUtils.calculatePriceDeviation
              (Order.price bidOrder) (MarketState.midPrice marketState) in
          if gtb bidDeviation (MarketState.maxDeviationPrice marketState)
          then true else false
        else false
    | None => false
    end in
  let shouldCancelAsk :=
    match TradingPair.askOrder tradingPair with
    | Some askOrder =>
        if is_string (Order.status askOrder) "NEW" then
          let askDeviation :=
            PriceUtils.calculatePriceDeviation
              (Order.price askOrder) (MarketState.midPrice marketState) in
          if gtb askDeviation (MarketState.maxDeviationPrice marketState)
          then true else false
        else false
    | None => false
    end in
  let shouldClosePositions := false in
  let shouldClosePositions :=
    match TradingPair.longPosition tradingPair with
    | Some longPosition =>
        let longDeviation :=
          PriceUtils.calculatePriceDeviation
            (Position.entryPrice longPosition) (MarketState.midPrice marketState) in
        if gtb longDeviation (MarketState.maxDeviationPrice marketState)
        then true else shouldClosePositions
    | None => shouldClosePositions
    end in
  let shouldClosePositions :=
    match TradingPair.shortPosition tradingPair with
    | Some shortPosition =>
        let shortDeviation :=
          PriceUtils.calculatePriceDeviation
            (Position.entryPrice shortPosition) (MarketState.midPrice marketState) in
        if gtb shortDeviation (MarketState.maxDeviationPrice marketState)
        then true else shouldClosePositions
    | None => shouldClosePositions
    end in
  mkChecks shouldCancelBid shouldCancelAsk shouldClosePositions.

End DeviationCheckService.

(** A decimal of the examples: [n / 10^k], rounded as the literal is. *)
Definition decimal (n : Z) (k : nat) : number :=
  div (literal n) (literal (10 ^ Z.of_nat k)).

(** A pair whose only content is a ['NEW'] bid at a price. *)
Definition bidAt (price : number) : TradingPair.t :=
  TradingPair.mk "BTCUSD"
    (Some (Order.mk "bid-1" "BTCUSD" BID price (literal 1) (literal 0)
             (Some "NEW") 0))
    None None None.

End Binary64.

(** * Vocabulary of the statements *)

Section Vocabulary.
Import PriceSnapshotService.

(** The orders held in the bid and ask slots, instrument by instrument, the
    bid before the ask. *)
Definition slotOrders (pairs : JSMap.t TradingPair.t) : list Order.t :=
  flat_map (fun '(_, tradingPair) =>
              option_list (TradingPair.bidOrder tradingPair)
              ++ option_list (TradingPair.askOrder tradingPair))
           pairs.

(** An order that the shutdown cancels: its id does not start with
    [position-], and its status is ['NEW'] or missing (undefined or empty). *)
Definition cancellable (o : Order.t) : bool :=
  negb (startsWith (Order.id o) "position-")
  && (is_string (Order.status o) "NEW" || negb (truthy_opt_string (Order.status o))).

(** A slot, or a trading pair, holds the order [orderId]. *)
Definition slotHolds (orderId : string) (slot : option Order.t) : Prop :=
  exists o, slot = Some o /\ Order.id o = orderId.

Definition pairHolds (orderId : string) (tradingPair : TradingPair.t) : Prop :=
  slotHolds orderId (TradingPair.bidOrder tradingPair)
  \/ slotHolds orderId (TradingPair.askOrder tradingPair).

(** What an order update [(orderId, status)] does to a slot: nothing when the
    slot does not hold the order; it empties the slot for a terminal status
    and overwrites the status of the order otherwise. *)
Inductive Reconciled (orderId status : string)
  : option Order.t -> option Order.t -> Prop :=
| Reconciled_untouched slot :
    ~ slotHolds orderId slot -> Reconciled orderId status slot slot
| Reconciled_removed o :
    Order.id o = orderId -> status = "CANCELED" \/ status = "EXPIRED" ->
    Reconciled orderId status (Some o) None
| Reconciled_status o :
    Order.id o = orderId -> status <> "CANCELED" -> status <> "EXPIRED" ->
    Reconciled orderId status (Some o) (Some (Order.set_status o (Some status))).

(** Every bid and ask slot is empty. *)
Definition allSlotsEmpty (pairs : JSMap.t TradingPair.t) : Prop :=
  forall ticker tradingPair,
    In (ticker, tradingPair) pairs ->
    TradingPair.bidOrder tradingPair = None
    /\ TradingPair.askOrder tradingPair = None.

(** An id outside the reserved [position-] namespace of the synthetic
    orders. *)
Definition exchangeId (id : string) : Prop := startsWith id "position-" = false.

(** The environment of the process: the exchange reports order updates for,
    and answers placements with, ids of its own, which are exchange ids. *)
Definition admissible (e : Event) : Prop :=
  match e with
  | OrderUpdateArrives orderUpdate => exchangeId (OrderUpdateEvent.id orderUpdate)
  | Settles _ (Resolved (Some id)) _ => exchangeId id
  | _ => True
  end.

(** A slot whose order, if its id is in the [position-] namespace, is a
    synthetic position order: its status is ['FILLED']. *)
Definition syntheticIfPosition (slot : option Order.t) : Prop :=
  forall o, slot = Some o ->
            startsWith (Order.id o) "position-" = true ->
            Order.status o = Some "FILLED".

(** The instrument of a suspended placement round, and the key
    (instrument, side, order id) of a suspended deviation cancel. *)
Definition placementTicker (f : Frame) : option string :=
  match f with
  | AwaitPlaceBid ticker _ _ _ _ => Some ticker
  | AwaitPlaceAsk ticker _ => Some ticker
  | _ => None
  end.

Definition cancelTriple (f : Frame) : option (string * OrderSide * string) :=
  match f with
  | AwaitCancelBid ticker _ orderId _ _ => Some (ticker, BID, orderId)
  | AwaitCancelAsk ticker _ orderId _ => Some (ticker, ASK, orderId)
  | _ => None
  end.

(** The string that the code uses as the key of a cancel. *)
Definition cancelKey (f : Frame) : option string :=
  match f with
  | AwaitCancelBid _ key _ _ _ => Some key
  | AwaitCancelAsk _ key _ _ => Some key
  | _ => None
  end.

(** The key of a suspended cancel is the one the code builds from its
    instrument, side and order id. *)
Definition keyed (f : Frame) : Prop :=
  match f with
  | AwaitCancelBid ticker key orderId _ _ =>
      key = (ticker ++ "-bid-" ++ orderId)%string
  | AwaitCancelAsk ticker key orderId _ =>
      key = (ticker ++ "-ask-" ++ orderId)%string
  | _ => True
  end.

(** What the single-flight discipline is about: the timer, the two lock
    sets and the suspended calls. *)
Definition control (p : Process)
  : bool * gset string * gset string * list Frame :=
  (snapshotTimer (this p), orderCreationInProgress (this p),
   orderCancellationInProgress (this p), pending p).

(** A step of the risk pass on the cancel locks [S]: either no cancel is
    started and the locks are as before, or a cancel is suspended under a key
    that was free and is now held. *)
Definition startsCancel (S S' : gset string) (next : option Frame) : Prop :=
  match next with
  | None => S' = S
  | Some f =>
      keyed f /\ placementTicker f = None
      /\ exists key, cancelKey f = Some key /\ (key ∉ S) /\ (S' = {[key]} ∪ S)
  end.

(** The same for a placement round of [ticker] on the creation locks. *)
Definition startsRound (ticker : string) (S S' : gset string)
    (next : option Frame) : Prop :=
  match next with
  | None => S' = S
  | Some f =>
      placementTicker f = Some ticker /\ cancelKey f = None
      /\ (ticker ∉ S) /\ (S' = {[ticker]} ∪ S)
  end.

(** A placement round that continues keeps the lock of its instrument, and
    one that ends releases it. *)
Definition continuesRound (ticker : string) (S S' : gset string)
    (next : option Frame) : Prop :=
  match next with
  | None => S' = S ∖ {[ticker]}
  | Some f => placementTicker f = Some ticker /\ cancelKey f = None /\ S' = S
  end.

(** The single-flight invariant: the suspended placement rounds are for
    distinct instruments; and while the timer runs, each of them holds the
    lock of its instrument, the suspended cancels have distinct keys, and
    each of them holds its key. *)
Definition singleFlightOn (timer : bool) (creation cancellation : gset string)
    (frames : list Frame) : Prop :=
  NoDup (omap placementTicker frames)
  /\ Forall keyed frames
  /\ (timer = true ->
      (forall ticker, ticker ∈ omap placementTicker frames -> ticker ∈ creation)
      /\ NoDup (omap cancelKey frames)
      /\ (forall key, key ∈ omap cancelKey frames -> key ∈ cancellation)).

Definition singleFlight (p : Process) : Prop :=
  singleFlightOn (snapshotTimer (this p)) (orderCreationInProgress (this p))
                 (orderCancellationInProgress (this p)) (pending p).

(** A request that names no synthetic order: a cancel lists exchange ids
    only, and a placement carries no order id of the client. *)
Definition harmless (e : Effect) : Prop :=
  match e with
  | post_orders_cancel request =>
      Forall exchangeId (CancelOrderRequest.order_ids request)
  | post_orders request => CreateOrderRequest.client_order_id request = None
  | _ => True
  end.

(** Every order in a slot whose id is in the [position-] namespace is a
    synthetic position order. *)
Definition positionsAreSynthetic (pairs : JSMap.t TradingPair.t) : Prop :=
  forall ticker tradingPair,
    In (ticker, tradingPair) pairs ->
    syntheticIfPosition (TradingPair.bidOrder tradingPair)
    /\ syntheticIfPosition (TradingPair.askOrder tradingPair).

(** The ask slot of [ticker] holds no order of the [position-] namespace. *)
Definition askIsExchange (ticker : string) (pairs : JSMap.t TradingPair.t) : Prop :=
  forall tradingPair o,
    In (ticker, tradingPair) pairs ->
    TradingPair.askOrder tradingPair = Some o -> exchangeId (Order.id o).

(** A risk pass suspended on the cancel of its bid goes on to cancel the ask
    it flagged: that ask must not be a synthetic order. *)
Definition frameSafe (pairs : JSMap.t TradingPair.t) (f : Frame) : Prop :=
  match f with
  | AwaitCancelBid ticker _ _ _ true => askIsExchange ticker pairs
  | _ => True
  end.

(** What the running bot does to a slot: it keeps it, empties it, or puts
    there an order with an exchange id. *)
Definition slotStep (o o' : option Order.t) : Prop :=
  o' = o \/ o' = None \/ exists x, o' = Some x /\ exchangeId (Order.id x).

Definition pairStep (tradingPair tradingPair' : TradingPair.t) : Prop :=
  slotStep (TradingPair.bidOrder tradingPair) (TradingPair.bidOrder tradingPair')
  /\ slotStep (TradingPair.askOrder tradingPair)
              (TradingPair.askOrder tradingPair').

Definition pairsStep (m m' : JSMap.t TradingPair.t) : Prop :=
  (NoDup (JSMap.keys m) -> NoDup (JSMap.keys m'))
  /\ forall k tradingPair',
       In (k, tradingPair') m' ->
       (exists tradingPair, In (k, tradingPair) m
                            /\ pairStep tradingPair tradingPair')
       \/ pairStep (TradingPair.fresh k) tradingPair'.

(** A part of a handler that suspends nothing: the slots move by
    [pairsStep] and what it writes or requests is harmless. *)
Definition evolves (p p' : Process) : Prop :=
  pairsStep (tradingPairs (this p)) (tradingPairs (this p'))
  /\ pending p' = pending p
  /\ exists es, output p' = output p ++ es /\ Forall harmless es.

(** The invariant behind C7. *)
Definition quoteSafe (p : Process) : Prop :=
  NoDup (JSMap.keys (tradingPairs (this p)))
  /\ positionsAreSynthetic (tradingPairs (this p))
  /\ Forall (frameSafe (tradingPairs (this p))) (pending p)
  /\ Forall harmless (output p).

End Vocabulary.

(** ** A reader of decimal literals, to instantiate [parseFloat] in examples *)

Definition digitValue (c : Ascii.ascii) : option Z :=
  let n := Z.of_nat (Ascii.nat_of_ascii c) in
  if ((48 <=? n) && (n <=? 57))%Z then Some (n - 48)%Z else None.

(** Reads the digits of [s] after the integer part [acc]; after the point
    [scale] counts the decimal places read so far. *)
Fixpoint readDigits (s : string) (acc : Z) (scale : option positive) : Q :=
  match s with
  | EmptyString => Qmake acc (default 1%positive scale)
  | String c rest =>
      match digitValue c, scale with
      | Some d, None => readDigits rest (acc * 10 + d)%Z None
      | Some d, Some k => readDigits rest (acc * 10 + d)%Z (Some (k * 10)%positive)
      | None, None =>
          if Ascii.eqb c "."%char then readDigits rest acc (Some 1%positive)
          else Qmake acc 1
      | None, Some k => Qmake acc k
      end
  end.

Definition parseDecimal (s : string) : number :=
  match s with
  | String "-"%char rest => Qopp (readDigits rest 0 None)
  | _ => readDigits s 0 None
  end.

(** ** Example states, from the scenarios of the specification *)

Section Examples.
Import PriceSnapshotService.
Local Open Scope Q_scope.

Definition btcConfig : AssetConfig.t :=
  AssetConfig.mk "BTCUSD" (1 # 1000) 10 1 (Some 1) (Some (1 # 10000))
                 (Some 1000000) (Some "BTCUSD_PERP").

Definition ethConfig : AssetConfig.t :=
  AssetConfig.mk "ETHUSD" (1 # 100) 10 1 (Some 1) (Some (1 # 10000))
                 (Some 1000000) (Some "ETHUSD_PERP").

Definition exampleConfig : MarketMakingConfig.t :=
  MarketMakingConfig.mk 5000 [btcConfig; ethConfig].

Definition liveOrder (id ticker : string) (side : OrderSide) (price : number)
  : Order.t :=
  Order.mk id ticker side price (1 # 1000) 0 (Some "NEW") 0.

(** A service with its collaborators set and the given trading pairs. *)
Definition serviceWith (pairs : JSMap.t TradingPair.t) : PriceSnapshotService.t :=
  PriceSnapshotService.mk [] [] pairs
    [("BTCUSD", btcConfig); ("ETHUSD", ethConfig)] true true 5000
    (Some (DeviationCheckService.mk exampleConfig)) true ∅ ∅.

Definition processWith (pairs : JSMap.t TradingPair.t)
    (subaccount : option string) : Process :=
  mkProcess (serviceWith pairs) subaccount [] [] false.

(** Scenario 6: live bid [B1] and ask [A1] on BTCUSD, a synthetic ask on
    ETHUSD. *)
Definition shutdownScenario : Process :=
  processWith
    [("BTCUSD",
      TradingPair.mk "BTCUSD"
        (Some (liveOrder "B1" "BTCUSD" BID 49950))
        (Some (liveOrder "A1" "BTCUSD" ASK 50050)) None None);
     ("ETHUSD",
      TradingPair.mk "ETHUSD" None
        (Some (Order.mk "position-ask-ETHUSD_PERP" "ETHUSD" ASK 2500
                 (1 # 100) (1 # 100) (Some "FILLED") 0))
        None
        (Some (Position.mk "ETHUSD" SHORT (1 # 100) 2500 0)))]
    (Some "main").

(** One instrument whose two slots hold an order with the same id. *)
Definition sameIdInBothSlots : Process :=
  processWith
    [("BTCUSD",
      TradingPair.mk "BTCUSD"
        (Some (liveOrder "X" "BTCUSD" BID 49950))
        (Some (liveOrder "X" "BTCUSD" ASK 50050)) None None)]
    (Some "main").

(** One instrument with a filled bid and nothing else. *)
Definition filledBidOnly : Process :=
  processWith
    [("BTCUSD",
      TradingPair.mk "BTCUSD"
        (Some (Order.mk "B1" "BTCUSD" BID 49950 (1 # 1000) (1 # 1000)
                 (Some "FILLED") 0))
        None None None)]
    (Some "main").

(** Scenario 5: the position returned by the warmup query. *)
Definition btcPosition : PositionData :=
  mkPositionData (Some "BTCUSD_PERP") None None (Some "0.005") None
                 (Some "45000") None.


(** The bot after boot with BTCUSD configured and no open position. *)
Definition bootedExample : Process :=
  boot parseDecimal 0 exampleConfig [btcConfig] "main" (Some "main")
       (PositionsResolved (Some [])).

(** Scenario 1 and 2 in a row: both quotes are placed around 50000, then the
    price jumps to 60000 and both quotes deviate. *)
Definition quotedThenJump : list Event :=
  [PriceArrives (PriceUpdate.mk "BTCUSD" 50000 5 1);
   TimerFires 5000;
   Settles 0 (Resolved (Some "B1")) 5100;
   Settles 0 (Resolved (Some "A1")) 5200;
   PriceArrives (PriceUpdate.mk "BTCUSD" 60000 5 9000)].

(** A shutdown that races with the risk pass: the first tick suspends on the
    cancel of the bid, the second tick starts the cancel of the ask, the
    signal arrives and clears the locks, and only then the cancel of the bid
    settles, so that the first risk pass goes on to the ask. *)
Definition shutdownRace : list Event :=
  quotedThenJump
  ++ [TimerFires 10000;
      TimerFires 15000;
      Signal;
      Settles 0 (Resolved None) 15100].

(** The bot after boot with the position of scenario 5, and a run in which
    it quotes the ask beside the synthetic bid, sees the ask reported, cancels
    it after a price jump and shuts down. *)
Definition bootedWithPosition : Process :=
  boot parseDecimal 0 exampleConfig [btcConfig; ethConfig] "main" (Some "main")
       (PositionsResolved (Some [btcPosition])).

Definition quoteBesidePosition : list Event :=
  [PriceArrives (PriceUpdate.mk "BTCUSD" 50000 5 1);
   TimerFires 5000;
   Settles 0 (Resolved (Some "A1")) 5200;
   OrderUpdateArrives (OrderUpdateEvent.mk "A1" "NEW");
   PriceArrives (PriceUpdate.mk "BTCUSD" 60000 5 9000);
   TimerFires 10000;
   Signal;
   Settles 0 (Resolved None) 10100;
   Settles 0 (Resolved None) 10200].

(** The exchange reports the synthetic bid of scenario 5 as ['NEW'], and the
    next tick finds the price far from the entry price of the position. *)
Definition syntheticReportedNew : list Event :=
  [OrderUpdateArrives (OrderUpdateEvent.mk "position-bid-BTCUSD_PERP" "NEW");
   PriceArrives (PriceUpdate.mk "BTCUSD" 50000 5 1);
   TimerFires 5000].


(** The market state of the tests of the risk check, and the same mid price
    and threshold with other projection prices, ticker and time. *)
Definition testMarketState : MarketState.t :=
  MarketState.mk "BTCUSD" 50000 49975 50025 1000 0.

Definition otherProjection : MarketState.t :=
  MarketState.mk "ETHUSD" 50000 1 99999 1000 42.

Definition bidAtBoundary : TradingPair.t :=
  TradingPair.mk "BTCUSD" (Some (liveOrder "bid-1" "BTCUSD" BID 49000))
                 None None None.

End Examples.

(** * More of the code *)

(** ** src/config/marketConfig.ts: the configuration from the environment *)

Module MarketConfig.

(** [process.env]: a variable is a string or is not set. *)
Definition Env := string -> option string.

(** [s.split(sep)] for a separator of one character. *)
Fixpoint split (sep : Ascii.ascii) (s : string) : list string :=
  match s with
  | EmptyString => [EmptyString]
  | String c rest =>
      if Ascii.eqb c sep then EmptyString :: split sep rest
      else
        match split sep rest with
        | field :: fields => String c field :: fields
        | [] => [String c EmptyString]
        end
  end.

(** [s.slice(n)]. *)
Fixpoint slice (n : nat) (s : string) : string :=
  match n, s with
  | O, _ => s
  | S n', String _ rest => slice n' rest
  | S _, EmptyString => EmptyString
  end.

(** [s.replace(pattern, replacement)] for a pattern that is a string: the
    first occurrence is replaced (the replacements of the code have no [$]). *)
Fixpoint replace (pattern replacement s : string) : string :=
  if String.prefix pattern s
  then (replacement ++ slice (String.length pattern) s)%string
  else
    match s with
    | EmptyString => EmptyString
    | String c rest => String c (replace pattern replacement rest)
    end.

(** The number of occurrences of a character in a string. *)
Fixpoint occurrences (sep : Ascii.ascii) (s : string) : nat :=
  match s with
  | EmptyString => 0
  | String c rest =>
      (if Ascii.eqb c sep then 1 else 0) + occurrences sep rest
  end.

(** [fields.join(sep)]. *)
Fixpoint join (sep : string) (fields : list string) : string :=
  match fields with
  | [] => EmptyString
  | [field] => field
  | field :: rest => (field ++ sep ++ join sep rest)%string
  end.

(** [a || b || fallback] on variables of the environment. *)
Definition firstSet (a b : option string) (fallback : string) : string :=
  default fallback (or_string (or_string a b) (Some fallback)).

(** The prefix of the variables of an instrument: ['BTCUSD'] gives
    ['BTC_USD']. *)
Definition envPrefix (ticker : string) : string := replace "USD" "_USD" ticker.

(** The body of [tickers.map]; [parseFloat] is the built-in. *)
Definition loadAsset (parseFloat : string -> number) (env : Env)
    (ticker : string) : AssetConfig.t :=
  let envPrefix := replace "USD" "_USD" ticker in
  AssetConfig.mk ticker
    (parseFloat (firstSet (env (envPrefix ++ "_ORDER_SIZE")%string) None "100"))
    (parseFloat (firstSet (env (envPrefix ++ "_SPREAD_WIDTH")%string)
                          (env "SPREAD_WIDTH") "10"))
    (parseFloat (firstSet (env (envPrefix ++ "_MAX_PRICE_DEVIATION")%string)
                          (env "MAX_PRICE_DEVIATION") "1.0"))
    None None None None.

Definition loadTickers (env : Env) : list string :=
  if truthy_opt_string (env "TICKERS")
  then split ","%char (default "" (env "TICKERS"))
  else ["BTCUSD"; "ETHUSD"; "SOLUSD"].

(** [parseInt] is the built-in, on the strings that denote an integer. *)
Definition loadConfig (parseFloat : string -> number) (parseInt : string -> Z)
    (env : Env) : MarketMakingConfig.t :=
  let tickers := loadTickers env in
  let assets := map (loadAsset parseFloat env) tickers in
  MarketMakingConfig.mk
    (parseInt (firstSet (env "QUOTE_REFRESH_CYCLE") None "5000"))
    assets.

Record EtherealConfig := mkEtherealConfig {
  localBaseUrl : string;
  apiBaseUrl : string;
  timeout : Z
}.

Definition loadEtherealConfig (parseInt : string -> Z) (env : Env)
  : EtherealConfig :=
  mkEtherealConfig
    (firstSet (env "ETHEREAL_LOCAL_BASE_URL") None "http://127.0.0.1")
    (firstSet (env "ETHEREAL_API_BASE_URL") None "https://api.etherealtest.net/v1")
    (parseInt (firstSet (env "ETHEREAL_TIMEOUT") None "10000")).






End MarketConfig.

(** ** src/services/EtherealService.ts: the positions query *)

Module EtherealService.

(** The URL that [getPositions] requests from the API client; [productIds]
    is optional, and an array, empty or not, is truthy. *)
Definition getPositions (subaccountId : string)
    (productIds : option (list string)) : string :=
  let url := ("/position?subaccountId=" ++ subaccountId ++ "&open=true")%string in
  match productIds with
  | Some productIds =>
      if (0 <? length productIds)%nat
      then
        let productIdsParam :=
          MarketConfig.join "&"
            (map (fun id => ("productIds=" ++ id)%string) productIds) in
        (url ++ "&" ++ productIdsParam)%string
      else url
  | None => url
  end.

End EtherealService.

(** ** src/services/EtherealWebSocketClient.ts

    The callbacks are functions of the caller: the model records that one is
    called, and takes as given whether that call throws; a callback does not
    call back into the client. *)

Module EtherealWebSocketClient.

Inductive StreamType := OrderUpdate | OrderFill.

Inductive WsMessage :=
| ConnectedToWebSocket
| DisconnectedFromWebSocket
| WebSocketConnectionError
| SubscribedTo (type : StreamType) (subaccountId : string)
| UnsubscribedFrom (type : StreamType) (subaccountId : string)
| ErrorInCallback (type : StreamType)
| ReceivedOrderFill.

Section WithCallbacks.
Context {UpdateCallback FillCallback Fill : Type}.

Inductive WsEffect :=
| socket_emit (event : string) (type : StreamType) (subaccountId : string)
| socket_disconnect
| status_call (status : string)
| update_call (callback : UpdateCallback) (data : OrderUpdateEvent.t)
| fill_call (callback : FillCallback) (data : Fill)
| ws_log (m : WsMessage)
| ws_error (m : WsMessage).

Record t := mk {
  socket : bool;
  connectionStatusCallback : bool;
  orderUpdateCallbacks : JSMap.t UpdateCallback;
  orderFillCallbacks : JSMap.t FillCallback;
  isSocketConnected : bool
}.

(** [new EtherealWebSocketClient(config)]. *)
Definition new : t := mk false false [] [] false.

(** [map.delete(k)]. *)
Fixpoint remove {V : Type} (m : JSMap.t V) (k : string) : JSMap.t V :=
  match m with
  | [] => []
  | (k', v) :: m' => if String.eqb k' k then m' else (k', v) :: remove m' k
  end.

Definition onConnectionStatus (self : t) : t :=
  mk (socket self) true (orderUpdateCallbacks self) (orderFillCallbacks self)
     (isSocketConnected self).

(** [connectionStatusCallback?.(status)]. *)
Definition notify (self : t) (status : string) : list WsEffect :=
  if connectionStatusCallback self then [status_call status] else [].

(** [connect()]: the socket is created and its handlers are registered. *)
Definition connect (self : t) : t :=
  mk true (connectionStatusCallback self) (orderUpdateCallbacks self)
     (orderFillCallbacks self) (isSocketConnected self).

(** The handlers of the socket events ['connect'], ['disconnect'] and
    ['connect_error']. *)
Definition on_connect (self : t) : t * list WsEffect :=
  (mk (socket self) (connectionStatusCallback self) (orderUpdateCallbacks self)
      (orderFillCallbacks self) true,
   notify self "connected" ++ [ws_log ConnectedToWebSocket]).

Definition on_disconnect (self : t) : t * list WsEffect :=
  (mk (socket self) (connectionStatusCallback self) (orderUpdateCallbacks self)
      (orderFillCallbacks self) false,
   notify self "disconnected" ++ [ws_log DisconnectedFromWebSocket]).

Definition on_connect_error (self : t) : t * list WsEffect :=
  (mk (socket self) (connectionStatusCallback self) (orderUpdateCallbacks self)
      (orderFillCallbacks self) false,
   notify self "error" ++ [ws_error WebSocketConnectionError]).

Definition disconnect (self : t) : t * list WsEffect :=
  if socket self then
    (mk false (connectionStatusCallback self) [] [] false,
     [socket_disconnect; ws_log DisconnectedFromWebSocket])
  else (self, []).

(** [None] when the method throws ['WebSocket not connected']. *)
Definition subscribeToOrderUpdates (subaccountId : string)
    (callback : UpdateCallback) (self : t) : option (t * list WsEffect) :=
  if negb (socket self) || negb (isSocketConnected self) then None
  else
    Some (mk (socket self) (connectionStatusCallback self)
             (JSMap.set (orderUpdateCallbacks self) subaccountId callback)
             (orderFillCallbacks self) (isSocketConnected self),
          [socket_emit "subscribe" OrderUpdate subaccountId;
           ws_log (SubscribedTo OrderUpdate subaccountId)]).

Definition subscribeToOrderFills (subaccountId : string)
    (callback : FillCallback) (self : t) : option (t * list WsEffect) :=
  if negb (socket self) || negb (isSocketConnected self) then None
  else
    Some (mk (socket self) (connectionStatusCallback self)
             (orderUpdateCallbacks self)
             (JSMap.set (orderFillCallbacks self) subaccountId callback)
             (isSocketConnected self),
          [socket_emit "subscribe" OrderFill subaccountId;
           ws_log (SubscribedTo OrderFill subaccountId)]).

Definition unsubscribeFromOrderUpdates (subaccountId : string) (self : t)
  : t * list WsEffect :=
  let self :=
    mk (socket self) (connectionStatusCallback self)
       (remove (orderUpdateCallbacks self) subaccountId)
       (orderFillCallbacks self) (isSocketConnected self) in
  if socket self && isSocketConnected self then
    (self, [socket_emit "unsubscribe" OrderUpdate subaccountId;
            ws_log (UnsubscribedFrom OrderUpdate subaccountId)])
  else (self, []).

Definition unsubscribeFromOrderFills (subaccountId : string) (self : t)
  : t * list WsEffect :=
  let self :=
    mk (socket self) (connectionStatusCallback self)
       (orderUpdateCallbacks self)
       (remove (orderFillCallbacks self) subaccountId)
       (isSocketConnected self) in
  if socket self && isSocketConnected self then
    (self, [socket_emit "unsubscribe" OrderFill subaccountId;
            ws_log (UnsubscribedFrom OrderFill subaccountId)])
  else (self, []).

Definition isConnected (self : t) : bool := isSocketConnected self.

(** [handleOrderUpdate]: every callback is called inside a [try]; [throws]
    tells whether a call throws. *)
Definition handleOrderUpdate (throws : UpdateCallback -> OrderUpdateEvent.t -> bool)
    (data : OrderUpdateEvent.t) (self : t) : list WsEffect :=
  flat_map (fun '(_, callback) =>
              update_call callback data
              :: (if throws callback data
                  then [ws_error (ErrorInCallback OrderUpdate)] else []))
           (orderUpdateCallbacks self).

Definition handleOrderFill (throws : FillCallback -> Fill -> bool)
    (data : Fill) (self : t) : list WsEffect :=
  ws_log ReceivedOrderFill
  :: flat_map (fun '(_, callback) =>
                 fill_call callback data
                 :: (if throws callback data
                     then [ws_error (ErrorInCallback OrderFill)] else []))
              (orderFillCallbacks self).

(** The calls of order update callbacks among some effects, and the errors
    logged. *)
Definition updateCalls (es : list WsEffect)
  : list (UpdateCallback * OrderUpdateEvent.t) :=
  omap (fun e => match e with
                 | update_call callback data => Some (callback, data)
                 | _ => None
                 end) es.

Definition errorsLogged (es : list WsEffect) : nat :=
  length (List.filter (fun e => match e with ws_error _ => true | _ => false end)
                      es).

End WithCallbacks.
Arguments t : clear implicits.
Arguments WsEffect : clear implicits.
End EtherealWebSocketClient.

(** ** Vocabulary of the further statements *)

Section MoreVocabulary.
Import PriceSnapshotService.

(** What a handler adds to the output: [es] is what was written or requested
    between [p] and [p']. *)
Definition emitted (p p' : Process) (es : list Effect) : Prop :=
  output p' = output p ++ es.

(** The placement requests among some effects. *)
Definition placements (es : list Effect) : list CreateOrderRequest.t :=
  omap (fun e => match e with post_orders request => Some request | _ => None end)
       es.

(** The cancel requests among some effects. *)
Definition cancellations (es : list Effect) : list CancelOrderRequest.t :=
  omap (fun e => match e with
                 | post_orders_cancel request => Some request
                 | _ => None
                 end)
       es.

(** What no handler of the running bot changes: the configurations of the
    instruments, the collaborators, the callback, the refresh cycle and the
    subaccount. *)
Definition wiring (p : Process) :=
  (assetConfigs (this p), deviationCheckService (this p),
   etherealService (this p), snapshotCallback (this p),
   quoteRefreshCycle (this p), ETHEREAL_SUBACCOUNT p).

(** The latest prices and the histories, which only the price feed and the
    refresh timer change. *)
Definition feed (p : Process) := (latestPrices (this p), snapshots (this p)).

Definition backdrop (p : Process) := (wiring p, feed p).

(** The history that a tick stores for an instrument: the snapshot is
    appended and the last hundred are kept. *)
Definition extended (history : list PriceSnapshot.t) (snapshot : PriceSnapshot.t)
  : list PriceSnapshot.t :=
  let history := history ++ [snapshot] in
  if (100 <? length history)%nat then slice_last 100 history else history.

(** No history is longer than a hundred snapshots. *)
Definition capped (histories : JSMap.t (list PriceSnapshot.t)) : Prop :=
  forall ticker history, In (ticker, history) histories ->
                         (length history <= 100)%nat.

(** No history is kept under a name of [Object.prototype]. *)
Definition ownKeysOrdinary (histories : JSMap.t (list PriceSnapshot.t)) : Prop :=
  forall ticker history, In (ticker, history) histories -> inherited ticker = false.

(** The prices have distinct instruments, the histories are capped and none
    is kept under a name of [Object.prototype]. *)
Definition orderly (p : Process) : Prop :=
  NoDup (JSMap.keys (latestPrices (this p)))
  /\ capped (snapshots (this p))
  /\ ownKeysOrdinary (snapshots (this p)).

(** Every lock that is held belongs to a suspended call: the placement lock
    of an instrument to a suspended placement round, the key of a cancel to a
    suspended deviation cancel. *)
Definition ownedBy (creation cancellation : gset string) (frames : list Frame)
  : Prop :=
  (forall ticker, ticker ∈ creation -> ticker ∈ omap placementTicker frames)
  /\ (forall key, key ∈ cancellation -> key ∈ omap cancelKey frames).

Definition locksAreOwned (p : Process) : Prop :=
  ownedBy (orderCreationInProgress (this p))
          (orderCancellationInProgress (this p)) (pending p).

(** A request as the configuration wants it: a placement is a LIMIT GTD
    order for a configured instrument, with the configured order size, a side
    of 0 or 1 and a price; a cancel names the configured subaccount and at
    least one order. *)
Definition properRequest (configs : JSMap.t AssetConfig.t)
    (subaccount : option string) (e : Effect) : Prop :=
  match e with
  | post_orders request =>
      exists config,
        JSMap.get configs (CreateOrderRequest.ticker request) = Some config
        /\ CreateOrderRequest.quantity request = AssetConfig.orderSize config
        /\ CreateOrderRequest.order_type request = LIMIT
        /\ CreateOrderRequest.time_in_force request = GTD
        /\ (CreateOrderRequest.side request = 0%Z
            \/ CreateOrderRequest.side request = 1%Z)
        /\ CreateOrderRequest.price request <> None
  | post_orders_cancel request =>
      subaccount = Some (CancelOrderRequest.subaccount request)
      /\ CancelOrderRequest.subaccount request <> ""
      /\ CancelOrderRequest.order_ids request <> []
  | _ => True
  end.

(** A suspended placement round carries the configuration of its
    instrument. *)
Definition configuredFrame (configs : JSMap.t AssetConfig.t) (f : Frame) : Prop :=
  match f with
  | AwaitPlaceBid ticker _ config _ _ => JSMap.get configs ticker = Some config
  | _ => True
  end.

(** A handler that adds to the output only effects with the property [P]. *)
Definition adds (P : Effect -> Prop) (p p' : Process) : Prop :=
  exists es, output p' = output p ++ es /\ Forall P es.

(** An effect that is neither a placement nor a cancel. *)
Definition noOrderRequest (e : Effect) : Prop :=
  match e with
  | post_orders _ | post_orders_cancel _ => False
  | _ => True
  end.

(** The configurations as [setAssetConfig] stores them one after the other. *)
Definition configsOf (assets : list AssetConfig.t) : JSMap.t AssetConfig.t :=
  fold_left (fun m asset => JSMap.set m (AssetConfig.ticker asset) asset)
            assets [].

(** The proper requests of a process, by its configuration and subaccount. *)
Definition properOf (p : Process) : Effect -> Prop :=
  properRequest (assetConfigs (this p)) (ETHEREAL_SUBACCOUNT p).

(** The invariant of the requests. *)
Definition requestsAreProper (p : Process) : Prop :=
  Forall (properOf p) (output p)
  /\ Forall (configuredFrame (assetConfigs (this p))) (pending p).

End MoreVocabulary.

(** * Properties *)

(** ** Comparisons on numbers *)

Lemma gtb_true (a b : number) : gtb a b = true <-> (b < a)%Q.
Proof.
  unfold gtb. rewrite negb_true_iff, <- not_true_iff_false, Qle_bool_iff.
  split; [apply Qnot_le_lt | apply Qlt_not_le].
Qed.

Lemma gtb_false (a b : number) : gtb a b = false <-> (a <= b)%Q.
Proof. unfold gtb. rewrite negb_false_iff. apply Qle_bool_iff. Qed.

Lemma gtb_proper (a a' b b' : number) :
  (a == a')%Q -> (b == b')%Q -> gtb a b = gtb a' b'.
Proof.
  intros Ha Hb. destruct (gtb a' b') eqn:E.
  - apply gtb_true in E. apply gtb_true. now rewrite Ha, Hb.
  - apply gtb_false in E. apply gtb_false. now rewrite Ha, Hb.
Qed.

Lemma is_string_true (s : option string) (lit : string) :
  is_string s lit = true <-> s = Some lit.
Proof.
  destruct s as [x|]; simpl.
  - rewrite String.eqb_eq. split; congruence.
  - split; discriminate.
Qed.

(** ** The risk check of the engine (DeviationCheckService.checkOrdersAndPositions) *)

Section RiskCheck.
Import DeviationCheckService.
Local Open Scope Q_scope.

(** The deviation test of the risk check reads the market state through
    [midPrice] and [maxDeviationPrice] only. *)
Lemma deviation_test_proper (m1 m2 : MarketState.t) (x : number) :
  MarketState.midPrice m1 == MarketState.midPrice m2 ->
  MarketState.maxDeviationPrice m1 == MarketState.maxDeviationPrice m2 ->
  gtb (PriceUtils.calculatePriceDeviation x (MarketState.midPrice m1))
      (MarketState.maxDeviationPrice m1)
  = gtb (PriceUtils.calculatePriceDeviation x (MarketState.midPrice m2))
        (MarketState.maxDeviationPrice m2).
Proof.
  intros Hmid Hthr. apply gtb_proper; [|exact Hthr].
  unfold PriceUtils.calculatePriceDeviation. now rewrite Hmid.
Qed.

Ltac same_checks tradingPair Hg :=
  unfold checkOrdersAndPositions;
  destruct (TradingPair.bidOrder tradingPair) as [?b|],
           (TradingPair.askOrder tradingPair) as [?a|],
           (TradingPair.longPosition tradingPair) as [?l|],
           (TradingPair.shortPosition tradingPair) as [?s|];
  cbn zeta; rewrite ?Hg; reflexivity.

(** C10. Two market states that agree on [midPrice] and on
    [maxDeviationPrice] give the same result of the risk check, whatever
    their [bidPrice], [askPrice], [ticker] and [timestamp]. *)
Theorem C10_checks_ignore_projection_prices (tradingPair : TradingPair.t)
    (m1 m2 : MarketState.t) :
  MarketState.midPrice m1 == MarketState.midPrice m2 ->
  MarketState.maxDeviationPrice m1 == MarketState.maxDeviationPrice m2 ->
  checkOrdersAndPositions tradingPair m1 = checkOrdersAndPositions tradingPair m2.
Proof.
  intros Hmid Hthr.
  assert (Hg := fun x => deviation_test_proper m1 m2 x Hmid Hthr).
  same_checks tradingPair Hg.
Qed.

(** In the engine the market state comes from [calculateMarketState]: the
    configured spread, the ticker and the clock do not reach the decision. *)
Lemma checks_ignore_spread_configuration (tradingPair : TradingPair.t)
    (s1 s2 : DeviationCheckService.t) (now1 now2 : Z) (ticker1 ticker2 : string)
    (currentPrice maxDeviation : number) :
  checkOrdersAndPositions tradingPair
    (calculateMarketState s1 now1 ticker1 currentPrice maxDeviation)
  = checkOrdersAndPositions tradingPair
      (calculateMarketState s2 now2 ticker2 currentPrice maxDeviation).
Proof.
  assert (Hg := fun x =>
            deviation_test_proper
              (calculateMarketState s1 now1 ticker1 currentPrice maxDeviation)
              (calculateMarketState s2 now2 ticker2 currentPrice maxDeviation)
              x (Qeq_refl _) (Qeq_refl _)).
  same_checks tradingPair Hg.
Qed.

End RiskCheck.

(** ** The risk check in binary64 *)

Section RiskCheckBinary64.
Import Binary64 Binary64.PriceUtils Binary64.DeviationCheckService.

(** Equality of numbers is symmetric, and excludes [>]. *)
Lemma compare_Eq_sym (a b : Binary64.number) :
  SpecFloat.SFcompare a b = Some Eq -> SpecFloat.SFcompare b a = Some Eq.
Proof.
  destruct a as [sa|sa| |sa ma ea], b as [sb|sb| |sb mb eb]; simpl;
    try discriminate; try reflexivity;
    try (destruct sa; discriminate); try (destruct sb; discriminate).
  - destruct sa, sb; try discriminate; reflexivity.
  - destruct sa, sb; try discriminate;
      destruct (ea ?= eb)%Z eqn:He; try discriminate;
      apply Z.compare_eq in He; subst eb; rewrite Z.compare_refl;
      intros Hm;
      assert (Hm' : (ma ?= mb)%positive = Eq)
        by (injection Hm as Hm; unfold Pos.compare;
            destruct (Pos.compare_cont Eq ma mb); simpl in Hm;
            congruence);
      apply Pos.compare_eq in Hm'; subst mb;
      change (Pos.compare_cont Eq ma ma) with (ma ?= ma)%positive;
      now rewrite Pos.compare_refl.
Qed.

Lemma eqb_not_gtb (a b : Binary64.number) :
  Binary64.eqb a b = true -> Binary64.gtb a b = false.
Proof.
  unfold Binary64.eqb, Binary64.gtb, SpecFloat.SFeqb, SpecFloat.SFltb.
  destruct (SpecFloat.SFcompare a b) as [[| |]|] eqn:E; try discriminate.
  intros _. now rewrite (compare_Eq_sym a b E).
Qed.

(** The flag computed for one order slot. *)
Lemma slot_flag_binary64 (slot : option Order.t) (mid threshold : Binary64.number) :
  match slot with
  | Some o =>
      if is_string (Order.status o) "NEW" then
        if Binary64.gtb (calculatePriceDeviation (Order.price o) mid) threshold
        then true else false
      else false
  | None => false
  end = true
  <-> exists o, slot = Some o /\ Order.status o = Some "NEW"
                /\ Binary64.gtb (calculatePriceDeviation (Order.price o) mid)
                                threshold = true.
Proof.
  split.
  - destruct slot as [o|]; [|discriminate].
    destruct (is_string (Order.status o) "NEW") eqn:Hs; [|discriminate].
    destruct (Binary64.gtb _ _) eqn:Hg; [|discriminate].
    intros _. exists o. repeat split; [now apply is_string_true|exact Hg].
  - intros (o & -> & Hs & Hd).
    apply is_string_true in Hs. now rewrite Hs, Hd.
Qed.

(** The test on one position. *)
Lemma position_flag_binary64 (slot : option Position.t)
    (mid threshold : Binary64.number) (flag : bool) :
  match slot with
  | Some position =>
      if Binary64.gtb (calculatePriceDeviation (Position.entryPrice position) mid)
                      threshold
      then true else flag
  | None => flag
  end = true
  <-> flag = true
      \/ exists position,
           slot = Some position
           /\ Binary64.gtb (calculatePriceDeviation (Position.entryPrice position) mid)
                           threshold = true.
Proof.
  destruct slot as [position|].
  - destruct (Binary64.gtb _ _) eqn:Hg.
    + split; [|reflexivity]. intros _. right. now exists position.
    + split; [now left|].
      intros [H|(x & [= <-] & Hx)]; [exact H|congruence].
  - split; [now left|]. now intros [H|(x & [=] & _)].
Qed.

(** C2. The risk check flags the bid for cancellation exactly when a bid
    order is present, its status is ['NEW'] and its distance to the mid
    price, [Math.abs(price - midPrice)] as the code computes it in binary64,
    is strictly greater than the threshold; the same holds for the ask; an
    order whose computed distance equals the threshold is not flagged. *)
Theorem C2_cancel_flag_iff_new_and_strictly_beyond
    (tradingPair : TradingPair.t) (marketState : MarketState.t) :
  let checks := checkOrdersAndPositions tradingPair marketState in
  let mid := MarketState.midPrice marketState in
  let threshold := MarketState.maxDeviationPrice marketState in
  let distance price := Binary64.Math_abs (Binary64.sub price mid) in
  (shouldCancelBid checks = true
   <-> exists bid, TradingPair.bidOrder tradingPair = Some bid
                   /\ Order.status bid = Some "NEW"
                   /\ Binary64.gtb (distance (Order.price bid)) threshold = true)
  /\ (shouldCancelAsk checks = true
      <-> exists ask, TradingPair.askOrder tradingPair = Some ask
                      /\ Order.status ask = Some "NEW"
                      /\ Binary64.gtb (distance (Order.price ask)) threshold = true)
  /\ (forall bid, TradingPair.bidOrder tradingPair = Some bid ->
                  Binary64.eqb (distance (Order.price bid)) threshold = true ->
                  shouldCancelBid checks = false)
  /\ (forall ask, TradingPair.askOrder tradingPair = Some ask ->
                  Binary64.eqb (distance (Order.price ask)) threshold = true ->
                  shouldCancelAsk checks = false).
Proof.
  intros checks mid threshold distance.
  assert (Hbid := slot_flag_binary64 (TradingPair.bidOrder tradingPair) mid threshold).
  assert (Hask := slot_flag_binary64 (TradingPair.askOrder tradingPair) mid threshold).
  repeat split.
  - apply Hbid.
  - apply Hbid.
  - apply Hask.
  - apply Hask.
  - intros bid Hb Heq. apply not_true_is_false. intros Hflag.
    apply Hbid in Hflag. destruct Hflag as (o & Ho & _ & Hgt).
    rewrite Hb in Ho. injection Ho as <-.
    apply eqb_not_gtb in Heq. unfold distance in Heq.
    unfold calculatePriceDeviation in Hgt. congruence.
  - intros ask Ha Heq. apply not_true_is_false. intros Hflag.
    apply Hask in Hflag. destruct Hflag as (o & Ho & _ & Hgt).
    rewrite Ha in Ho. injection Ho as <-.
    apply eqb_not_gtb in Heq. unfold distance in Heq.
    unfold calculatePriceDeviation in Hgt. congruence.
Qed.

(** Rounding decides: the decimals 0.0679 and 0.07 are exactly 0.0021 apart,
    but the distance that the code computes is above the number 0.0021, and
    the bid is flagged; and 10000000000000002 is further than 1e16 from 1,
    but the computed distance is 1e16, and the bid is not flagged. *)
Lemma rounding_decides_the_flag :
  shouldCancelBid
    (checkOrdersAndPositions
       (bidAt (Binary64.decimal 679 4))
       (MarketState.mk "BTCUSD" (Binary64.decimal 7 2) (Binary64.decimal 7 2)
          (Binary64.decimal 7 2) (Binary64.decimal 21 4) 0))
  = true
  /\ shouldCancelBid
       (checkOrdersAndPositions
          (bidAt (Binary64.literal 10000000000000002))
          (MarketState.mk "BTCUSD" (Binary64.literal 1) (Binary64.literal 1)
             (Binary64.literal 1) (Binary64.literal 10000000000000000) 0))
     = false.
Proof. split; vm_compute; reflexivity. Qed.

(** X7. The risk check asks to close positions exactly when the entry price
    of the long position or of the short position is, as the code computes
    the distance in binary64, strictly further from the mid price than the
    threshold; the orders in the slots play no part, and a pair without
    positions is never flagged. *)
Theorem shouldClosePositions_iff_position_beyond_threshold
    (tradingPair : TradingPair.t) (marketState : MarketState.t) :
  let mid := MarketState.midPrice marketState in
  let threshold := MarketState.maxDeviationPrice marketState in
  let distance price := Binary64.Math_abs (Binary64.sub price mid) in
  (shouldClosePositions (checkOrdersAndPositions tradingPair marketState) = true
   <-> (exists long, TradingPair.longPosition tradingPair = Some long
                     /\ Binary64.gtb (distance (Position.entryPrice long))
                                     threshold = true)
       \/ (exists short, TradingPair.shortPosition tradingPair = Some short
                         /\ Binary64.gtb (distance (Position.entryPrice short))
                                         threshold = true))
  /\ (forall bid ask,
         shouldClosePositions
           (checkOrdersAndPositions
              (TradingPair.mk (TradingPair.ticker tradingPair) bid ask
                 (TradingPair.longPosition tradingPair)
                 (TradingPair.shortPosition tradingPair))
              marketState)
         = shouldClosePositions (checkOrdersAndPositions tradingPair marketState))
  /\ (TradingPair.longPosition tradingPair = None ->
      TradingPair.shortPosition tradingPair = None ->
      shouldClosePositions (checkOrdersAndPositions tradingPair marketState)
      = false).
Proof.
  intros mid threshold distance. split; [|split].
  - unfold checkOrdersAndPositions. cbn [shouldClosePositions].
    rewrite position_flag_binary64, position_flag_binary64.
    fold mid threshold. unfold calculatePriceDeviation, distance.
    split.
    + intros [[Hf|Hlong]|Hshort]; [discriminate|now left|now right].
    + intros [Hlong|Hshort]; [left; now right|now right].
  - intros bid ask. reflexivity.
  - intros Hlong Hshort. unfold checkOrdersAndPositions.
    cbn [shouldClosePositions]. now rewrite Hlong, Hshort.
Qed.

(** X8. From the configuration to the flag: with the market state that the
    service computes for a mid price and a maximum deviation in percent, an
    order is flagged exactly when it is present, ['NEW'], and its computed
    distance to the mid price exceeds the computed threshold
    [mid * (maxDeviation / 100)]; the configuration of the service, the
    ticker and the clock play no part. *)
Theorem risk_pass_flags_by_percentage (service : DeviationCheckService.t)
    (now : Z) (ticker : string) (mid maxDeviation : Binary64.number)
    (tradingPair : TradingPair.t) :
  let checks :=
    checkOrdersAndPositions tradingPair
      (calculateMarketState service now ticker mid maxDeviation) in
  let threshold :=
    Binary64.mul mid (Binary64.div maxDeviation (Binary64.literal 100)) in
  let distance price := Binary64.Math_abs (Binary64.sub price mid) in
  (shouldCancelBid checks = true
   <-> exists bid, TradingPair.bidOrder tradingPair = Some bid
                   /\ Order.status bid = Some "NEW"
                   /\ Binary64.gtb (distance (Order.price bid)) threshold = true)
  /\ (shouldCancelAsk checks = true
      <-> exists ask, TradingPair.askOrder tradingPair = Some ask
                      /\ Order.status ask = Some "NEW"
                      /\ Binary64.gtb (distance (Order.price ask)) threshold = true)
  /\ (forall service' now' ticker',
         checkOrdersAndPositions tradingPair
           (calculateMarketState service' now' ticker' mid maxDeviation)
         = checks).
Proof.
  intros checks threshold distance. subst checks.
  unfold checkOrdersAndPositions, calculateMarketState.
  cbn [shouldCancelBid shouldCancelAsk MarketState.midPrice
       MarketState.maxDeviationPrice].
  rewrite !slot_flag_binary64. repeat split; intros H; exact H.
Qed.

(** The service at the example of the rounding: a bid at 0.0679 under a mid
    price of 0.07 and a maximum deviation of 3 percent is flagged, the
    threshold being computed as 0.0021000000000000003 and the distance as
    0.0021000000000000046. *)
Lemma risk_pass_flags_at_the_rounded_threshold :
  shouldCancelBid
    (checkOrdersAndPositions
       (bidAt (Binary64.decimal 679 4))
       (calculateMarketState (DeviationCheckService.mk (MarketMakingConfig.mk 5000 []))
          0 "BTCUSD" (Binary64.decimal 7 2) (Binary64.literal 3)))
  = true.
Proof. vm_compute. reflexivity. Qed.

End RiskCheckBinary64.

(** ** Quote arithmetic (priceUtils.ts) and the two spread formulas *)

Section QuoteMath.
Import PriceUtils.
Local Open Scope Q_scope.





(** For a negative mid price the order is the opposite one: this is why the
    amended statement asks for [0 <= mid]. *)
Lemma targets_swap_for_negative_mid (mid spread_bp : number) :
  mid < 0 -> 0 < spread_bp ->
  calculateAskPrice mid spread_bp < mid /\ mid < calculateBidPrice mid spread_bp.
Proof.
  intros Hm Hs.
  unfold calculateBidPrice, calculateAskPrice, basisPointsToDecimal. cbn zeta.
  assert (Hx : mid * (spread_bp / 10000) < 0).
  { assert (H1 : 0 < (- mid) * (spread_bp / 10000)).
    { apply Qmult_lt_0_compat; [lra|].
      unfold Qdiv. apply Qmult_lt_0_compat; [exact Hs|reflexivity]. }
    lra. }
  split; lra.
Qed.






End QuoteMath.

(** ** Maps in insertion order *)

Section JSMapFacts.
Context {V : Type}.
Implicit Types (m : JSMap.t V) (k : string) (v : V).

Lemma get_set_same m k v : JSMap.get (JSMap.set m k v) k = Some v.
Proof.
  induction m as [|[k' v'] m IH]; simpl.
  - now rewrite String.eqb_refl.
  - destruct (String.eqb k' k) eqn:E; simpl.
    + now rewrite String.eqb_refl.
    + now rewrite E.
Qed.

Lemma get_set_other m k k' v :
  k' <> k -> JSMap.get (JSMap.set m k v) k' = JSMap.get m k'.
Proof.
  intros Hne. induction m as [|[k0 v0] m IH]; simpl.
  - destruct (String.eqb k k') eqn:E; [|reflexivity].
    apply String.eqb_eq in E. congruence.
  - destruct (String.eqb k0 k) eqn:E; simpl.
    + apply String.eqb_eq in E. subst k0.
      destruct (String.eqb k k') eqn:E'; [|reflexivity].
      apply String.eqb_eq in E'. congruence.
    + now rewrite IH.
Qed.

Lemma get_In m k v : JSMap.get m k = Some v -> In (k, v) m.
Proof.
  induction m as [|[k' v'] m IH]; simpl; [discriminate|].
  destruct (String.eqb k' k) eqn:E.
  - apply String.eqb_eq in E. intros [= ->]. left. now subst.
  - intros H. right. now apply IH.
Qed.

(** An entry of the map after [set] was there before or is the one set. *)
Lemma In_set m k v k' v' :
  In (k', v') (JSMap.set m k v) -> In (k', v') m \/ (k' = k /\ v' = v).
Proof.
  induction m as [|[k0 v0] m IH]; simpl.
  - intros [[= <- <-]|[]]. now right.
  - destruct (String.eqb k0 k) eqn:E; simpl.
    + intros [[= <- <-]|H]; [now right|left; now right].
    + intros [H|H]; [left; now left|].
      destruct (IH H) as [H'|H']; [left; now right|now right].
Qed.

End JSMapFacts.

(** ** The orders in the slots *)

Section SlotOrders.
Import PriceSnapshotService.

Lemma In_slotOrders (pairs : JSMap.t TradingPair.t) (o : Order.t) :
  In o (slotOrders pairs)
  <-> exists ticker tradingPair,
        In (ticker, tradingPair) pairs
        /\ (TradingPair.bidOrder tradingPair = Some o
            \/ TradingPair.askOrder tradingPair = Some o).
Proof.
  unfold slotOrders. rewrite in_flat_map. split.
  - intros ([ticker tradingPair] & Hin & Ho).
    exists ticker, tradingPair. split; [exact Hin|].
    apply in_app_or in Ho. destruct Ho as [Ho|Ho]; [left|right];
      destruct (TradingPair.bidOrder tradingPair),
               (TradingPair.askOrder tradingPair);
      simpl in Ho; intuition congruence.
  - intros (ticker & tradingPair & Hin & Ho).
    exists (ticker, tradingPair). split; [exact Hin|].
    apply in_or_app. destruct Ho as [-> | ->]; [left|right]; now left.
Qed.



End SlotOrders.

(** ** Reconciliation (updateOrderStatus) *)

Section Reconciliation.
Import PriceSnapshotService.



Lemma terminal_status (status : string) :
  String.eqb status "CANCELED" || String.eqb status "EXPIRED" = true
  <-> status = "CANCELED" \/ status = "EXPIRED".
Proof. now rewrite orb_true_iff, !String.eqb_eq. Qed.

Lemma not_terminal_status (status : string) :
  String.eqb status "CANCELED" || String.eqb status "EXPIRED" = false
  <-> status <> "CANCELED" /\ status <> "EXPIRED".
Proof. now rewrite orb_false_iff, !String.eqb_neq. Qed.

(** The two checks of the loop body on a slot. *)
Lemma slot_not_held (orderId : string) (slot : option Order.t) :
  ~ slotHolds orderId slot ->
  match slot with
  | Some o => String.eqb (Order.id o) orderId = false
  | None => True
  end.
Proof.
  destruct slot as [o|]; [|trivial]. intros H.
  apply String.eqb_neq. intros E. apply H. now exists o.
Qed.

(** One pass of the loop body: the flag tells whether the pair holds the
    order, and each slot is reconciled. *)
Lemma updateOrderStatus_entry_spec (ticker orderId status : string)
    (tradingPair : TradingPair.t) :
  let '(tradingPair', orderUpdated, _) :=
    updateOrderStatus_entry ticker orderId status tradingPair in
  (orderUpdated = true <-> pairHolds orderId tradingPair)
  /\ Reconciled orderId status (TradingPair.bidOrder tradingPair)
                (TradingPair.bidOrder tradingPair')
  /\ Reconciled orderId status (TradingPair.askOrder tradingPair)
                (TradingPair.askOrder tradingPair')
  /\ TradingPair.ticker tradingPair' = TradingPair.ticker tradingPair
  /\ TradingPair.longPosition tradingPair' = TradingPair.longPosition tradingPair
  /\ TradingPair.shortPosition tradingPair' = TradingPair.shortPosition tradingPair.
Proof.
  unfold updateOrderStatus_entry, pairHolds.
  destruct tradingPair as [t bid ask lp sp]. simpl.
  set (terminal := String.eqb status "CANCELED" || String.eqb status "EXPIRED").
  assert (Hslot : forall slot : option Order.t,
             Reconciled orderId status slot
               match slot with
               | Some o =>
                   if String.eqb (Order.id o) orderId
                   then if terminal then None
                        else Some (Order.set_status o (Some status))
                   else slot
               | None => None
               end).
  { intros [o|]; [|apply Reconciled_untouched; intros (o & [=] & _)].
    destruct (String.eqb (Order.id o) orderId) eqn:E.
    - apply String.eqb_eq in E. destruct terminal eqn:Ht.
      + apply Reconciled_removed; [exact E|now apply terminal_status].
      + apply not_terminal_status in Ht. now apply Reconciled_status.
    - apply String.eqb_neq in E. apply Reconciled_untouched.
      intros (o' & [= <-] & Hid). contradiction. }
  assert (Hheld : forall slot : option Order.t,
             match slot with
             | Some o => String.eqb (Order.id o) orderId
             | None => false
             end = true <-> slotHolds orderId slot).
  { intros [o|]; split.
    - intros E. apply String.eqb_eq in E. now exists o.
    - intros (o' & [= <-] & Hid). now apply String.eqb_eq.
    - discriminate.
    - intros (o' & [=] & _). }
  specialize (Hslot bid) as Hb. specialize (Hslot ask) as Ha.
  specialize (Hheld bid) as Hhb. specialize (Hheld ask) as Hha.
  destruct bid as [b|], ask as [a|]; simpl in *;
    destruct terminal; simpl in *;
    try destruct (String.eqb (Order.id b) orderId); simpl in *;
    try destruct (String.eqb (Order.id a) orderId); simpl in *;
    (split; [clear - Hhb Hha; intuition congruence|]);
    repeat split; assumption.
Qed.





End Reconciliation.

(** ** Shutdown (getAllActiveOrders, cancelAllActiveOrders) *)

Section Shutdown.
Import PriceSnapshotService.

Lemma cancellable_true (o : Order.t) :
  cancellable o = true
  <-> startsWith (Order.id o) "position-" = false
      /\ (Order.status o = Some "NEW"
          \/ truthy_opt_string (Order.status o) = false).
Proof.
  unfold cancellable.
  now rewrite andb_true_iff, orb_true_iff, !negb_true_iff, is_string_true.
Qed.

(** The ids that [getAllActiveOrders] returns are those of the cancellable
    orders in the slots, one entry for each such slot, in the order of the
    slots. *)
Lemma getAllActiveOrders_ids (p : Process) :
  map ao_orderId (getAllActiveOrders p)
  = map Order.id (List.filter cancellable (slotOrders (tradingPairs (this p)))).
Proof.
  unfold getAllActiveOrders, slotOrders.
  induction (tradingPairs (this p)) as [|[ticker tradingPair] rest IH]; simpl.
  - reflexivity.
  - rewrite !map_app, !List.filter_app, !map_app, IH. f_equal.
    unfold cancellable.
    destruct (TradingPair.bidOrder tradingPair) as [b|],
             (TradingPair.askOrder tradingPair) as [a|]; simpl;
      rewrite ?(andb_comm (negb (startsWith _ _)));
      repeat match goal with
        | |- context [if ?c then _ else _] => destruct c
        end; reflexivity.
Qed.

(** The number of slots that hold a cancellable order with a given id. *)
Lemma count_occ_live_slots (id : string) (orders : list Order.t) :
  count_occ String.string_dec (map Order.id (List.filter cancellable orders)) id
  = length (List.filter
              (fun o => cancellable o && String.eqb (Order.id o) id) orders).
Proof.
  induction orders as [|o orders IH]; [reflexivity|].
  cbn [List.filter]. destruct (cancellable o); cbn [andb map count_occ].
  - destruct (String.string_dec (Order.id o) id) as [E|E].
    + apply String.eqb_eq in E. rewrite E. cbn [length]. now rewrite IH.
    + apply String.eqb_neq in E. now rewrite E.
  - exact IH.
Qed.

(** C1 as stated fails: the bulk cancel has one entry for each slot, and an
    id that both slots of an instrument hold is listed twice. *)
Lemma C1_same_id_listed_twice_counterexample :
  snd (cancelAllActiveOrders sameIdInBothSlots)
  = Some (AwaitCancelAll ["X"; "X"])
  /\ ~ NoDup ["X"; "X"].
Proof.
  split; [reflexivity|].
  intros H. apply NoDup_cons in H. destruct H as [H _].
  apply H. now left.
Qed.

(** C1, amended. When [cancelAllActiveOrders] makes its request, it makes
    one request, a cancel for the configured subaccount, whose [order_ids]
    are the ids of the orders held in a bid or ask slot of some instrument
    whose id does not start with [position-] and whose status is ['NEW'] or
    missing: one entry for each such slot, in the order of the slots, and
    nothing else.  An id is listed as many times as there are slots that
    hold it with such an order. *)
Theorem C1_bulk_cancel_lists_the_live_orders (p p' : Process) (frame : Frame) :
  cancelAllActiveOrders p = (p', Some frame) ->
  exists subaccount orderIds,
    ETHEREAL_SUBACCOUNT p = Some subaccount
    /\ frame = AwaitCancelAll orderIds
    /\ output p'
       = output p
         ++ [console_log (CancellingActiveOrders (length orderIds));
             post_orders_cancel (CancelOrderRequest.mk orderIds subaccount)]
    /\ orderIds
       = map Order.id
           (List.filter cancellable (slotOrders (tradingPairs (this p))))
    /\ (forall id,
          In id orderIds
          <-> exists ticker tradingPair o,
                In (ticker, tradingPair) (tradingPairs (this p))
                /\ (TradingPair.bidOrder tradingPair = Some o
                    \/ TradingPair.askOrder tradingPair = Some o)
                /\ Order.id o = id
                /\ startsWith id "position-" = false
                /\ (Order.status o = Some "NEW"
                    \/ truthy_opt_string (Order.status o) = false))
    /\ (forall id,
          count_occ String.string_dec orderIds id
          = length (List.filter
                      (fun o => cancellable o && String.eqb (Order.id o) id)
                      (slotOrders (tradingPairs (this p))))).
Proof.
  unfold cancelAllActiveOrders. intros Hcall.
  assert (Hids := getAllActiveOrders_ids p).
  destruct (getAllActiveOrders p) as [|active actives] eqn:Hactive;
    [discriminate|].
  destruct p as [self sub out pend ex]. simpl in *.
  destruct sub as [subaccount|]; [|discriminate].
  destruct (truthy_string subaccount); [|discriminate].
  simpl in Hcall. destruct (etherealService self); [|discriminate].
  injection Hcall as <- <-.
  exists subaccount, (ao_orderId active :: map ao_orderId actives).
  split; [reflexivity|]. split; [reflexivity|]. split.
  { simpl. rewrite <- app_assoc. simpl. now rewrite length_map. }
  split; [exact Hids|].
  simpl in Hids. rewrite Hids.
  split; [|intros id; apply count_occ_live_slots].
  intros id. rewrite in_map_iff. split.
  - intros (o & Hid & Ho). apply filter_In in Ho. destruct Ho as [Hin Hc].
    apply In_slotOrders in Hin. destruct Hin as (ticker & tradingPair & Hin & Hs).
    apply cancellable_true in Hc. rewrite Hid in Hc.
    exists ticker, tradingPair, o. tauto.
  - intros (ticker & tradingPair & o & Hin & Hs & Hid & Hprefix & Hstatus).
    exists o. split; [exact Hid|]. apply filter_In. split.
    + apply In_slotOrders. now exists ticker, tradingPair.
    + apply cancellable_true. rewrite Hid. tauto.
Qed.

Lemma clearAllOrders_empty (pairs : JSMap.t TradingPair.t) :
  allSlotsEmpty (clearAllOrders pairs).
Proof.
  intros ticker tradingPair Hin. unfold clearAllOrders in Hin.
  apply in_map_iff in Hin. destruct Hin as ([k x] & [= <- <-] & _).
  split; reflexivity.
Qed.

(** C4 as stated fails: with a filled bid as the only order there is nothing
    to cancel, the procedure returns at once, and the bid slot is as full as
    before. *)
Lemma C4_filled_slot_survives_counterexample :
  exists p',
    cancelAllActiveOrders filledBidOnly = (p', None)
    /\ tradingPairs (this p') = tradingPairs (this filledBidOnly)
    /\ ~ allSlotsEmpty (tradingPairs (this p')).
Proof.
  eexists. split; [reflexivity|]. split; [reflexivity|].
  intros Hempty.
  destruct (Hempty "BTCUSD" _ (or_introl eq_refl)) as [Hbid _].
  discriminate Hbid.
Qed.

(** C4, amended. Whenever the cancel-all procedure makes the bulk cancel
    request, both lock sets are empty at that point, whatever they held, and
    the slots are still untouched; when the request succeeds every bid and ask
    slot is empty once the procedure has returned, and when it fails the slots
    are kept.  When the subaccount is absent and there is an order to cancel,
    an error is logged and no request is made; when there is no order to
    cancel the procedure returns at once, without a request and without
    touching the locks or the slots. *)
Theorem C4_cancel_all_locks_slots_and_subaccount (p : Process) :
  (forall p' frame,
      cancelAllActiveOrders p = (p', Some frame) ->
      orderCreationInProgress (this p') = ∅
      /\ orderCancellationInProgress (this p') = ∅
      /\ tradingPairs (this p') = tradingPairs (this p)
      /\ exists request,
           output p'
           = output p
             ++ [console_log (CancellingActiveOrders
                                (length (getAllActiveOrders p)));
                 post_orders_cancel request])
  /\ (forall orderIds order_id,
        allSlotsEmpty
          (tradingPairs
             (this (cancelAllActiveOrders_resume orderIds (Resolved order_id) p))))
  /\ (forall orderIds,
        tradingPairs (this (cancelAllActiveOrders_resume orderIds Rejected p))
        = tradingPairs (this p))
  /\ (truthy_opt_string (ETHEREAL_SUBACCOUNT p) = false ->
      getAllActiveOrders p <> [] ->
      cancelAllActiveOrders p
      = (emits [console_log (CancellingActiveOrders
                               (length (getAllActiveOrders p)));
                console_error SubaccountNotSetCannotCancelOrders] p,
         None))
  /\ (getAllActiveOrders p = [] ->
      cancelAllActiveOrders p = (emit (console_log NoActiveOrders) p, None)).
Proof.
  split; [|split; [|split; [|split]]].
  - intros p' frame. unfold cancelAllActiveOrders.
    destruct (getAllActiveOrders p) as [|active actives]; [discriminate|].
    destruct p as [self sub out pend ex]. simpl.
    destruct sub as [subaccount|]; [|discriminate].
    destruct (truthy_string subaccount); [|discriminate].
    simpl. destruct (etherealService self); [|discriminate].
    intros [= <- <-]. simpl. repeat split.
    eexists. rewrite <- app_assoc. reflexivity.
  - intros orderIds order_id. simpl. apply clearAllOrders_empty.
  - intros orderIds. reflexivity.
  - intros Hsub Hactive. unfold cancelAllActiveOrders.
    destruct (getAllActiveOrders p) as [|active actives]; [contradiction|].
    destruct p as [self sub out pend ex]. simpl in *.
    destruct sub as [subaccount|]; simpl in Hsub.
    + rewrite Hsub. unfold emit, emits. simpl. now rewrite <- app_assoc.
    + unfold emit, emits. simpl. now rewrite <- app_assoc.
  - intros Hactive. unfold cancelAllActiveOrders. now rewrite Hactive.
Qed.

End Shutdown.

(** ** Position warmup (loadExistingPositions) *)

Section Warmup.
Import PriceSnapshotService.
Local Open Scope Q_scope.





End Warmup.

(** ** The running process: locks and suspended calls *)

Section Control.
Import PriceSnapshotService.

Local Arguments DeviationCheckService.checkOrdersAndPositions : simpl never.
Local Arguments DeviationCheckService.calculateMarketState : simpl never.

(** Splits the goal on the tests that the code makes. *)
Ltac split_tests :=
  repeat first
    [ progress simpl
    | match goal with
      | |- context [if ?c then _ else _] => destruct c eqn:?
      | |- context [match ?x with Some _ => _ | None => _ end] => destruct x eqn:?
      | |- context [match ?x with Resolved _ => _ | Rejected => _ end] => destruct x
      | |- context [match ?x with BID => _ | ASK => _ end] => destruct x
      end ].

Lemma control_emit (e : Effect) (p : Process) : control (emit e p) = control p.
Proof. reflexivity. Qed.

Lemma control_emits (es : list Effect) (p : Process) :
  control (emits es p) = control p.
Proof. reflexivity. Qed.

Lemma control_cancelOrder (ticker orderId : string) (side : OrderSide)
    (p : Process) :
  control (fst (cancelOrder ticker orderId side p)) = control p.
Proof. unfold cancelOrder. split_tests; reflexivity. Qed.

Lemma control_cancelOrder_resume (ticker orderId : string) (side : OrderSide)
    (response : Response) (p : Process) :
  control (cancelOrder_resume ticker orderId side response p) = control p.
Proof. unfold cancelOrder_resume. split_tests; reflexivity. Qed.

Lemma control_installPlaced (now : Z) (ticker : string) (side : OrderSide)
    (request : CreateOrderRequest.t) (order_id : option string) (p : Process) :
  control (installPlaced now ticker side request order_id p) = control p.
Proof. unfold installPlaced. split_tests; reflexivity. Qed.

Lemma control_cleanup (ticker : string) (p : Process) :
  control (cleanupCompletedTradingPairs ticker p) = control p.
Proof. unfold cleanupCompletedTradingPairs. split_tests; reflexivity. Qed.

Lemma control_updatePrice (priceUpdate : PriceUpdate.t) (p : Process) :
  control (updatePrice priceUpdate p) = control p.
Proof. reflexivity. Qed.

Lemma control_updateOrderStatus (orderUpdate : OrderUpdateEvent.t) (p : Process) :
  control (updateOrderStatus orderUpdate p) = control p.
Proof.
  unfold updateOrderStatus.
  destruct (updateOrderStatus_loop _ _ _). reflexivity.
Qed.

Lemma cancelAskIfFlagged_control (ticker : string) (shouldCancelAsk : bool)
    (tradingPair : TradingPair.t) (p : Process) :
  let '(p', next) := cancelAskIfFlagged ticker shouldCancelAsk tradingPair p in
  snapshotTimer (this p') = snapshotTimer (this p)
  /\ orderCreationInProgress (this p') = orderCreationInProgress (this p)
  /\ pending p' = pending p
  /\ startsCancel (orderCancellationInProgress (this p))
                  (orderCancellationInProgress (this p')) next.
Proof.
  unfold cancelAskIfFlagged, cancelOrder.
  destruct shouldCancelAsk, (TradingPair.askOrder tradingPair) as [askOrder|];
    try (repeat split; reflexivity).
  destruct (bool_decide _) eqn:Hheld; [repeat split; reflexivity|].
  apply bool_decide_eq_false in Hheld.
  split_tests; (repeat split; try reflexivity; eexists; repeat split; eauto).
Qed.

Lemma checkOrdersAndPositions_control (now : Z) (ticker : string)
    (currentPrice : number) (p : Process) :
  let '(p', next) := checkOrdersAndPositions now ticker currentPrice p in
  snapshotTimer (this p') = snapshotTimer (this p)
  /\ orderCreationInProgress (this p') = orderCreationInProgress (this p)
  /\ pending p' = pending p
  /\ startsCancel (orderCancellationInProgress (this p))
                  (orderCancellationInProgress (this p')) next.
Proof.
  unfold checkOrdersAndPositions.
  destruct (deviationCheckService (this p)) as [service|];
    [|repeat split; reflexivity].
  destruct (etherealService (this p)); [|repeat split; reflexivity]. cbn.
  destruct (JSMap.get (tradingPairs (this p)) ticker) as [tradingPair|];
    [|repeat split; reflexivity].
  destruct (JSMap.get (assetConfigs (this p)) ticker) as [assetConfig|];
    [|repeat split; reflexivity].
  match goal with
  | |- context [DeviationCheckService.shouldCancelBid ?c] => set (checks := c)
  end.
  destruct (DeviationCheckService.shouldCancelBid checks),
           (TradingPair.bidOrder tradingPair) as [bidOrder|];
    try apply cancelAskIfFlagged_control.
  destruct (bool_decide _) eqn:Hheld.
  - apply (cancelAskIfFlagged_control ticker _ tradingPair
             (emit (console_log (CancellationInProgress ticker BID)) p)).
  - apply bool_decide_eq_false in Hheld. unfold cancelOrder.
    split_tests; (repeat split; try reflexivity; eexists; repeat split; eauto).
Qed.

Lemma checkOrdersAndPositions_resumeBid_control (ticker key orderId : string)
    (sent shouldCancelAsk : bool) (response : Response) (p : Process) :
  let '(p', next) :=
    checkOrdersAndPositions_resumeBid ticker key orderId sent shouldCancelAsk
      response p in
  snapshotTimer (this p') = snapshotTimer (this p)
  /\ orderCreationInProgress (this p') = orderCreationInProgress (this p)
  /\ pending p' = pending p
  /\ startsCancel (orderCancellationInProgress (this p) ∖ {[key]})
                  (orderCancellationInProgress (this p')) next.
Proof.
  unfold checkOrdersAndPositions_resumeBid.
  set (q := if sent then cancelOrder_resume ticker orderId BID response p else p).
  assert (Hq : control q = control p).
  { subst q. destruct sent; [apply control_cancelOrder_resume|reflexivity]. }
  injection Hq as Htimer Hcreation Hcancellation Hpending.
  destruct (JSMap.get (tradingPairs (this (deleteCancellation key q))) ticker)
    as [tradingPair|].
  - assert (H := cancelAskIfFlagged_control ticker shouldCancelAsk tradingPair
                   (deleteCancellation key q)).
    destruct (cancelAskIfFlagged ticker shouldCancelAsk tradingPair
                (deleteCancellation key q)) as [p' next].
    simpl in H. rewrite Htimer, Hcreation, Hcancellation, Hpending in H.
    exact H.
  - simpl. rewrite Htimer, Hcreation, Hcancellation, Hpending.
    repeat split; reflexivity.
Qed.

Lemma checkOrdersAndPositions_resumeAsk_control (ticker key orderId : string)
    (sent : bool) (response : Response) (p : Process) :
  let p' := checkOrdersAndPositions_resumeAsk ticker key orderId sent response p in
  snapshotTimer (this p') = snapshotTimer (this p)
  /\ orderCreationInProgress (this p') = orderCreationInProgress (this p)
  /\ pending p' = pending p
  /\ orderCancellationInProgress (this p')
     = orderCancellationInProgress (this p) ∖ {[key]}.
Proof.
  unfold checkOrdersAndPositions_resumeAsk.
  set (q := if sent then cancelOrder_resume ticker orderId ASK response p else p).
  assert (Hq : control q = control p).
  { subst q. destruct sent; [apply control_cancelOrder_resume|reflexivity]. }
  injection Hq as Htimer Hcreation Hcancellation Hpending.
  simpl. rewrite Htimer, Hcreation, Hcancellation, Hpending.
  repeat split; reflexivity.
Qed.

Lemma checkAndCreateOrders_control (now : Z) (ticker : string)
    (currentPrice : number) (p : Process) :
  let '(p', next) := checkAndCreateOrders now ticker currentPrice p in
  snapshotTimer (this p') = snapshotTimer (this p)
  /\ orderCancellationInProgress (this p') = orderCancellationInProgress (this p)
  /\ pending p' = pending p
  /\ startsRound ticker (orderCreationInProgress (this p))
                 (orderCreationInProgress (this p')) next.
Proof.
  unfold checkAndCreateOrders, createBidOrder, createAskOrder, creationFailed.
  destruct (etherealService (this p)) eqn:Hservice;
    [|repeat split; reflexivity]. simpl.
  destruct (JSMap.get (assetConfigs (this p)) ticker) as [assetConfig|];
    [|repeat split; reflexivity].
  destruct (bool_decide _) eqn:Hheld; [repeat split; reflexivity|].
  apply bool_decide_eq_false in Hheld.
  destruct (absent _), (absent _); simpl; rewrite ?Hservice; simpl;
    repeat split; auto.
Qed.

Lemma checkAndCreateOrders_resumeBid_control (now : Z) (ticker : string)
    (currentPrice : number) (config : AssetConfig.t) (needsAskOrder : bool)
    (bidOrder : CreateOrderRequest.t) (response : Response) (p : Process) :
  let '(p', next) :=
    checkAndCreateOrders_resumeBid now ticker currentPrice config needsAskOrder
      bidOrder response p in
  snapshotTimer (this p') = snapshotTimer (this p)
  /\ orderCancellationInProgress (this p') = orderCancellationInProgress (this p)
  /\ pending p' = pending p
  /\ continuesRound ticker (orderCreationInProgress (this p))
                    (orderCreationInProgress (this p')) next.
Proof.
  unfold checkAndCreateOrders_resumeBid, createAskOrder, creationFailed.
  destruct response as [order_id|]; [|repeat split; reflexivity].
  assert (Hq := control_installPlaced now ticker BID bidOrder order_id p).
  set (q := installPlaced now ticker BID bidOrder order_id p) in *.
  injection Hq as Htimer Hcreation Hcancellation Hpending.
  destruct needsAskOrder; [destruct (etherealService (this q)) eqn:Hservice|];
    simpl; rewrite ?Hservice; simpl;
    rewrite Htimer, Hcreation, Hcancellation, Hpending; repeat split; auto.
Qed.

Lemma checkAndCreateOrders_resumeAsk_control (now : Z) (ticker : string)
    (askOrder : CreateOrderRequest.t) (response : Response) (p : Process) :
  let p' := checkAndCreateOrders_resumeAsk now ticker askOrder response p in
  snapshotTimer (this p') = snapshotTimer (this p)
  /\ orderCancellationInProgress (this p') = orderCancellationInProgress (this p)
  /\ pending p' = pending p
  /\ orderCreationInProgress (this p')
     = orderCreationInProgress (this p) ∖ {[ticker]}.
Proof.
  unfold checkAndCreateOrders_resumeAsk, creationFailed.
  destruct response as [order_id|]; [|repeat split; reflexivity].
  assert (Hq := control_installPlaced now ticker ASK askOrder order_id p).
  set (q := installPlaced now ticker ASK askOrder order_id p) in *.
  injection Hq as Htimer Hcreation Hcancellation Hpending.
  simpl. rewrite Htimer, Hcreation, Hcancellation, Hpending.
  repeat split; reflexivity.
Qed.

End Control.

(** ** The single-flight invariant *)

Section SingleFlight.
Import PriceSnapshotService.

Lemma pending_suspend (next : option Frame) (p : Process) :
  pending (suspend next p) = pending p ++ option_list next.
Proof. destruct next; simpl; [reflexivity|now rewrite app_nil_r]. Qed.

Lemma this_suspend (next : option Frame) (p : Process) :
  this (suspend next p) = this p.
Proof. now destruct next. Qed.

Lemma omap_snoc {A B : Type} (f : A -> option B) (l : list A) (x : A) :
  omap f (l ++ [x]) = omap f l ++ option_list (f x).
Proof. rewrite omap_app. simpl. now destruct (f x). Qed.

(** A frame of the list, and the list without it. *)
Lemma delete_middle {A : Type} (l : list A) (i : nat) (x : A) :
  l !! i = Some x ->
  exists l1 l2, l = l1 ++ x :: l2 /\ delete i l = l1 ++ l2.
Proof.
  intros Hi. exists (take i l), (drop (S i) l). split.
  - now rewrite take_drop_middle.
  - apply delete_take_drop.
Qed.

Lemma singleFlight_quiet timer creation cancellation frames f :
  placementTicker f = None -> cancelKey f = None ->
  singleFlightOn timer creation cancellation frames ->
  singleFlightOn timer creation cancellation (frames ++ [f]).
Proof.
  intros Hp Hk (Hround & Hkeyed & Hlive).
  unfold singleFlightOn. rewrite !omap_snoc, Hp, Hk, !app_nil_r.
  repeat split; try assumption; try (now apply Hlive).
  apply Forall_app. split; [assumption|].
  constructor; [|constructor]. destruct f; try discriminate; exact I.
Qed.

Lemma singleFlight_startsCancel timer creation cancellation cancellation'
    frames next :
  startsCancel cancellation cancellation' next ->
  singleFlightOn timer creation cancellation frames ->
  singleFlightOn timer creation cancellation' (frames ++ option_list next).
Proof.
  intros Hstart (Hround & Hkeyed & Hlive).
  destruct next as [f|]; simpl in *.
  - destruct Hstart as (Hf & Hp & key & Hk & Hfree & ->).
    unfold singleFlightOn. rewrite !omap_snoc, Hp, Hk, app_nil_r. simpl.
    split; [assumption|]. split.
    { apply Forall_app. split; [assumption|]. now constructor. }
    intros Htimer. destruct (Hlive Htimer) as (Hlocks & Hkeys & Hheld).
    split; [assumption|]. split.
    + apply NoDup_app. split; [assumption|]. split; [|apply NoDup_singleton].
      intros k Hk1 Hk2. apply list_elem_of_singleton in Hk2. subst k.
      apply Hfree. now apply Hheld.
    + intros k Hin. apply elem_of_app in Hin. destruct Hin as [Hin|Hin].
      * apply elem_of_union_r. now apply Hheld.
      * apply list_elem_of_singleton in Hin. subst k.
        apply elem_of_union_l. now apply elem_of_singleton.
  - subst cancellation'. rewrite app_nil_r.
    exact (conj Hround (conj Hkeyed Hlive)).
Qed.

Lemma singleFlight_startsRound ticker creation creation' cancellation
    frames next :
  startsRound ticker creation creation' next ->
  singleFlightOn true creation cancellation frames ->
  singleFlightOn true creation' cancellation (frames ++ option_list next).
Proof.
  intros Hstart (Hround & Hkeyed & Hlive).
  destruct (Hlive eq_refl) as (Hlocks & Hkeys & Hheld).
  destruct next as [f|]; simpl in *.
  - destruct Hstart as (Hp & Hk & Hfree & ->).
    unfold singleFlightOn. rewrite !omap_snoc, Hp, Hk, app_nil_r. simpl.
    split.
    { apply NoDup_app. split; [assumption|]. split; [|apply NoDup_singleton].
      intros t Ht1 Ht2. apply list_elem_of_singleton in Ht2. subst t.
      apply Hfree. now apply Hlocks. }
    split.
    { apply Forall_app. split; [assumption|].
      constructor; [|constructor]. destruct f; try discriminate; exact I. }
    intros _. split; [|split; assumption].
    intros t Hin. apply elem_of_app in Hin. destruct Hin as [Hin|Hin].
    + apply elem_of_union_r. now apply Hlocks.
    + apply list_elem_of_singleton in Hin. subst t.
      apply elem_of_union_l. now apply elem_of_singleton.
  - subst creation'. rewrite app_nil_r.
    exact (conj Hround (conj Hkeyed Hlive)).
Qed.

(** A suspended cancel leaves: its frame and its key go. *)
Lemma singleFlight_cancel_done timer creation cancellation frames i f key :
  frames !! i = Some f -> cancelKey f = Some key ->
  singleFlightOn timer creation cancellation frames ->
  singleFlightOn timer creation (cancellation ∖ {[key]}) (delete i frames).
Proof.
  intros Hi Hk (Hround & Hkeyed & Hlive).
  destruct (delete_middle frames i f Hi) as (l1 & l2 & -> & ->).
  assert (Hp : placementTicker f = None) by (destruct f; try discriminate; reflexivity).
  rewrite omap_app in Hround. simpl in Hround. rewrite Hp in Hround.
  unfold singleFlightOn. rewrite !omap_app. split; [assumption|]. split.
  { apply Forall_app in Hkeyed. destruct Hkeyed as [H1 H2].
    apply Forall_app. split; [assumption|]. now inversion H2. }
  intros Htimer. destruct (Hlive Htimer) as (Hlocks & Hkeys & Hheld).
  rewrite !omap_app in Hlocks, Hkeys, Hheld. simpl in Hlocks, Hkeys, Hheld.
  rewrite Hp in Hlocks. rewrite Hk in Hkeys, Hheld.
  apply NoDup_app in Hkeys. destruct Hkeys as (Hn1 & Hdisj & Hn2).
  apply NoDup_cons in Hn2. destruct Hn2 as [Hnotin Hn2].
  split; [assumption|]. split.
  - apply NoDup_app. split; [assumption|]. split; [|assumption].
    intros k Hk1 Hk2. apply (Hdisj k Hk1). now right.
  - intros k Hin. apply elem_of_difference. split.
    + apply Hheld. apply elem_of_app in Hin. apply elem_of_app.
      destruct Hin as [Hin|Hin]; [now left|right; now right].
    + intros Heq. apply elem_of_singleton in Heq. subst k.
      apply elem_of_app in Hin. destruct Hin as [Hin|Hin].
      * apply (Hdisj key Hin). now left.
      * contradiction.
Qed.

(** A suspended placement continues with the ask or ends. *)
Lemma singleFlight_continuesRound timer creation creation' cancellation
    frames i f ticker next :
  frames !! i = Some f -> placementTicker f = Some ticker ->
  continuesRound ticker creation creation' next ->
  singleFlightOn timer creation cancellation frames ->
  singleFlightOn timer creation' cancellation
                 (delete i frames ++ option_list next).
Proof.
  intros Hi Hp Hnext (Hround & Hkeyed & Hlive).
  destruct (delete_middle frames i f Hi) as (l1 & l2 & -> & ->).
  assert (Hk : cancelKey f = None) by (destruct f; try discriminate; reflexivity).
  rewrite omap_app in Hround. simpl in Hround. rewrite Hp in Hround.
  apply NoDup_app in Hround. destruct Hround as (Hn1 & Hdisj & Hn2).
  apply NoDup_cons in Hn2. destruct Hn2 as [Hnotin Hn2].
  assert (Hrest : NoDup (omap placementTicker l1 ++ omap placementTicker l2)).
  { apply NoDup_app. split; [assumption|]. split; [|assumption].
    intros t Ht1 Ht2. apply (Hdisj t Ht1). now right. }
  assert (Hkeyed' : Forall keyed (l1 ++ l2)).
  { apply Forall_app in Hkeyed. destruct Hkeyed as [H1 H2].
    apply Forall_app. split; [assumption|]. now inversion H2. }
  assert (Hfresh : ticker ∉ omap placementTicker l1 ++ omap placementTicker l2).
  { intros Hin. apply elem_of_app in Hin. destruct Hin as [Hin|Hin].
    - apply (Hdisj ticker Hin). now left.
    - contradiction. }
  unfold singleFlightOn.
  destruct next as [g|]; simpl in Hnext |- *.
  - destruct Hnext as (Hpg & Hkg & ->).
    rewrite !omap_snoc, Hpg, Hkg, !omap_app, app_nil_r. simpl.
    split.
    { apply NoDup_app. split; [assumption|]. split; [|apply NoDup_singleton].
      intros t Ht1 Ht2. apply list_elem_of_singleton in Ht2. now subst t. }
    split.
    { apply Forall_app. split; [assumption|].
      constructor; [|constructor]. destruct g; try discriminate; exact I. }
    intros Htimer. destruct (Hlive Htimer) as (Hlocks & Hkeys & Hheld).
    rewrite !omap_app in Hlocks, Hkeys, Hheld. simpl in Hlocks, Hkeys, Hheld.
    rewrite Hp in Hlocks. rewrite Hk in Hkeys, Hheld.
    split; [|split; assumption].
    intros t Hin. apply Hlocks.
    apply elem_of_app in Hin. destruct Hin as [Hin|Hin].
    + apply elem_of_app in Hin. apply elem_of_app.
      destruct Hin as [Hin|Hin]; [now left|right; now right].
    + apply list_elem_of_singleton in Hin. subst t.
      apply elem_of_app. right. now left.
  - subst creation'. rewrite app_nil_r, !omap_app.
    split; [assumption|]. split; [assumption|].
    intros Htimer. destruct (Hlive Htimer) as (Hlocks & Hkeys & Hheld).
    rewrite !omap_app in Hlocks, Hkeys, Hheld. simpl in Hlocks, Hkeys, Hheld.
    rewrite Hp in Hlocks. rewrite Hk in Hkeys, Hheld.
    split; [|split; assumption].
    intros t Hin. apply elem_of_difference. split.
    + apply Hlocks. apply elem_of_app in Hin. apply elem_of_app.
      destruct Hin as [Hin|Hin]; [now left|right; now right].
    + intros Heq. apply elem_of_singleton in Heq. subst t.
      now apply Hfresh.
Qed.

(** A frame of the shutdown handler leaves. *)
Lemma singleFlight_other_done timer creation cancellation frames i f :
  frames !! i = Some f -> placementTicker f = None -> cancelKey f = None ->
  singleFlightOn timer creation cancellation frames ->
  singleFlightOn timer creation cancellation (delete i frames).
Proof.
  intros Hi Hp Hk (Hround & Hkeyed & Hlive).
  destruct (delete_middle frames i f Hi) as (l1 & l2 & -> & ->).
  unfold singleFlightOn in *.
  rewrite !omap_app in *. simpl in *. rewrite Hp, Hk in *.
  split; [assumption|]. split; [|assumption].
  apply Forall_app in Hkeyed. destruct Hkeyed as [H1 H2].
  apply Forall_app. split; [assumption|]. now inversion H2.
Qed.

(** Once the timer is stopped only the placement rounds are constrained. *)
Lemma singleFlight_stopped creation cancellation creation' cancellation'
    timer frames :
  singleFlightOn timer creation cancellation frames ->
  singleFlightOn false creation' cancellation' frames.
Proof.
  intros (Hround & Hkeyed & _). split; [assumption|]. split; [assumption|].
  discriminate.
Qed.

Lemma singleFlight_of_control (p q : Process) :
  control q = control p -> singleFlight p -> singleFlight q.
Proof.
  unfold control, singleFlight. intros [= -> -> -> ->]. trivial.
Qed.

Lemma singleFlight_checkOrdersAndPositions (now : Z) (ticker : string)
    (currentPrice : number) (p : Process) :
  singleFlight p ->
  let '(p', next) := checkOrdersAndPositions now ticker currentPrice p in
  singleFlight (suspend next p')
  /\ snapshotTimer (this (suspend next p')) = snapshotTimer (this p).
Proof.
  intros Hinv.
  assert (H := checkOrdersAndPositions_control now ticker currentPrice p).
  destruct (checkOrdersAndPositions now ticker currentPrice p) as [p' next].
  destruct H as (Htimer & Hcreation & Hpending & Hstart).
  unfold singleFlight. rewrite pending_suspend, this_suspend.
  rewrite Htimer, Hcreation, Hpending. split; [|reflexivity].
  now apply (singleFlight_startsCancel _ _ (orderCancellationInProgress (this p))).
Qed.

Lemma singleFlight_checkAndCreateOrders (now : Z) (ticker : string)
    (currentPrice : number) (p : Process) :
  snapshotTimer (this p) = true ->
  singleFlight p ->
  let '(p', next) := checkAndCreateOrders now ticker currentPrice p in
  singleFlight (suspend next p')
  /\ snapshotTimer (this (suspend next p')) = true.
Proof.
  intros Hrunning Hinv.
  assert (H := checkAndCreateOrders_control now ticker currentPrice p).
  destruct (checkAndCreateOrders now ticker currentPrice p) as [p' next].
  destruct H as (Htimer & Hcancellation & Hpending & Hstart).
  unfold singleFlight in *. rewrite pending_suspend, this_suspend.
  rewrite Htimer, Hcancellation, Hpending, Hrunning in *. split; [|reflexivity].
  now apply (singleFlight_startsRound ticker (orderCreationInProgress (this p))).
Qed.

Lemma singleFlight_takeSnapshot_entry (now : Z) (ticker : string)
    (priceUpdate : PriceUpdate.t) (p : Process) :
  snapshotTimer (this p) = true ->
  singleFlight p ->
  singleFlight (takeSnapshot_entry now ticker priceUpdate p)
  /\ snapshotTimer (this (takeSnapshot_entry now ticker priceUpdate p)) = true.
Proof.
  intros Hrunning Hinv. unfold takeSnapshot_entry.
  set (p1 := set_this p _).
  assert (H1 : singleFlight p1 /\ snapshotTimer (this p1) = true).
  { split; [|exact Hrunning]. now apply (singleFlight_of_control p). }
  clearbody p1. clear Hrunning Hinv. destruct H1 as [Hinv Hrunning].
  set (p2 := match deviationCheckService (this p1) with
             | Some _ => _
             | None => p1
             end).
  assert (H2 : singleFlight p2 /\ snapshotTimer (this p2) = true).
  { subst p2. destruct (deviationCheckService (this p1)); [|now split].
    assert (H := singleFlight_checkOrdersAndPositions now ticker
                   (PriceUpdate.price priceUpdate) p1 Hinv).
    destruct (checkOrdersAndPositions now ticker (PriceUpdate.price priceUpdate) p1)
      as [p' next].
    destruct H as [H Ht]. split; [exact H|]. now rewrite Ht. }
  clearbody p2. clear Hrunning Hinv. destruct H2 as [Hinv Hrunning].
  assert (H := singleFlight_checkAndCreateOrders now ticker
                 (PriceUpdate.price priceUpdate) p2 Hrunning Hinv).
  destruct (checkAndCreateOrders now ticker (PriceUpdate.price priceUpdate) p2)
    as [p3 next].
  destruct H as [H Ht].
  set (p4 := cleanupCompletedTradingPairs ticker (suspend next p3)).
  assert (H4 : control p4 = control (suspend next p3))
    by apply control_cleanup.
  assert (Hinv4 : singleFlight p4) by now apply (singleFlight_of_control _ _ H4).
  assert (Ht4 : snapshotTimer (this p4) = true).
  { injection H4 as -> _ _ _. exact Ht. }
  destruct (snapshotCallback (this p4)); now split.
Qed.

Lemma singleFlight_takeSnapshot (now : Z) (p : Process) :
  snapshotTimer (this p) = true ->
  singleFlight p ->
  singleFlight (takeSnapshot now p).
Proof.
  intros Hrunning Hinv. unfold takeSnapshot.
  set (q := emit _ p).
  assert (Hq : singleFlight q /\ snapshotTimer (this q) = true) by now split.
  generalize (latestPrices (this q)) as prices.
  clearbody q. clear Hrunning Hinv.
  intros prices. revert q Hq.
  induction prices as [|[ticker priceUpdate] prices IH]; intros q [Hinv Hrunning].
  - exact Hinv.
  - simpl. destruct (throwsAtPush q ticker).
    + now apply (singleFlight_of_control q).
    + apply IH. now apply singleFlight_takeSnapshot_entry.
Qed.

Lemma control_cancelAllActiveOrders (p : Process) :
  let '(p', next) := cancelAllActiveOrders p in
  snapshotTimer (this p') = snapshotTimer (this p)
  /\ pending p' = pending p
  /\ match next with
     | Some f => placementTicker f = None /\ cancelKey f = None
     | None => True
     end.
Proof.
  unfold cancelAllActiveOrders.
  destruct (getAllActiveOrders p); [repeat split|].
  destruct (ETHEREAL_SUBACCOUNT _) as [subaccount|]; [|repeat split].
  destruct (truthy_string subaccount); [|repeat split].
  simpl. destruct (etherealService (this p)); repeat split.
Qed.

Lemma singleFlight_shutdown (p : Process) :
  singleFlight p -> singleFlight (shutdown p).
Proof.
  intros Hinv. unfold shutdown.
  set (q := stop (emit (console_log ShutdownReceived) p)).
  assert (Hq : snapshotTimer (this q) = false
               /\ singleFlightOn false (orderCreationInProgress (this q))
                                 (orderCancellationInProgress (this q)) (pending q)).
  { subst q. unfold stop. simpl.
    destruct (snapshotTimer (this p)) eqn:Ht; simpl; (split; [now rewrite ?Ht|]);
      eapply singleFlight_stopped; exact Hinv. }
  clearbody q. destruct Hq as [Hstopped Hq].
  assert (H := control_cancelAllActiveOrders q).
  destruct (cancelAllActiveOrders q) as [p' next].
  destruct H as (Htimer & Hpending & Hnext).
  assert (Hp' : singleFlight p').
  { unfold singleFlight. rewrite Htimer, Hstopped, Hpending.
    eapply singleFlight_stopped; exact Hq. }
  assert (Hstill : snapshotTimer (this p') = false) by now rewrite Htimer.
  destruct next as [f|]; simpl; unfold singleFlight in *; simpl.
  - destruct Hnext as [Hpl Hk]. now apply singleFlight_quiet.
  - now apply singleFlight_quiet.
Qed.

Lemma singleFlight_resume (i : nat) (frame : Frame) (response : Response)
    (now : Z) (p : Process) :
  pending p !! i = Some frame ->
  singleFlight p ->
  singleFlight (resume frame response now (set_pending p (delete i (pending p)))).
Proof.
  intros Hi Hinv. unfold singleFlight in Hinv.
  set (p0 := set_pending p (delete i (pending p))).
  destruct frame as [ticker key orderId sent shouldCancelAsk
                    |ticker key orderId sent
                    |ticker currentPrice config needsAskOrder bidOrder
                    |ticker askOrder|orderIds|]; simpl.
  - assert (H := checkOrdersAndPositions_resumeBid_control ticker key orderId
                   sent shouldCancelAsk response p0).
    destruct (checkOrdersAndPositions_resumeBid ticker key orderId sent
                shouldCancelAsk response p0) as [p' next].
    destruct H as (Htimer & Hcreation & Hpending & Hstart).
    unfold singleFlight. rewrite pending_suspend, this_suspend.
    rewrite Htimer, Hcreation, Hpending. simpl.
    eapply singleFlight_startsCancel; [exact Hstart|].
    now apply (singleFlight_cancel_done _ _ _ _ i _ key Hi).
  - assert (H := checkOrdersAndPositions_resumeAsk_control ticker key orderId
                   sent response p0).
    destruct H as (Htimer & Hcreation & Hpending & Hcancellation).
    unfold singleFlight. rewrite Htimer, Hcreation, Hpending, Hcancellation.
    simpl. now apply (singleFlight_cancel_done _ _ _ _ i _ key Hi).
  - assert (H := checkAndCreateOrders_resumeBid_control now ticker currentPrice
                   config needsAskOrder bidOrder response p0).
    destruct (checkAndCreateOrders_resumeBid now ticker currentPrice config
                needsAskOrder bidOrder response p0) as [p' next].
    destruct H as (Htimer & Hcancellation & Hpending & Hnext).
    unfold singleFlight. rewrite pending_suspend, this_suspend.
    rewrite Htimer, Hcancellation, Hpending. simpl.
    now apply (singleFlight_continuesRound _ (orderCreationInProgress (this p))
                 _ _ _ i _ ticker next Hi).
  - assert (H := checkAndCreateOrders_resumeAsk_control now ticker askOrder
                   response p0).
    destruct H as (Htimer & Hcancellation & Hpending & Hcreation).
    unfold singleFlight. rewrite Htimer, Hcancellation, Hpending, Hcreation.
    simpl. rewrite <- (app_nil_r (delete i (pending p))).
    now apply (singleFlight_continuesRound _ (orderCreationInProgress (this p))
                 _ _ _ i _ ticker None Hi).
  - unfold singleFlight, cancelAllActiveOrders_resume.
    destruct response; simpl;
      now apply (singleFlight_other_done _ _ _ _ i _ Hi).
  - unfold singleFlight. simpl.
    now apply (singleFlight_other_done _ _ _ _ i _ Hi).
Qed.

Lemma singleFlight_step (e : Event) (p : Process) :
  singleFlight p -> singleFlight (step e p).
Proof.
  intros Hinv. unfold step. destruct (exited p); [exact Hinv|].
  destruct e as [priceUpdate|orderUpdate|now|i response now|].
  - exact Hinv.
  - apply (singleFlight_of_control p); [|exact Hinv].
    now rewrite control_updateOrderStatus.
  - destruct (snapshotTimer (this p)) eqn:Hrunning; [|exact Hinv].
    now apply singleFlight_takeSnapshot.
  - destruct (pending p !! i) as [frame|] eqn:Hi; [|exact Hinv].
    now apply singleFlight_resume.
  - now apply singleFlight_shutdown.
Qed.

Lemma singleFlight_run (events : list Event) (p : Process) :
  singleFlight p -> singleFlight (run events p).
Proof.
  revert p. induction events as [|e events IH]; intros p Hinv.
  - exact Hinv.
  - simpl. apply IH. now apply singleFlight_step.
Qed.

(** The warmup leaves no call suspended. *)
Lemma pending_loadExistingPositions (parseFloat : string -> number) (now : Z)
    (subaccountId : string) (positions : PositionsOutcome) (p : Process) :
  pending (loadExistingPositions parseFloat now subaccountId positions p)
  = pending p.
Proof.
  unfold loadExistingPositions.
  destruct (etherealService (this p)); [|reflexivity]. simpl.
  destruct positions as [[data|]|]; try reflexivity. simpl.
  set (q := emit _ (emit _ p)).
  change (pending p) with (pending q). generalize q. clear q.
  induction data as [|position data IH]; intros q; [reflexivity|].
  simpl. rewrite IH. unfold loadPosition.
  destruct (negb _); [reflexivity|].
  destruct (gtb _ _); [reflexivity|]. destruct (ltb _ _); reflexivity.
Qed.

Lemma pending_setAssetConfigs (assets : list AssetConfig.t) (q : Process) :
  pending (fold_left
             (fun p asset => setAssetConfig (AssetConfig.ticker asset) asset p)
             assets q)
  = pending q.
Proof.
  revert q. induction assets as [|asset assets IH]; intros q; [reflexivity|].
  simpl. now rewrite IH.
Qed.

Lemma pending_boot (parseFloat : string -> number) (now : Z)
    (config : MarketMakingConfig.t) (assets : list AssetConfig.t)
    (subaccountId : string) (subaccount : option string)
    (positions : PositionsOutcome) :
  pending (boot parseFloat now config assets subaccountId subaccount positions)
  = [].
Proof.
  unfold boot, start, onSnapshot.
  match goal with
  | |- context [loadExistingPositions _ _ _ _ ?q] => set (p0 := q)
  end.
  assert (H := pending_loadExistingPositions parseFloat now subaccountId
                 positions p0).
  assert (H0 : pending p0 = []) by (subst p0; now rewrite pending_setAssetConfigs).
  destruct (snapshotTimer _); simpl; now rewrite H.
Qed.

Lemma singleFlight_boot (parseFloat : string -> number) (now : Z)
    (config : MarketMakingConfig.t) (assets : list AssetConfig.t)
    (subaccountId : string) (subaccount : option string)
    (positions : PositionsOutcome) :
  singleFlight
    (boot parseFloat now config assets subaccountId subaccount positions).
Proof.
  unfold singleFlight. rewrite pending_boot. simpl.
  split; [constructor|]. split; [constructor|].
  intros _. split; [|split; [constructor|]]; intros x Hx; inversion Hx.
Qed.

Lemma NoDup_omap_index {A B : Type} (f : A -> option B) (l : list A)
    (i j : nat) (x y : A) (b : B) :
  NoDup (omap f l) ->
  l !! i = Some x -> l !! j = Some y -> f x = Some b -> f y = Some b -> i = j.
Proof.
  revert i j. induction l as [|a l IH]; intros i j Hnodup Hi Hj Hx Hy.
  - destruct i; discriminate.
  - assert (Htail : NoDup (omap f l)).
    { simpl in Hnodup. destruct (f a); [now apply NoDup_cons in Hnodup|assumption]. }
    assert (Hfresh : forall k z, l !! k = Some z -> f z = Some b ->
                                 f a = Some b -> False).
    { intros k z Hk Hz Ha. simpl in Hnodup. rewrite Ha in Hnodup.
      apply NoDup_cons in Hnodup. destruct Hnodup as [Hnotin _].
      apply Hnotin. apply list_elem_of_omap. exists z. split; [|exact Hz].
      now apply list_elem_of_lookup_2 with k. }
    destruct i as [|i], j as [|j]; simpl in Hi, Hj.
    + reflexivity.
    + injection Hi as <-. exfalso. now apply (Hfresh j y).
    + injection Hj as <-. exfalso. now apply (Hfresh i x).
    + f_equal. now apply IH.
Qed.

Lemma keyed_cancelKey (f : Frame) (ticker : string) (side : OrderSide)
    (orderId : string) :
  keyed f -> cancelTriple f = Some (ticker, side, orderId) ->
  cancelKey f
  = Some match side with
         | BID => (ticker ++ "-bid-" ++ orderId)%string
         | ASK => (ticker ++ "-ask-" ++ orderId)%string
         end.
Proof.
  destruct f; simpl; try discriminate; intros -> [= <- <- <-]; reflexivity.
Qed.

(** C9 as stated fails: in the shutdown race two cancels of the ask [A1] of
    BTCUSD are in flight at once. *)
Lemma C9_shutdown_race_counterexample :
  let p := run shutdownRace bootedExample in
  pending p !! 0%nat = Some (AwaitCancelAsk "BTCUSD" "BTCUSD-ask-A1" "A1" true)
  /\ pending p !! 2%nat = Some (AwaitCancelAsk "BTCUSD" "BTCUSD-ask-A1" "A1" true).
Proof. vm_compute. split; reflexivity. Qed.

(** C9, amended. In every execution of the booted bot the placement rounds in
    flight are for distinct instruments; as long as the refresh timer runs
    (no shutdown has begun) every round in flight holds the lock of its
    instrument and the deviation cancels in flight have distinct
    (instrument, side, order id) keys.  A round starts only when the lock of
    its instrument is free, and sets it; and a round that ends, on any path,
    has released it. *)
Theorem C9_single_flight_until_shutdown (parseFloat : string -> number)
    (now0 : Z) (config : MarketMakingConfig.t) (assets : list AssetConfig.t)
    (subaccountId : string) (subaccount : option string)
    (positions : PositionsOutcome) (events : list Event) :
  let p :=
    run events
        (boot parseFloat now0 config assets subaccountId subaccount positions) in
  (forall i j fi fj ticker,
      pending p !! i = Some fi -> pending p !! j = Some fj ->
      placementTicker fi = Some ticker -> placementTicker fj = Some ticker ->
      i = j)
  /\ (snapshotTimer (this p) = true ->
      (forall i fi ticker,
          pending p !! i = Some fi -> placementTicker fi = Some ticker ->
          ticker ∈ orderCreationInProgress (this p))
      /\ (forall i j fi fj triple,
             pending p !! i = Some fi -> pending p !! j = Some fj ->
             cancelTriple fi = Some triple -> cancelTriple fj = Some triple ->
             i = j))
  /\ (forall now ticker currentPrice q q' f,
        checkAndCreateOrders now ticker currentPrice q = (q', Some f) ->
        placementTicker f = Some ticker
        /\ (ticker ∉ orderCreationInProgress (this q))
        /\ (ticker ∈ orderCreationInProgress (this q')))
  /\ (forall now ticker currentPrice settings needsAskOrder bidOrder response
             q q' next,
        checkAndCreateOrders_resumeBid now ticker currentPrice settings
          needsAskOrder bidOrder response q = (q', next) ->
        match next with
        | Some f => placementTicker f = Some ticker
        | None => ticker ∉ orderCreationInProgress (this q')
        end)
  /\ (forall now ticker askOrder response q,
        ticker ∉ orderCreationInProgress
                   (this (checkAndCreateOrders_resumeAsk now ticker askOrder
                            response q))).
Proof.
  intros p.
  assert (Hinv : singleFlight p)
    by (apply singleFlight_run, singleFlight_boot).
  destruct Hinv as (Hround & Hkeyed & Hlive).
  split; [|split; [|split; [|split]]].
  - intros i j fi fj ticker Hi Hj Hfi Hfj.
    exact (NoDup_omap_index placementTicker _ i j fi fj ticker Hround Hi Hj Hfi Hfj).
  - intros Hrunning. destruct (Hlive Hrunning) as (Hlocks & Hkeys & _). split.
    + intros i fi ticker Hi Hfi. apply Hlocks.
      apply list_elem_of_omap. exists fi. split; [|exact Hfi].
      now apply list_elem_of_lookup_2 with i.
    + intros i j fi fj [[ticker side] orderId] Hi Hj Hfi Hfj.
      assert (Hki : keyed fi).
      { rewrite Forall_forall in Hkeyed. apply Hkeyed.
        now apply list_elem_of_lookup_2 with i. }
      assert (Hkj : keyed fj).
      { rewrite Forall_forall in Hkeyed. apply Hkeyed.
        now apply list_elem_of_lookup_2 with j. }
      exact (NoDup_omap_index cancelKey _ i j fi fj _ Hkeys Hi Hj
               (keyed_cancelKey fi ticker side orderId Hki Hfi)
               (keyed_cancelKey fj ticker side orderId Hkj Hfj)).
  - intros now ticker currentPrice q q' f Hcall.
    assert (H := checkAndCreateOrders_control now ticker currentPrice q).
    rewrite Hcall in H. destruct H as (_ & _ & _ & Hp & _ & Hfree & Hset).
    split; [exact Hp|]. split; [exact Hfree|].
    rewrite Hset. apply elem_of_union_l. now apply elem_of_singleton.
  - intros now ticker currentPrice settings needsAskOrder bidOrder response
           q q' next Hcall.
    assert (H := checkAndCreateOrders_resumeBid_control now ticker currentPrice
                   settings needsAskOrder bidOrder response q).
    rewrite Hcall in H. destruct H as (_ & _ & _ & Hnext).
    destruct next as [f|]; simpl in Hnext.
    + apply Hnext.
    + rewrite Hnext. intros Hin. apply elem_of_difference in Hin.
      destruct Hin as [_ Hin]. apply Hin. now apply elem_of_singleton.
  - intros now ticker askOrder response q.
    assert (H := checkAndCreateOrders_resumeAsk_control now ticker askOrder
                   response q).
    destruct H as (_ & _ & _ & Hcreation). rewrite Hcreation.
    intros Hin. apply elem_of_difference in Hin.
    destruct Hin as [_ Hin]. apply Hin. now apply elem_of_singleton.
Qed.

End SingleFlight.

(** ** Synthetic position orders stay inside the process *)

Section QuoteSafety.
Import PriceSnapshotService.

Local Arguments DeviationCheckService.checkOrdersAndPositions : simpl never.
Local Arguments DeviationCheckService.calculateMarketState : simpl never.

Lemma slotStep_refl (o : option Order.t) : slotStep o o.
Proof. now left. Qed.

Lemma slotStep_trans (o1 o2 o3 : option Order.t) :
  slotStep o1 o2 -> slotStep o2 o3 -> slotStep o1 o3.
Proof.
  intros H12 [->|[->|H23]]; [exact H12|right; now left|right; now right].
Qed.

Lemma pairStep_refl (tradingPair : TradingPair.t) : pairStep tradingPair tradingPair.
Proof. split; apply slotStep_refl. Qed.

Lemma pairStep_trans (t1 t2 t3 : TradingPair.t) :
  pairStep t1 t2 -> pairStep t2 t3 -> pairStep t1 t3.
Proof. intros [Hb Ha] [Hb' Ha']. split; eapply slotStep_trans; eauto. Qed.

Lemma pairsStep_refl (m : JSMap.t TradingPair.t) : pairsStep m m.
Proof.
  split; [trivial|]. intros k x Hin. left. exists x.
  split; [exact Hin|apply pairStep_refl].
Qed.

Lemma pairsStep_trans (m1 m2 m3 : JSMap.t TradingPair.t) :
  pairsStep m1 m2 -> pairsStep m2 m3 -> pairsStep m1 m3.
Proof.
  intros [Hk12 H12] [Hk23 H23]. split; [auto|].
  intros k x3 Hin3. destruct (H23 k x3 Hin3) as [(x2 & Hin2 & Hs23)|Hfresh].
  - destruct (H12 k x2 Hin2) as [(x1 & Hin1 & Hs12)|Hfresh].
    + left. exists x1. split; [exact Hin1|]. eapply pairStep_trans; eauto.
    + right. eapply pairStep_trans; eauto.
  - now right.
Qed.

Lemma syntheticIfPosition_step (o o' : option Order.t) :
  slotStep o o' -> syntheticIfPosition o -> syntheticIfPosition o'.
Proof.
  intros [->|[->|(x & -> & Hx)]] Ho; [exact Ho| |].
  - intros y [=].
  - intros y [= <-] Hy. unfold exchangeId in Hx. congruence.
Qed.

Lemma syntheticIfPosition_None : syntheticIfPosition None.
Proof. intros o [=]. Qed.

Lemma positionsAreSynthetic_step (m m' : JSMap.t TradingPair.t) :
  pairsStep m m' -> positionsAreSynthetic m -> positionsAreSynthetic m'.
Proof.
  intros [_ Hstep] Hm k x' Hin.
  destruct (Hstep k x' Hin) as [(x & Hx & Hb & Ha)|[Hb Ha]].
  - destruct (Hm k x Hx) as [Hsb Hsa].
    split; eapply syntheticIfPosition_step; eauto.
  - split; eapply syntheticIfPosition_step; eauto using syntheticIfPosition_None.
Qed.

Lemma askIsExchange_step (ticker : string) (m m' : JSMap.t TradingPair.t) :
  pairsStep m m' -> askIsExchange ticker m -> askIsExchange ticker m'.
Proof.
  intros [_ Hstep] Hm x' o Hin Ho.
  destruct (Hstep ticker x' Hin) as [(x & Hx & _ & Ha)|[_ Ha]].
  - destruct Ha as [Ha|[Ha|(y & Ha & Hy)]].
    + rewrite Ha in Ho. exact (Hm x o Hx Ho).
    + congruence.
    + rewrite Ha in Ho. now injection Ho as <-.
  - destruct Ha as [Ha|[Ha|(y & Ha & Hy)]].
    + rewrite Ha in Ho. discriminate.
    + congruence.
    + rewrite Ha in Ho. now injection Ho as <-.
Qed.

Lemma frameSafe_step (m m' : JSMap.t TradingPair.t) (f : Frame) :
  pairsStep m m' -> frameSafe m f -> frameSafe m' f.
Proof.
  intros Hstep. destruct f as [ticker ? ? ? []| | | | |]; simpl; trivial.
  now apply askIsExchange_step.
Qed.

Lemma evolves_refl (p : Process) : evolves p p.
Proof.
  split; [apply pairsStep_refl|]. split; [reflexivity|].
  exists []. split; [now rewrite app_nil_r|constructor].
Qed.

Lemma evolves_trans (p1 p2 p3 : Process) :
  evolves p1 p2 -> evolves p2 p3 -> evolves p1 p3.
Proof.
  intros (Hs12 & Hp12 & es12 & Ho12 & Hh12) (Hs23 & Hp23 & es23 & Ho23 & Hh23).
  split; [eapply pairsStep_trans; eauto|]. split; [congruence|].
  exists (es12 ++ es23). split.
  - now rewrite Ho23, Ho12, app_assoc.
  - apply Forall_app. now split.
Qed.

Lemma quoteSafe_evolves (p p' : Process) :
  quoteSafe p -> evolves p p' -> quoteSafe p'.
Proof.
  intros (Hkeys & Hsyn & Hframes & Hout) (Hstep & Hpending & es & Hes & Hharmless).
  split; [now apply Hstep|]. split; [eapply positionsAreSynthetic_step; eauto|].
  split.
  - rewrite Hpending. eapply Forall_impl; [exact Hframes|].
    intros f. now apply frameSafe_step.
  - rewrite Hes. apply Forall_app. now split.
Qed.

Lemma quoteSafe_suspend (next : option Frame) (p : Process) :
  quoteSafe p ->
  (forall f, next = Some f -> frameSafe (tradingPairs (this p)) f) ->
  quoteSafe (suspend next p).
Proof.
  intros (Hkeys & Hsyn & Hframes & Hout) Hnext.
  destruct next as [f|];
    [|exact (conj Hkeys (conj Hsyn (conj Hframes Hout)))].
  unfold quoteSafe. simpl.
  split; [exact Hkeys|]. split; [exact Hsyn|]. split; [|exact Hout].
  apply Forall_app. split; [assumption|].
  constructor; [now apply Hnext|constructor].
Qed.

(** The building blocks of the handlers. *)
Lemma evolves_emit (e : Effect) (p q : Process) :
  evolves p q -> harmless e -> evolves p (emit e q).
Proof.
  intros Hq He. eapply evolves_trans; [exact Hq|].
  split; [apply pairsStep_refl|]. split; [reflexivity|].
  exists [e]. split; [reflexivity|]. now constructor.
Qed.

Lemma evolves_emits (es : list Effect) (p q : Process) :
  evolves p q -> Forall harmless es -> evolves p (emits es q).
Proof.
  intros Hq Hes. eapply evolves_trans; [exact Hq|].
  split; [apply pairsStep_refl|]. split; [reflexivity|].
  exists es. now split.
Qed.

Lemma evolves_same (p q q' : Process) :
  evolves p q ->
  tradingPairs (this q') = tradingPairs (this q) ->
  pending q' = pending q -> output q' = output q ->
  evolves p q'.
Proof.
  intros Hq Hpairs Hpending Hout. eapply evolves_trans; [exact Hq|].
  split; [rewrite Hpairs; apply pairsStep_refl|]. split; [exact Hpending|].
  exists []. split; [now rewrite app_nil_r|constructor].
Qed.

Lemma evolves_pairs (m : JSMap.t TradingPair.t) (p q : Process) :
  evolves p q -> pairsStep (tradingPairs (this q)) m ->
  evolves p (set_this q (set_tradingPairs (this q) m)).
Proof.
  intros Hq Hm. eapply evolves_trans; [exact Hq|].
  split; [exact Hm|]. split; [reflexivity|].
  exists []. split; [simpl; now rewrite app_nil_r|constructor].
Qed.

(** Keys of a map after [set]. *)
Lemma keys_set_elem (m : JSMap.t TradingPair.t) (k k' : string)
    (v : TradingPair.t) :
  k' ∈ JSMap.keys (JSMap.set m k v) -> k' ∈ JSMap.keys m \/ k' = k.
Proof.
  unfold JSMap.keys. induction m as [|[k0 v0] m IH]; simpl.
  - intros H. apply list_elem_of_singleton in H. now right.
  - destruct (String.eqb k0 k) eqn:E; simpl.
    + apply String.eqb_eq in E. subst k0. intros H.
      apply elem_of_cons in H. destruct H as [->|H]; [now right|].
      left. now right.
    + intros H. apply elem_of_cons in H. destruct H as [->|H]; [left; now left|].
      destruct (IH H) as [H'|H']; [left; now right|now right].
Qed.

Lemma keys_set_NoDup (m : JSMap.t TradingPair.t) (k : string)
    (v : TradingPair.t) :
  NoDup (JSMap.keys m) -> NoDup (JSMap.keys (JSMap.set m k v)).
Proof.
  unfold JSMap.keys. induction m as [|[k0 v0] m IH]; simpl; intros Hm.
  - apply NoDup_singleton.
  - apply NoDup_cons in Hm. destruct Hm as [Hfresh Hm].
    destruct (String.eqb k0 k) eqn:E; simpl.
    + apply String.eqb_eq in E. subst k0. apply NoDup_cons. now split.
    + apply String.eqb_neq in E. apply NoDup_cons. split; [|now apply IH].
      intros H. destruct (keys_set_elem m k k0 v H) as [H'|H'];
        [contradiction|congruence].
Qed.

Lemma In_get (m : JSMap.t TradingPair.t) (k : string) (v v' : TradingPair.t) :
  NoDup (JSMap.keys m) -> JSMap.get m k = Some v -> In (k, v') m -> v' = v.
Proof.
  unfold JSMap.keys. induction m as [|[k0 v0] m IH]; simpl; intros Hm Hget Hin.
  - contradiction.
  - apply NoDup_cons in Hm. destruct Hm as [Hfresh Hm].
    destruct (String.eqb k0 k) eqn:E.
    + apply String.eqb_eq in E. subst k0. injection Hget as <-.
      destruct Hin as [[= ->]|Hin]; [reflexivity|].
      exfalso. apply Hfresh. apply list_elem_of_In.
      apply (in_map fst) in Hin. exact Hin.
    + apply String.eqb_neq in E.
      destruct Hin as [[= -> ->]|Hin]; [contradiction|]. now apply IH.
Qed.

Lemma pairsStep_set (m : JSMap.t TradingPair.t) (k : string)
    (v : TradingPair.t) :
  pairStep (default (TradingPair.fresh k) (JSMap.get m k)) v ->
  pairsStep m (JSMap.set m k v).
Proof.
  intros Hv. split; [apply keys_set_NoDup|].
  intros k' v' Hin. destruct (In_set m k v k' v' Hin) as [Hold|[-> ->]].
  - left. exists v'. split; [exact Hold|apply pairStep_refl].
  - destruct (JSMap.get m k) as [x|] eqn:Hget; simpl in Hv.
    + left. exists x. split; [now apply get_In|exact Hv].
    + now right.
Qed.

Lemma pairsStep_clearAllOrders (m : JSMap.t TradingPair.t) :
  pairsStep m (clearAllOrders m).
Proof.
  split.
  - assert (E : JSMap.keys (clearAllOrders m) = JSMap.keys m).
    { unfold JSMap.keys, clearAllOrders. rewrite map_map.
      apply map_ext. now intros [k x]. }
    now rewrite E.
  - intros k x' Hin. unfold clearAllOrders in Hin.
    apply in_map_iff in Hin. destruct Hin as ([k0 x] & [= <- <-] & Hin).
    left. exists x. split; [exact Hin|]. split; right; now left.
Qed.

Lemma Reconciled_slotStep (orderId status : string) (o o' : option Order.t) :
  exchangeId orderId -> Reconciled orderId status o o' -> slotStep o o'.
Proof.
  intros Hid [slot _|x _ _|x Hx _ _].
  - now left.
  - right. now left.
  - right. right. eexists. split; [reflexivity|]. simpl. now rewrite Hx.
Qed.

Lemma keys_updateOrderStatus_loop (orderId status : string)
    (m : JSMap.t TradingPair.t) :
  JSMap.keys (fst (updateOrderStatus_loop orderId status m)) = JSMap.keys m.
Proof.
  unfold JSMap.keys. induction m as [|[k x] m IH]; [reflexivity|]. simpl.
  destruct (updateOrderStatus_entry k orderId status x) as [[x' []] log].
  - reflexivity.
  - destruct (updateOrderStatus_loop orderId status m). simpl in *.
    now rewrite IH.
Qed.

Lemma pairsStep_updateOrderStatus_loop (orderId status : string)
    (m : JSMap.t TradingPair.t) :
  exchangeId orderId ->
  pairsStep m (fst (updateOrderStatus_loop orderId status m)).
Proof.
  intros Hid.
  split; [now rewrite keys_updateOrderStatus_loop|].
  induction m as [|[k x] m IH]; simpl; [intros ? ? []|].
  assert (Hspec := updateOrderStatus_entry_spec k orderId status x).
  destruct (updateOrderStatus_entry k orderId status x) as [[x' updated] log].
  destruct Hspec as (_ & Hb & Ha & _).
  destruct updated.
  - intros k' y [[= <- <-]|Hin].
    + left. exists x. split; [now left|].
      split; eapply Reconciled_slotStep; eauto.
    + left. exists y. split; [now right|apply pairStep_refl].
  - destruct (updateOrderStatus_loop orderId status m) as [m' log'].
    simpl in *. intros k' y [[= <- <-]|Hin].
    + left. exists x. split; [now left|apply pairStep_refl].
    + destruct (IH k' y Hin) as [(z & Hz & Hstep)|Hfresh].
      * left. exists z. split; [now right|exact Hstep].
      * now right.
Qed.

Lemma evolves_this (s : PriceSnapshotService.t) (p q : Process) :
  evolves p q -> tradingPairs s = tradingPairs (this q) ->
  evolves p (set_this q s).
Proof. intros Hq Hs. now apply (evolves_same p q). Qed.

(** Composes the building blocks along a straight piece of a handler. *)
Ltac evolve :=
  repeat first
    [ apply evolves_refl
    | assumption
    | apply evolves_emit; [|simpl; auto]
    | apply evolves_emits; [|repeat constructor; simpl; auto]
    | (apply evolves_this; [|reflexivity]) ].

Lemma evolves_cancelOrder (ticker orderId : string) (side : OrderSide)
    (p q : Process) :
  exchangeId orderId -> evolves p q ->
  evolves p (fst (cancelOrder ticker orderId side q)).
Proof.
  intros Hid Hq. unfold cancelOrder.
  destruct (truthy_opt_string _); [destruct (etherealService _) eqn:E|];
    simpl; rewrite ?E; simpl; evolve.
Qed.

Lemma pairStep_clearSlot (side : OrderSide) (tradingPair : TradingPair.t) :
  pairStep tradingPair (clearSlot side tradingPair).
Proof.
  destruct side; split; simpl; first [now left|right; now left].
Qed.

Lemma evolves_cancelOrder_resume (ticker orderId : string) (side : OrderSide)
    (response : Response) (p q : Process) :
  evolves p q ->
  evolves p (cancelOrder_resume ticker orderId side response q).
Proof.
  intros Hq. unfold cancelOrder_resume. destruct response; [|evolve].
  apply evolves_emit; [|exact I].
  destruct (JSMap.get (tradingPairs (this q)) ticker) as [tradingPair|] eqn:Hget;
    [|exact Hq].
  apply evolves_pairs; [exact Hq|].
  apply pairsStep_set. rewrite Hget. apply pairStep_clearSlot.
Qed.

Lemma evolves_installPlaced (now : Z) (ticker : string) (side : OrderSide)
    (request : CreateOrderRequest.t) (order_id : option string) (p q : Process) :
  (forall id, order_id = Some id -> exchangeId id) ->
  evolves p q ->
  evolves p (installPlaced now ticker side request order_id q).
Proof.
  intros Hid Hq. unfold installPlaced.
  destruct (truthy_opt_string order_id); [|exact Hq].
  apply evolves_pairs; [exact Hq|]. apply pairsStep_set.
  assert (Hplaced : exchangeId
                      (Order.id (placedOrder now (default "" order_id) ticker
                                   side request))).
  { destruct order_id as [id|]; simpl; [now apply Hid|reflexivity]. }
  destruct side; split; simpl;
    first [now left | right; right; eexists; split; [reflexivity|exact Hplaced]].
Qed.

Lemma evolves_cleanup (ticker : string) (p q : Process) :
  evolves p q -> evolves p (cleanupCompletedTradingPairs ticker q).
Proof.
  intros Hq. unfold cleanupCompletedTradingPairs.
  destruct (JSMap.get (tradingPairs (this q)) ticker) as [tradingPair|] eqn:Hget;
    [|exact Hq].
  match goal with |- context [if ?c then _ else _] => destruct c end;
    [|exact Hq].
  apply evolves_pairs; [exact Hq|]. apply pairsStep_set. rewrite Hget.
  split; right; now left.
Qed.

Lemma evolves_cancelAskIfFlagged (ticker : string) (shouldCancelAsk : bool)
    (tradingPair : TradingPair.t) (p q : Process) :
  (shouldCancelAsk = true ->
   forall o, TradingPair.askOrder tradingPair = Some o -> exchangeId (Order.id o)) ->
  evolves p q ->
  evolves p (fst (cancelAskIfFlagged ticker shouldCancelAsk tradingPair q)).
Proof.
  intros Hask Hq. unfold cancelAskIfFlagged.
  destruct shouldCancelAsk; [|exact Hq].
  destruct (TradingPair.askOrder tradingPair) as [askOrder|]; [|exact Hq].
  destruct (bool_decide _); [simpl; evolve|].
  match goal with
  | |- context [cancelOrder ?t ?i ?s ?r] =>
      assert (H := evolves_cancelOrder t i s p r (Hask eq_refl _ eq_refl));
      destruct (cancelOrder t i s r) as [q' sent]
  end.
  simpl in *. apply H. unfold addCancellation. evolve.
Qed.

Lemma cancelAskIfFlagged_frameSafe (ticker : string) (shouldCancelAsk : bool)
    (tradingPair : TradingPair.t) (q : Process) (m : JSMap.t TradingPair.t) :
  forall f, snd (cancelAskIfFlagged ticker shouldCancelAsk tradingPair q) = Some f ->
            frameSafe m f.
Proof.
  unfold cancelAskIfFlagged.
  destruct shouldCancelAsk; [|discriminate].
  destruct (TradingPair.askOrder tradingPair) as [askOrder|]; [|discriminate].
  destruct (bool_decide _); [discriminate|].
  destruct (cancelOrder _ _ _ _) as [q' sent]. simpl.
  intros f [= <-]. exact I.
Qed.

(** The risk check flags orders with status ['NEW'] only. *)
Lemma flagged_is_new (tradingPair : TradingPair.t) (marketState : MarketState.t) :
  let checks :=
    DeviationCheckService.checkOrdersAndPositions tradingPair marketState in
  (DeviationCheckService.shouldCancelBid checks = true ->
   forall o, TradingPair.bidOrder tradingPair = Some o ->
             Order.status o = Some "NEW")
  /\ (DeviationCheckService.shouldCancelAsk checks = true ->
      forall o, TradingPair.askOrder tradingPair = Some o ->
                Order.status o = Some "NEW").
Proof.
  unfold DeviationCheckService.checkOrdersAndPositions. simpl. split.
  - destruct (TradingPair.bidOrder tradingPair) as [b|]; [|discriminate].
    destruct (is_string (Order.status b) "NEW") eqn:E; [|discriminate].
    intros _ o [= <-]. now apply is_string_true.
  - destruct (TradingPair.askOrder tradingPair) as [a|]; [|discriminate].
    destruct (is_string (Order.status a) "NEW") eqn:E; [|discriminate].
    intros _ o [= <-]. now apply is_string_true.
Qed.

Lemma new_is_exchange (o : Order.t) :
  syntheticIfPosition (Some o) -> Order.status o = Some "NEW" ->
  exchangeId (Order.id o).
Proof.
  intros Hsyn Hnew. unfold exchangeId.
  destruct (startsWith (Order.id o) "position-") eqn:E; [|reflexivity].
  specialize (Hsyn o eq_refl E). congruence.
Qed.

Lemma checkOrdersAndPositions_safe (now : Z) (ticker : string)
    (currentPrice : number) (q : Process) :
  NoDup (JSMap.keys (tradingPairs (this q))) ->
  positionsAreSynthetic (tradingPairs (this q)) ->
  let '(q', next) := checkOrdersAndPositions now ticker currentPrice q in
  evolves q q'
  /\ forall f, next = Some f -> frameSafe (tradingPairs (this q')) f.
Proof.
  intros Hkeys Hsyn. unfold checkOrdersAndPositions.
  destruct (deviationCheckService (this q)) as [service|];
    [|split; [apply evolves_refl|discriminate]].
  destruct (etherealService (this q));
    [|split; [apply evolves_refl|discriminate]]. cbn.
  destruct (JSMap.get (tradingPairs (this q)) ticker) as [tradingPair|] eqn:Hget;
    [|split; [apply evolves_refl|discriminate]].
  destruct (JSMap.get (assetConfigs (this q)) ticker) as [assetConfig|];
    [|split; [apply evolves_refl|discriminate]].
  match goal with
  | |- context [DeviationCheckService.shouldCancelBid ?c] => set (checks := c)
  end.
  destruct (Hsyn ticker tradingPair (get_In _ _ _ Hget)) as [Hsb Hsa].
  destruct (flagged_is_new tradingPair
              (DeviationCheckService.calculateMarketState service now ticker
                 currentPrice (AssetConfig.maxPriceDeviation assetConfig)))
    as [Hnb Hna].
  fold checks in Hnb, Hna.
  assert (Hask : DeviationCheckService.shouldCancelAsk checks = true ->
                 forall o, TradingPair.askOrder tradingPair = Some o ->
                           exchangeId (Order.id o)).
  { intros Hflag o Ho. apply new_is_exchange; [now rewrite <- Ho|now apply Hna]. }
  assert (Hfree : DeviationCheckService.shouldCancelAsk checks = true ->
                  askIsExchange ticker (tradingPairs (this q))).
  { intros Hflag x o Hin Ho.
    rewrite (In_get _ _ _ x Hkeys Hget Hin) in Ho. now apply Hask. }
  clearbody checks.
  assert (Hrest : forall r, tradingPairs (this r) = tradingPairs (this q) ->
                            evolves q r ->
                            let '(q', next) :=
                              cancelAskIfFlagged ticker
                                (DeviationCheckService.shouldCancelAsk checks)
                                tradingPair r in
                            evolves q q'
                            /\ forall f, next = Some f ->
                                         frameSafe (tradingPairs (this q')) f).
  { intros r Hr Hqr.
    assert (H1 := evolves_cancelAskIfFlagged ticker _ tradingPair q r Hask Hqr).
    assert (H2 := fun m => cancelAskIfFlagged_frameSafe ticker
                             (DeviationCheckService.shouldCancelAsk checks)
                             tradingPair r m).
    destruct (cancelAskIfFlagged ticker _ tradingPair r) as [q' next].
    simpl in *. split; [exact H1|]. intros f. apply H2. }
  destruct (DeviationCheckService.shouldCancelBid checks) eqn:Hflag;
    [|apply Hrest; [reflexivity|apply evolves_refl]].
  destruct (TradingPair.bidOrder tradingPair) as [bidOrder|] eqn:Hbid;
    [|apply Hrest; [reflexivity|apply evolves_refl]].
  destruct (bool_decide _).
  - apply Hrest; [reflexivity|]. evolve.
  - assert (Hid : exchangeId (Order.id bidOrder)).
    { apply new_is_exchange; [exact Hsb|now apply Hnb]. }
    match goal with
    | |- context [cancelOrder ?t ?i ?s ?r] =>
        assert (H := evolves_cancelOrder t i s q r Hid);
        destruct (cancelOrder t i s r) as [q' sent]
    end.
    simpl in H.
    assert (Hqq' : evolves q q') by (apply H; unfold addCancellation; evolve).
    split; [exact Hqq'|]. intros f [= <-].
    destruct (DeviationCheckService.shouldCancelAsk checks); [|exact I].
    simpl. apply (askIsExchange_step ticker (tradingPairs (this q))); [apply Hqq'|].
    now apply Hfree.
Qed.

Lemma checkOrdersAndPositions_resumeBid_safe (ticker key orderId : string)
    (sent shouldCancelAsk : bool) (response : Response) (q : Process) :
  frameSafe (tradingPairs (this q))
            (AwaitCancelBid ticker key orderId sent shouldCancelAsk) ->
  let '(q', next) :=
    checkOrdersAndPositions_resumeBid ticker key orderId sent shouldCancelAsk
      response q in
  evolves q q'
  /\ forall f, next = Some f -> frameSafe (tradingPairs (this q')) f.
Proof.
  intros Hframe. unfold checkOrdersAndPositions_resumeBid.
  set (r := if sent then cancelOrder_resume ticker orderId BID response q else q).
  assert (Hr : evolves q r).
  { subst r. destruct sent; [apply evolves_cancelOrder_resume|]; apply evolves_refl. }
  assert (Hd : evolves q (deleteCancellation key r))
    by (unfold deleteCancellation; evolve).
  destruct (JSMap.get (tradingPairs (this (deleteCancellation key r))) ticker)
    as [tradingPair|] eqn:Hget; [|split; [exact Hd|discriminate]].
  assert (Hask : shouldCancelAsk = true ->
                 forall o, TradingPair.askOrder tradingPair = Some o ->
                           exchangeId (Order.id o)).
  { intros -> o Ho. simpl in Hframe.
    apply (askIsExchange_step ticker _ _ (proj1 Hd) Hframe tradingPair o);
      [now apply get_In|exact Ho]. }
  assert (H1 := evolves_cancelAskIfFlagged ticker shouldCancelAsk tradingPair q
                  (deleteCancellation key r) Hask Hd).
  assert (H2 := fun m => cancelAskIfFlagged_frameSafe ticker shouldCancelAsk
                           tradingPair (deleteCancellation key r) m).
  destruct (cancelAskIfFlagged ticker shouldCancelAsk tradingPair
              (deleteCancellation key r)) as [q' next].
  simpl in *. split; [exact H1|]. intros f. apply H2.
Qed.

Lemma evolves_checkOrdersAndPositions_resumeAsk (ticker key orderId : string)
    (sent : bool) (response : Response) (q : Process) :
  evolves q (checkOrdersAndPositions_resumeAsk ticker key orderId sent response q).
Proof.
  unfold checkOrdersAndPositions_resumeAsk, deleteCancellation.
  apply evolves_this; [|reflexivity].
  destruct sent; [apply evolves_cancelOrder_resume|]; apply evolves_refl.
Qed.

Lemma evolves_createOrder (now : Z) (ticker : string) (currentPrice : number)
    (config : AssetConfig.t) (p q : Process) :
  evolves p q ->
  evolves p (fst (createBidOrder now ticker currentPrice config q))
  /\ evolves p (fst (createAskOrder now ticker currentPrice config q)).
Proof.
  intros Hq. unfold createBidOrder, createAskOrder. simpl.
  destruct (etherealService (this q)); simpl; split; evolve.
Qed.

Lemma checkAndCreateOrders_safe (now : Z) (ticker : string)
    (currentPrice : number) (q : Process) :
  let '(q', next) := checkAndCreateOrders now ticker currentPrice q in
  evolves q q'
  /\ forall f, next = Some f -> frameSafe (tradingPairs (this q')) f.
Proof.
  unfold checkAndCreateOrders.
  destruct (etherealService (this q)); [|split; [evolve|discriminate]]. simpl.
  destruct (JSMap.get (assetConfigs (this q)) ticker) as [assetConfig|];
    [|split; [evolve|discriminate]].
  destruct (bool_decide _); [split; [evolve|discriminate]|].
  assert (Hlock : evolves q (addCreation ticker q))
    by (unfold addCreation; evolve).
  destruct (evolves_createOrder now ticker currentPrice assetConfig q
              (addCreation ticker q) Hlock) as [Hbid Hask].
  destruct (absent _), (absent _); simpl.
  - destruct (createBidOrder now ticker currentPrice assetConfig
                (addCreation ticker q)) as [q' [bidOrder|]]; simpl in *.
    + split; [exact Hbid|]. intros f [= <-]. exact I.
    + split; [|discriminate]. unfold creationFailed, deleteCreation. evolve.
  - destruct (createBidOrder now ticker currentPrice assetConfig
                (addCreation ticker q)) as [q' [bidOrder|]]; simpl in *.
    + split; [exact Hbid|]. intros f [= <-]. exact I.
    + split; [|discriminate]. unfold creationFailed, deleteCreation. evolve.
  - destruct (createAskOrder now ticker currentPrice assetConfig
                (addCreation ticker q)) as [q' [askOrder|]]; simpl in *.
    + split; [exact Hask|]. intros f [= <-]. exact I.
    + split; [|discriminate]. unfold creationFailed, deleteCreation. evolve.
  - split; [evolve|discriminate].
Qed.

Lemma checkAndCreateOrders_resumeBid_safe (now : Z) (ticker : string)
    (currentPrice : number) (config : AssetConfig.t) (needsAskOrder : bool)
    (bidOrder : CreateOrderRequest.t) (response : Response) (q : Process) :
  (forall id, response = Resolved (Some id) -> exchangeId id) ->
  let '(q', next) :=
    checkAndCreateOrders_resumeBid now ticker currentPrice config needsAskOrder
      bidOrder response q in
  evolves q q'
  /\ forall f, next = Some f -> frameSafe (tradingPairs (this q')) f.
Proof.
  intros Hid. unfold checkAndCreateOrders_resumeBid.
  destruct response as [order_id|].
  - assert (Hinstalled : evolves q (installPlaced now ticker BID bidOrder order_id q)).
    { apply evolves_installPlaced; [|apply evolves_refl].
      intros id ->. now apply Hid. }
    destruct needsAskOrder.
    + destruct (evolves_createOrder now ticker currentPrice config q _ Hinstalled)
        as [_ Hask].
      destruct (createAskOrder now ticker currentPrice config
                  (installPlaced now ticker BID bidOrder order_id q))
        as [q' [askOrder|]]; simpl in *.
      * split; [exact Hask|]. intros f [= <-]. exact I.
      * split; [|discriminate]. unfold creationFailed, deleteCreation. evolve.
    + split; [|discriminate]. unfold deleteCreation. evolve.
  - split; [|discriminate]. unfold creationFailed, deleteCreation. evolve.
Qed.

Lemma evolves_checkAndCreateOrders_resumeAsk (now : Z) (ticker : string)
    (askOrder : CreateOrderRequest.t) (response : Response) (q : Process) :
  (forall id, response = Resolved (Some id) -> exchangeId id) ->
  evolves q (checkAndCreateOrders_resumeAsk now ticker askOrder response q).
Proof.
  intros Hid. unfold checkAndCreateOrders_resumeAsk, creationFailed, deleteCreation.
  destruct response as [order_id|]; [|evolve].
  apply evolves_this; [|reflexivity].
  apply evolves_installPlaced; [|apply evolves_refl].
  intros id ->. now apply Hid.
Qed.

Lemma activeOrders_are_exchange (q : Process) :
  Forall exchangeId (map ao_orderId (getAllActiveOrders q)).
Proof.
  rewrite getAllActiveOrders_ids. apply Forall_forall. intros id Hin.
  apply list_elem_of_In, in_map_iff in Hin. destruct Hin as (o & <- & Ho).
  apply filter_In in Ho. destruct Ho as [_ Hc].
  apply cancellable_true in Hc. apply Hc.
Qed.

Lemma cancelAllActiveOrders_safe (q : Process) :
  let '(q', next) := cancelAllActiveOrders q in
  evolves q q'
  /\ forall f, next = Some f -> frameSafe (tradingPairs (this q')) f.
Proof.
  unfold cancelAllActiveOrders.
  assert (Hids := activeOrders_are_exchange q).
  destruct (getAllActiveOrders q) as [|active actives];
    [split; [evolve|discriminate]|].
  set (ids := map ao_orderId (active :: actives)) in *. clearbody ids.
  destruct (ETHEREAL_SUBACCOUNT _) as [subaccount|];
    [|split; [evolve|discriminate]].
  destruct (truthy_string subaccount); [|split; [evolve|discriminate]].
  simpl. destruct (etherealService (this q)).
  - split; [evolve|]. intros f [= <-]. exact I.
  - split; [evolve|discriminate].
Qed.

Lemma evolves_cancelAllActiveOrders_resume (orderIds : list string)
    (response : Response) (q : Process) :
  evolves q (cancelAllActiveOrders_resume orderIds response q).
Proof.
  unfold cancelAllActiveOrders_resume. destruct response; [|evolve].
  apply evolves_emit; [|exact I].
  apply evolves_pairs; [apply evolves_refl|apply pairsStep_clearAllOrders].
Qed.

Lemma evolves_updateOrderStatus (orderUpdate : OrderUpdateEvent.t) (q : Process) :
  exchangeId (OrderUpdateEvent.id orderUpdate) ->
  evolves q (updateOrderStatus orderUpdate q).
Proof.
  intros Hid. unfold updateOrderStatus.
  assert (Hstep := pairsStep_updateOrderStatus_loop
                     (OrderUpdateEvent.id orderUpdate)
                     (OrderUpdateEvent.status orderUpdate)
                     (tradingPairs (this q)) Hid).
  assert (Hlog : Forall harmless
                   (snd (updateOrderStatus_loop
                           (OrderUpdateEvent.id orderUpdate)
                           (OrderUpdateEvent.status orderUpdate)
                           (tradingPairs (this q))))).
  { generalize (tradingPairs (this q)) as m.
    induction m as [|[k x] m IH]; simpl; [constructor|].
    unfold updateOrderStatus_entry.
    destruct (String.eqb _ "CANCELED" || String.eqb _ "EXPIRED");
      destruct (TradingPair.bidOrder x) as [b|];
      try destruct (String.eqb (Order.id b) _); simpl;
      destruct (TradingPair.askOrder x) as [a|];
      try destruct (String.eqb (Order.id a) _); simpl;
      try (repeat constructor);
      destruct (updateOrderStatus_loop _ _ m); simpl in *; exact IH. }
  destruct (updateOrderStatus_loop _ _ _) as [pairs log]. simpl in *.
  apply evolves_emits; [|exact Hlog].
  apply evolves_pairs; [apply evolves_refl|exact Hstep].
Qed.

Lemma quoteSafe_start (q q' : Process) (next : option Frame) :
  quoteSafe q -> evolves q q' ->
  (forall f, next = Some f -> frameSafe (tradingPairs (this q')) f) ->
  quoteSafe (suspend next q').
Proof.
  intros Hq Hstep Hnext. apply quoteSafe_suspend; [|exact Hnext].
  now apply (quoteSafe_evolves q).
Qed.

Lemma quoteSafe_takeSnapshot_entry (now : Z) (ticker : string)
    (priceUpdate : PriceUpdate.t) (p : Process) :
  quoteSafe p -> quoteSafe (takeSnapshot_entry now ticker priceUpdate p).
Proof.
  intros Hp. unfold takeSnapshot_entry.
  set (p1 := set_this p _).
  assert (H1 : quoteSafe p1).
  { apply (quoteSafe_evolves p); [exact Hp|]. subst p1. evolve. }
  clearbody p1. clear Hp.
  set (p2 := match deviationCheckService (this p1) with
             | Some _ => _
             | None => p1
             end).
  assert (H2 : quoteSafe p2).
  { subst p2. destruct (deviationCheckService (this p1)); [|exact H1].
    assert (H := checkOrdersAndPositions_safe now ticker
                   (PriceUpdate.price priceUpdate) p1 (proj1 H1)
                   (proj1 (proj2 H1))).
    destruct (checkOrdersAndPositions now ticker (PriceUpdate.price priceUpdate) p1)
      as [q' next].
    destruct H as [Hstep Hnext]. now apply (quoteSafe_start p1). }
  clearbody p2. clear H1.
  assert (H := checkAndCreateOrders_safe now ticker
                 (PriceUpdate.price priceUpdate) p2).
  destruct (checkAndCreateOrders now ticker (PriceUpdate.price priceUpdate) p2)
    as [p3 next].
  destruct H as [Hstep Hnext].
  assert (H3 : quoteSafe (suspend next p3)) by now apply (quoteSafe_start p2).
  assert (H4 : quoteSafe (cleanupCompletedTradingPairs ticker (suspend next p3))).
  { apply (quoteSafe_evolves (suspend next p3)); [exact H3|].
    apply evolves_cleanup, evolves_refl. }
  destruct (snapshotCallback _); [|exact H4].
  eapply quoteSafe_evolves; [exact H4|]. evolve.
Qed.

Lemma quoteSafe_takeSnapshot (now : Z) (p : Process) :
  quoteSafe p -> quoteSafe (takeSnapshot now p).
Proof.
  intros Hp. unfold takeSnapshot.
  set (q := emit _ p).
  assert (Hq : quoteSafe q).
  { apply (quoteSafe_evolves p); [exact Hp|]. subst q. evolve. }
  generalize (latestPrices (this q)) as prices.
  clearbody q. clear Hp. intros prices. revert q Hq.
  induction prices as [|[ticker priceUpdate] prices IH]; intros q Hq.
  - exact Hq.
  - simpl. destruct (throwsAtPush q ticker).
    + apply (quoteSafe_evolves q); [exact Hq|].
      unfold uncaughtException.
      apply (evolves_same q (emits [console_error (UncaughtTypeError ticker);
                                    process_exit 1] q)); try reflexivity.
      evolve.
    + apply IH. now apply quoteSafe_takeSnapshot_entry.
Qed.

Lemma quoteSafe_shutdown (p : Process) : quoteSafe p -> quoteSafe (shutdown p).
Proof.
  intros Hp. unfold shutdown.
  set (q := stop (emit (console_log ShutdownReceived) p)).
  assert (Hq : quoteSafe q).
  { apply (quoteSafe_evolves p); [exact Hp|]. subst q. unfold stop. simpl.
    destruct (snapshotTimer (this p)); evolve. }
  clearbody q. clear Hp.
  assert (H := cancelAllActiveOrders_safe q).
  destruct (cancelAllActiveOrders q) as [q' next].
  destruct H as [Hstep Hnext].
  destruct next as [f|].
  - now apply (quoteSafe_start q).
  - apply (quoteSafe_start q); [exact Hq|exact Hstep|].
    intros f [= <-]. exact I.
Qed.

Lemma evolves_shutdown_finish (q : Process) : evolves q (shutdown_finish q).
Proof.
  unfold shutdown_finish.
  apply (evolves_same q (emits [feeds_disconnect; console_log ShutdownComplete;
                                process_exit 0] q)); try reflexivity.
  evolve.
Qed.

Lemma quoteSafe_resume (i : nat) (frame : Frame) (response : Response)
    (now : Z) (p : Process) :
  pending p !! i = Some frame ->
  admissible (Settles i response now) ->
  quoteSafe p ->
  quoteSafe (resume frame response now (set_pending p (delete i (pending p)))).
Proof.
  intros Hi Hadm (Hkeys & Hsyn & Hframes & Hout).
  assert (Hframe : frameSafe (tradingPairs (this p)) frame).
  { rewrite Forall_forall in Hframes. apply Hframes.
    now apply list_elem_of_lookup_2 with i. }
  set (p0 := set_pending p (delete i (pending p))).
  assert (H0 : quoteSafe p0).
  { split; [exact Hkeys|]. split; [exact Hsyn|]. split; [|exact Hout].
    simpl. now apply Forall_delete. }
  assert (Hid : forall id, response = Resolved (Some id) -> exchangeId id).
  { intros id ->. exact Hadm. }
  destruct frame as [ticker key orderId sent shouldCancelAsk
                    |ticker key orderId sent
                    |ticker currentPrice config needsAskOrder bidOrder
                    |ticker askOrder|orderIds|]; simpl.
  - assert (H := checkOrdersAndPositions_resumeBid_safe ticker key orderId sent
                   shouldCancelAsk response p0 Hframe).
    destruct (checkOrdersAndPositions_resumeBid ticker key orderId sent
                shouldCancelAsk response p0) as [q' next].
    destruct H as [Hstep Hnext]. now apply (quoteSafe_start p0).
  - apply (quoteSafe_evolves p0); [exact H0|].
    apply evolves_checkOrdersAndPositions_resumeAsk.
  - assert (H := checkAndCreateOrders_resumeBid_safe now ticker currentPrice
                   config needsAskOrder bidOrder response p0 Hid).
    destruct (checkAndCreateOrders_resumeBid now ticker currentPrice config
                needsAskOrder bidOrder response p0) as [q' next].
    destruct H as [Hstep Hnext]. now apply (quoteSafe_start p0).
  - apply (quoteSafe_evolves p0); [exact H0|].
    now apply evolves_checkAndCreateOrders_resumeAsk.
  - apply (quoteSafe_evolves p0); [exact H0|].
    eapply evolves_trans; [apply evolves_cancelAllActiveOrders_resume|].
    apply evolves_shutdown_finish.
  - apply (quoteSafe_evolves p0); [exact H0|]. apply evolves_shutdown_finish.
Qed.

Lemma quoteSafe_step (e : Event) (p : Process) :
  admissible e -> quoteSafe p -> quoteSafe (step e p).
Proof.
  intros Hadm Hp. unfold step. destruct (exited p); [exact Hp|].
  destruct e as [priceUpdate|orderUpdate|now|i response now|].
  - apply (quoteSafe_evolves p); [exact Hp|]. unfold updatePrice. evolve.
  - apply (quoteSafe_evolves p); [exact Hp|].
    eapply evolves_trans; [|now apply evolves_updateOrderStatus]. evolve.
  - destruct (snapshotTimer (this p)); [|exact Hp].
    now apply quoteSafe_takeSnapshot.
  - destruct (pending p !! i) as [frame|] eqn:Hi; [|exact Hp].
    now apply quoteSafe_resume.
  - now apply quoteSafe_shutdown.
Qed.

Lemma quoteSafe_run (events : list Event) (p : Process) :
  Forall admissible events -> quoteSafe p -> quoteSafe (run events p).
Proof.
  revert p. induction events as [|e events IH]; intros p Hadm Hp.
  - exact Hp.
  - apply Forall_cons in Hadm. destruct Hadm as [He Hadm].
    simpl. apply IH; [exact Hadm|]. now apply quoteSafe_step.
Qed.

(** The warmup installs synthetic orders only. *)
Lemma positionsAreSynthetic_set (m : JSMap.t TradingPair.t) (k : string)
    (v : TradingPair.t) :
  positionsAreSynthetic m ->
  syntheticIfPosition (TradingPair.bidOrder v) ->
  syntheticIfPosition (TradingPair.askOrder v) ->
  positionsAreSynthetic (JSMap.set m k v).
Proof.
  intros Hm Hb Ha k' v' Hin.
  destruct (In_set m k v k' v' Hin) as [Hold|[-> ->]]; [now apply (Hm k')|].
  now split.
Qed.

Lemma quoteSafe_loadPosition (parseFloat : string -> number) (now : Z)
    (position : PositionData) (q : Process) :
  pending q = [] -> quoteSafe q ->
  quoteSafe (loadPosition parseFloat now position q).
Proof.
  intros Hpending (Hkeys & Hsyn & Hframes & Hout). unfold loadPosition.
  destruct (negb _); [exact (conj Hkeys (conj Hsyn (conj Hframes Hout)))|].
  set (ticker := default "" (positionTicker q position)).
  set (before := default (TradingPair.fresh ticker)
                         (JSMap.get (tradingPairs (this q)) ticker)).
  assert (Hbefore : syntheticIfPosition (TradingPair.bidOrder before)
                    /\ syntheticIfPosition (TradingPair.askOrder before)).
  { subst before.
    destruct (JSMap.get (tradingPairs (this q)) ticker) as [x|] eqn:Hget; simpl.
    - apply (Hsyn ticker). now apply get_In.
    - split; apply syntheticIfPosition_None. }
  destruct Hbefore as [Hb Ha].
  assert (Hfilled : forall o, Order.status o = Some "FILLED" ->
                              syntheticIfPosition (Some o)).
  { intros o Ho x [= <-] _. exact Ho. }
  destruct (gtb _ _); [|destruct (ltb _ _)]; unfold quoteSafe; simpl;
    (split; [now apply keys_set_NoDup|]);
    (split; [apply positionsAreSynthetic_set; simpl; auto|]);
    (split; [rewrite Hpending; constructor|]);
    rewrite ?app_nil_r; try assumption;
    apply Forall_app; (split; [assumption|repeat constructor]).
Qed.

Lemma quoteSafe_loadExistingPositions (parseFloat : string -> number) (now : Z)
    (subaccountId : string) (positions : PositionsOutcome) (q : Process) :
  pending q = [] -> quoteSafe q ->
  quoteSafe (loadExistingPositions parseFloat now subaccountId positions q).
Proof.
  intros Hpending Hq. unfold loadExistingPositions.
  destruct (etherealService (this q)); simpl;
    [|apply (quoteSafe_evolves q); [exact Hq|evolve]].
  set (r := emit _ (emit _ q)).
  assert (Hr : quoteSafe r /\ pending r = []).
  { split; [|exact Hpending]. apply (quoteSafe_evolves q); [exact Hq|].
    subst r. evolve. }
  clearbody r. destruct Hr as [Hr Hpr].
  destruct positions as [[data|]|].
  - assert (Hloop : quoteSafe
                      (fold_left
                         (fun p position => loadPosition parseFloat now position p)
                         data r)).
    { revert r Hr Hpr. induction data as [|position data IH]; intros r Hr Hpr.
      - exact Hr.
      - simpl. apply IH; [now apply quoteSafe_loadPosition|].
        unfold loadPosition. destruct (negb _); [exact Hpr|].
        destruct (gtb _ _); [|destruct (ltb _ _)]; exact Hpr. }
    eapply quoteSafe_evolves; [exact Hloop|]. evolve.
  - eapply quoteSafe_evolves; [exact Hr|]. evolve.
  - eapply quoteSafe_evolves; [exact Hr|]. evolve.
Qed.

Lemma quoteSafe_boot (parseFloat : string -> number) (now : Z)
    (config : MarketMakingConfig.t) (assets : list AssetConfig.t)
    (subaccountId : string) (subaccount : option string)
    (positions : PositionsOutcome) :
  quoteSafe (boot parseFloat now config assets subaccountId subaccount positions).
Proof.
  unfold boot.
  match goal with
  | |- context [loadExistingPositions _ _ _ _ ?q] => set (p0 := q)
  end.
  assert (Hp0 : quoteSafe p0 /\ pending p0 = []).
  { subst p0. split; [|now rewrite pending_setAssetConfigs].
    match goal with
    | |- quoteSafe (fold_left _ _ ?q) =>
        assert (Hq : quoteSafe q); [|generalize dependent q]
    end.
    - split; [constructor|]. split; [intros k x []|]. split; constructor.
    - induction assets as [|asset assets IH]; intros q Hq; [exact Hq|].
      simpl. apply IH. apply (quoteSafe_evolves q); [exact Hq|].
      unfold setAssetConfig. evolve. }
  destruct Hp0 as [Hp0 Hpending].
  assert (H := quoteSafe_loadExistingPositions parseFloat now subaccountId
                 positions p0 Hpending Hp0).
  eapply quoteSafe_evolves; [exact H|].
  unfold start, onSnapshot. simpl.
  destruct (snapshotTimer _); evolve.
Qed.

(** C7 as stated fails: reconciliation does not look at the namespace of an
    id, so an order update that names the synthetic bid with the status
    ['NEW'] makes it an order that the risk pass cancels; the cancel request
    of the next tick lists the synthetic id. *)
Lemma C7_synthetic_id_cancelled_counterexample :
  option_map (fun o => (Order.id o, Order.status o))
    (TradingPair.bidOrder
       (default (TradingPair.fresh "BTCUSD")
                (getTradingPair bootedWithPosition "BTCUSD")))
  = Some ("position-bid-BTCUSD_PERP", Some "FILLED")
  /\ In (post_orders_cancel
           (CancelOrderRequest.mk ["position-bid-BTCUSD_PERP"] "main"))
        (output (run syntheticReportedNew bootedWithPosition)).
Proof.
  split; [reflexivity|].
  vm_compute. repeat (first [left; reflexivity | right]).
Qed.

(** C7, amended. In every execution of the booted bot in which no order
    update and no placement response carries an id of the [position-]
    namespace, no cancel request sent to the exchange lists an id of that
    namespace, and no placement request carries an order id; and every order
    of that namespace held in a slot is a synthetic position order (status
    ['FILLED']).  So no synthetic position order is ever part of a placement
    or cancel request. *)
Theorem C7_synthetic_orders_never_sent (parseFloat : string -> number)
    (now0 : Z) (config : MarketMakingConfig.t) (assets : list AssetConfig.t)
    (subaccountId : string) (subaccount : option string)
    (positions : PositionsOutcome) (events : list Event) :
  Forall admissible events ->
  let p :=
    run events
        (boot parseFloat now0 config assets subaccountId subaccount positions) in
  (forall request id,
      In (post_orders_cancel request) (output p) ->
      In id (CancelOrderRequest.order_ids request) ->
      startsWith id "position-" = false)
  /\ (forall request,
        In (post_orders request) (output p) ->
        CreateOrderRequest.client_order_id request = None)
  /\ (forall ticker tradingPair o,
        In (ticker, tradingPair) (tradingPairs (this p)) ->
        TradingPair.bidOrder tradingPair = Some o
        \/ TradingPair.askOrder tradingPair = Some o ->
        startsWith (Order.id o) "position-" = true ->
        Order.status o = Some "FILLED").
Proof.
  intros Hadm p.
  assert (Hsafe : quoteSafe p) by (apply quoteSafe_run; [exact Hadm|apply quoteSafe_boot]).
  destruct Hsafe as (_ & Hsyn & _ & Hout).
  rewrite Forall_forall in Hout. split; [|split].
  - intros request id Hreq Hid.
    apply list_elem_of_In in Hreq. specialize (Hout _ Hreq). simpl in Hout.
    rewrite Forall_forall in Hout. apply Hout. now apply list_elem_of_In.
  - intros request Hreq.
    apply list_elem_of_In in Hreq. exact (Hout _ Hreq).
  - intros ticker tradingPair o Hin Hslot Hprefix.
    destruct (Hsyn ticker tradingPair Hin) as [Hb Ha].
    destruct Hslot as [Ho|Ho]; [now apply Hb|now apply Ha].
Qed.

End QuoteSafety.

(** ** The statements at the scenarios of the specification *)

Section Scenarios.
Import PriceSnapshotService.
Local Open Scope Q_scope.

(** The test of the boundary: a bid at 49000 against a mid price of 50000
    and a threshold of 1000 is not flagged. *)
Lemma C2_boundary_witness :
  Binary64.DeviationCheckService.shouldCancelBid
    (Binary64.DeviationCheckService.checkOrdersAndPositions
       (Binary64.bidAt (Binary64.literal 49000))
       (Binary64.MarketState.mk "BTCUSD" (Binary64.literal 50000)
          (Binary64.literal 49975) (Binary64.literal 50025)
          (Binary64.literal 1000) 0))
  = false.
Proof.
  destruct (C2_cancel_flag_iff_new_and_strictly_beyond
              (Binary64.bidAt (Binary64.literal 49000))
              (Binary64.MarketState.mk "BTCUSD" (Binary64.literal 50000)
                 (Binary64.literal 49975) (Binary64.literal 50025)
                 (Binary64.literal 1000) 0)) as (_ & _ & Hbid & _).
  apply (Hbid (Binary64.Order.mk "bid-1" "BTCUSD" BID (Binary64.literal 49000)
                 (Binary64.literal 1) (Binary64.literal 0) (Some "NEW"%string) 0));
    reflexivity.
Defined.


(** Scenario 6: the bulk cancel lists [B1] and [A1] and not the synthetic
    ask. *)
Lemma C1_shutdown_scenario_witness :
  exists subaccount orderIds,
    ETHEREAL_SUBACCOUNT shutdownScenario = Some subaccount
    /\ subaccount = "main"%string
    /\ orderIds = ["B1"; "A1"]%string
    /\ snd (cancelAllActiveOrders shutdownScenario)
       = Some (AwaitCancelAll orderIds).
Proof.
  destruct (C1_bulk_cancel_lists_the_live_orders shutdownScenario
              (fst (cancelAllActiveOrders shutdownScenario))
              (AwaitCancelAll ["B1"; "A1"]%string) eq_refl)
    as (subaccount & orderIds & Hsub & Hframe & _ & Hids & _).
  exists subaccount, orderIds.
  split; [exact Hsub|]. split; [now injection Hsub|].
  split; [exact Hids|]. now rewrite Hids.
Defined.

(** Scenario 6, continued: once the bulk cancel has succeeded every slot is
    empty, the synthetic one too. *)
Lemma C4_shutdown_scenario_witness :
  allSlotsEmpty
    (tradingPairs
       (this (cancelAllActiveOrders_resume ["B1"; "A1"]%string (Resolved None)
                (fst (cancelAllActiveOrders shutdownScenario))))).
Proof.
  destruct (C4_cancel_all_locks_slots_and_subaccount
              (fst (cancelAllActiveOrders shutdownScenario)))
    as (_ & Hcleared & _).
  apply Hcleared.
Defined.




(** The same mid price and threshold with other projection prices, ticker
    and time give the same decision. *)
Lemma C10_other_projection_witness :
  DeviationCheckService.checkOrdersAndPositions bidAtBoundary testMarketState
  = DeviationCheckService.checkOrdersAndPositions bidAtBoundary otherProjection.
Proof.
  apply (C10_checks_ignore_projection_prices bidAtBoundary testMarketState
           otherProjection); reflexivity.
Defined.

(** The run beside the position of scenario 5: its events are admissible,
    and the two cancels it sends list [A1] only. *)
Lemma C7_quote_beside_position_witness :
  Forall admissible quoteBesidePosition
  /\ forall request id,
       In (post_orders_cancel request)
          (output (run quoteBesidePosition bootedWithPosition)) ->
       In id (CancelOrderRequest.order_ids request) ->
       startsWith id "position-" = false.
Proof.
  assert (Hadm : Forall admissible quoteBesidePosition)
    by (repeat constructor).
  split; [exact Hadm|].
  exact (proj1 (C7_synthetic_orders_never_sent parseDecimal 0 exampleConfig
                  [btcConfig; ethConfig] "main" (Some "main"%string)
                  (PositionsResolved (Some [btcPosition]))
                  quoteBesidePosition Hadm)).
Defined.

(** The shutdown race, up to the signal: the timer runs and the two cancels
    in flight have different keys. *)
Lemma C9_before_shutdown_witness :
  let p :=
    run (quotedThenJump ++ [TimerFires 10000; TimerFires 15000]) bootedExample in
  snapshotTimer (this p) = true
  /\ forall i j fi fj triple,
       pending p !! i = Some fi -> pending p !! j = Some fj ->
       cancelTriple fi = Some triple -> cancelTriple fj = Some triple ->
       i = j.
Proof.
  intros p. split; [reflexivity|].
  destruct (C9_single_flight_until_shutdown parseDecimal 0 exampleConfig
              [btcConfig] "main" (Some "main"%string)
              (PositionsResolved (Some []))
              (quotedThenJump ++ [TimerFires 10000; TimerFires 15000]))
    as (_ & Hrunning & _).
  apply Hrunning. reflexivity.
Defined.

End Scenarios.

(** * Further properties of the code *)

(** ** The tick grid (roundToTickSize) *)

Section TickGrid.
Import PriceUtils.
Local Open Scope Q_scope.



End TickGrid.

(** ** The quotes that the placement requests carry *)

Section QuoteShape.
Import PriceUtils OrderUtils PriceSnapshotService.
Local Open Scope Q_scope.



(** X6. An order expires five minutes after the clock reading of its
    request, to the second: the expiry, in seconds, is the whole second of
    the clock reading plus [60 * minutes]; for the two placement requests it
    lies in the last second before [now + 300000] milliseconds. *)
Theorem placement_requests_expire_in_five_minutes (now : Z) (ticker : string)
    (mid : number) (config : AssetConfig.t) :
  (forall minutes,
      (1000 * generateExpiresAt now minutes <= now + minutes * 60000
       < 1000 * generateExpiresAt now minutes + 1000)%Z)
  /\ exists expiry,
       CreateOrderRequest.expires_at (bidOrderRequest now ticker mid config)
       = Some expiry
       /\ CreateOrderRequest.expires_at (askOrderRequest now ticker mid config)
          = Some expiry
       /\ CreateOrderRequest.time_in_force (bidOrderRequest now ticker mid config)
          = GTD
       /\ CreateOrderRequest.time_in_force (askOrderRequest now ticker mid config)
          = GTD
       /\ (now + 299000 < 1000 * expiry <= now + 300000)%Z.
Proof.
  assert (Hwindow : forall minutes,
             (1000 * generateExpiresAt now minutes <= now + minutes * 60000
              < 1000 * generateExpiresAt now minutes + 1000)%Z).
  { intros minutes. unfold generateExpiresAt.
    assert (Hlo := Z.mul_div_le now 1000 eq_refl).
    assert (Hhi := Z.mul_succ_div_gt now 1000 eq_refl).
    lia. }
  split; [exact Hwindow|].
  exists (generateExpiresAt now 5). repeat split; try reflexivity;
    specialize (Hwindow 5%Z); lia.
Qed.

End QuoteShape.

(** ** The handlers of the service, outcome by outcome *)

Section Handlers.
Import PriceSnapshotService.

Local Arguments DeviationCheckService.checkOrdersAndPositions : simpl never.
Local Arguments DeviationCheckService.calculateMarketState : simpl never.

(** Closes a goal [emitted p p' ?es] after the handler was unfolded. *)
Ltac emitted_by :=
  unfold emitted; simpl; rewrite <- ?app_assoc; simpl;
  first [reflexivity | symmetry; apply app_nil_r].




(** X11. A placement round quotes only the empty slots of its instrument:
    with an order in the bid slot (a synthetic position order included) it
    sends no buy request, with an order in the ask slot no sell request, and
    with both slots occupied it sends nothing and suspends nothing.  A round
    sends at most one request before it waits, never a cancel, and changes no
    trading pair; after the bid of a round that needed no ask, nothing more
    is sent. *)
Theorem placement_round_skips_occupied_slots (now : Z) (ticker : string)
    (currentPrice : number) (p : Process) :
  let p' := fst (checkAndCreateOrders now ticker currentPrice p) in
  let frame := snd (checkAndCreateOrders now ticker currentPrice p) in
  let tradingPair := default (TradingPair.fresh ticker) (getTradingPair p ticker) in
  (exists es,
      emitted p p' es /\ cancellations es = []
      /\ (length (placements es) <= 1)%nat
      /\ (TradingPair.bidOrder tradingPair <> None ->
          Forall (fun request => CreateOrderRequest.side request = 1%Z)
                 (placements es))
      /\ (TradingPair.askOrder tradingPair <> None ->
          Forall (fun request => CreateOrderRequest.side request = 0%Z)
                 (placements es))
      /\ (TradingPair.bidOrder tradingPair <> None ->
          TradingPair.askOrder tradingPair <> None ->
          placements es = [] /\ frame = None))
  /\ (TradingPair.askOrder tradingPair <> None ->
      forall t price config needsAskOrder bidOrder,
        frame = Some (AwaitPlaceBid t price config needsAskOrder bidOrder) ->
        needsAskOrder = false)
  /\ tradingPairs (this p') = tradingPairs (this p)
  /\ (forall config bidOrder order_id q,
         let next :=
           checkAndCreateOrders_resumeBid now ticker currentPrice config false
             bidOrder (Resolved order_id) q in
         snd next = None
         /\ placements (skipn (length (output q)) (output (fst next))) = []).
Proof.
  intros p' frame tradingPair. subst p' frame.
  assert (Hrest : forall config bidOrder order_id q,
             let next :=
               checkAndCreateOrders_resumeBid now ticker currentPrice config false
                 bidOrder (Resolved order_id) q in
             snd next = None
             /\ placements (skipn (length (output q)) (output (fst next))) = []).
  { intros config bidOrder order_id q. unfold checkAndCreateOrders_resumeBid.
    simpl. split; [reflexivity|]. unfold installPlaced.
    destruct (truthy_opt_string order_id); simpl;
      now rewrite drop_all. }
  unfold checkAndCreateOrders, createBidOrder, createAskOrder, creationFailed.
  unfold getTradingPair in tradingPair. fold tradingPair.
  destruct (etherealService (this p)) eqn:Hservice; simpl;
    [destruct (JSMap.get (assetConfigs (this p)) ticker) as [assetConfig|];
     [destruct (bool_decide _);
      [|destruct (TradingPair.bidOrder tradingPair) as [bid|],
                 (TradingPair.askOrder tradingPair) as [ask|]]|]|];
    simpl; rewrite ?Hservice; simpl.
  all: split;
    [eexists; split; [emitted_by|];
     split; [reflexivity|]; split; [simpl; lia|];
     split; [intros Hbid|split; [intros Hask|intros Hbid Hask]];
     try (now repeat constructor); try congruence; try (now split)
    |split; [intros Hask t price config needsAskOrder bidOrder [=]; congruence
            |split; [reflexivity|exact Hrest]]].
Qed.

Lemma released (x : string) (S : gset string) : x ∉ S ∖ {[x]}.
Proof. apply not_elem_of_difference. right. now apply elem_of_singleton. Qed.

(** X12. A bid placement that fails ends the round: the error is logged,
    the ask of the round is not attempted, no trading pair changes and the
    lock of the instrument is released.  A response that carries no order id
    installs nothing, but the round goes on to its ask.  An ask placement
    that fails releases the lock and leaves the trading pairs, the bid just
    installed included, as they are. *)
Theorem failed_placement_ends_the_round (now : Z) (ticker : string)
    (currentPrice : number) (config : AssetConfig.t) (needsAskOrder : bool)
    (bidOrder askOrder : CreateOrderRequest.t) (p : Process) :
  let failed :=
    checkAndCreateOrders_resumeBid now ticker currentPrice config needsAskOrder
      bidOrder Rejected p in
  (snd failed = None
   /\ tradingPairs (this (fst failed)) = tradingPairs (this p)
   /\ (ticker ∉ orderCreationInProgress (this (fst failed)))
   /\ emitted p (fst failed)
         [console_error AdapterErrorPlacingOrder;
          console_error (ErrorCreatingOrders ticker)])
  /\ (forall order_id,
         truthy_opt_string order_id = false ->
         let unnamed :=
           checkAndCreateOrders_resumeBid now ticker currentPrice config
             needsAskOrder bidOrder (Resolved order_id) p in
         tradingPairs (this (fst unnamed)) = tradingPairs (this p)
         /\ (needsAskOrder = true -> etherealService (this p) = true ->
             snd unnamed
             = Some (AwaitPlaceAsk ticker
                       (askOrderRequest now ticker currentPrice config))
             /\ exists es,
                  emitted p (fst unnamed) es
                  /\ placements es
                     = [askOrderRequest now ticker currentPrice config]))
  /\ (let failedAsk :=
        checkAndCreateOrders_resumeAsk now ticker askOrder Rejected p in
      tradingPairs (this failedAsk) = tradingPairs (this p)
      /\ (ticker ∉ orderCreationInProgress (this failedAsk))
      /\ emitted p failedAsk
            [console_error AdapterErrorPlacingOrder;
             console_error (ErrorCreatingOrders ticker)]).
Proof.
  intros failed. subst failed.
  unfold checkAndCreateOrders_resumeBid, checkAndCreateOrders_resumeAsk,
    creationFailed, createAskOrder, installPlaced.
  split; [|split].
  - split; [reflexivity|]. split; [reflexivity|].
    split; [simpl; apply released|emitted_by].
  - intros order_id Hid. rewrite Hid. split.
    + destruct needsAskOrder; [destruct (etherealService (this p)) eqn:Hservice|];
        simpl; rewrite ?Hservice; reflexivity.
    + intros -> Hservice. simpl. rewrite Hservice. simpl.
      split; [reflexivity|]. eexists. split; [emitted_by|reflexivity].
  - split; [reflexivity|]. split; [simpl; apply released|emitted_by].
Qed.

(** X13. The cleanup of an instrument acts only when both slots hold a
    ['FILLED'] order: it then empties both slots and keeps the recorded
    positions; in every other case it changes nothing.  After it, a
    placement round of a configured instrument whose lock is free quotes the
    bid and the ask anew, recorded positions or not. *)
Theorem filled_pair_is_cleared_and_requoted (now : Z) (ticker : string)
    (currentPrice : number) (p : Process) :
  let filled (slot : option Order.t) :=
    exists o, slot = Some o /\ Order.status o = Some "FILLED" in
  let p' := cleanupCompletedTradingPairs ticker p in
  (forall tradingPair,
      getTradingPair p ticker = Some tradingPair ->
      filled (TradingPair.bidOrder tradingPair) ->
      filled (TradingPair.askOrder tradingPair) ->
      getTradingPair p' ticker
      = Some (TradingPair.mk (TradingPair.ticker tradingPair) None None
                (TradingPair.longPosition tradingPair)
                (TradingPair.shortPosition tradingPair))
      /\ (forall other, other <> ticker ->
                        getTradingPair p' other = getTradingPair p other)
      /\ output p' = output p
      /\ forall config,
           etherealService (this p) = true ->
           JSMap.get (assetConfigs (this p)) ticker = Some config ->
           ticker ∉ orderCreationInProgress (this p) ->
           snd (checkAndCreateOrders now ticker currentPrice p')
           = Some (AwaitPlaceBid ticker currentPrice config true
                     (bidOrderRequest now ticker currentPrice config)))
  /\ ((forall tradingPair,
          getTradingPair p ticker = Some tradingPair ->
          ~ (filled (TradingPair.bidOrder tradingPair)
             /\ filled (TradingPair.askOrder tradingPair))) ->
      p' = p).
Proof.
  intros filled p'. subst p'.
  assert (Hfilled : forall slot,
             match slot with
             | Some o => is_string (Order.status o) "FILLED"
             | None => false
             end = true <-> filled slot).
  { intros [o|]; split.
    - intros H. exists o. split; [reflexivity|now apply is_string_true].
    - intros (o' & [= <-] & H). now apply is_string_true.
    - discriminate.
    - now intros (o' & [=] & _). }
  unfold cleanupCompletedTradingPairs, getTradingPair. split.
  - intros tradingPair Hpair Hbid Hask. rewrite Hpair.
    apply Hfilled in Hbid, Hask. rewrite Hbid, Hask. simpl.
    split; [now rewrite get_set_same|].
    split; [intros other Hne; apply get_set_other; congruence|].
    split; [reflexivity|].
    intros config Hservice Hconfig Hfree.
    unfold checkAndCreateOrders. simpl. rewrite Hservice, Hconfig. simpl.
    rewrite bool_decide_eq_false_2 by exact Hfree.
    rewrite get_set_same. simpl. unfold createBidOrder. simpl.
    now rewrite Hservice.
  - intros Hnot.
    destruct (JSMap.get (tradingPairs (this p)) ticker) as [tradingPair|] eqn:Hpair;
      [|reflexivity].
    destruct (match TradingPair.bidOrder tradingPair with
              | Some o => is_string (Order.status o) "FILLED"
              | None => false
              end) eqn:Hbid; [|reflexivity].
    destruct (match TradingPair.askOrder tradingPair with
              | Some o => is_string (Order.status o) "FILLED"
              | None => false
              end) eqn:Hask; [|reflexivity].
    exfalso. apply (Hnot tradingPair eq_refl). split; now apply Hfilled.
Qed.

(** Reading a key of the plain object. *)
Lemma property_Own {V : Type} (own : JSMap.t V) (key : string) (value : V) :
  property own key = Own value <-> JSMap.get own key = Some value.
Proof.
  unfold property. destruct (JSMap.get own key) as [v|].
  - split; congruence.
  - destruct (inherited key); split; discriminate.
Qed.

Lemma property_Inherited {V : Type} (own : JSMap.t V) (key : string) :
  property own key = Inherited
  <-> JSMap.get own key = None /\ inherited key = true.
Proof.
  unfold property. destruct (JSMap.get own key) as [v|].
  - split; [discriminate|]. now intros [? _].
  - destruct (inherited key); split; try discriminate.
    + now split.
    + reflexivity.
    + now intros [_ H].
Qed.

(** X14. The windows on the history of an instrument: a count of [n > 0]
    returns the last [n] snapshots, or all of them when there are fewer; no
    count, or a count of zero, returns all of them; an instrument without
    history has an empty window; and the latest snapshot is the last one of
    every window.  This holds for an instrument that has a history or whose
    ticker is no name of [Object.prototype]; for a ticker that is such a name
    and has no history, the result without a count is the inherited member
    and no array, with a count the call throws, and there is no latest
    snapshot. *)
Theorem getSnapshots_returns_the_latest (p : Process) (ticker : string) :
  (JSMap.get (snapshots (this p)) ticker <> None \/ inherited ticker = false ->
   exists all,
     getSnapshots p ticker None = SnapshotList all
     /\ getSnapshots p ticker (Some 0%nat) = SnapshotList all
     /\ (forall n,
           exists window,
             getSnapshots p ticker (Some (S n)) = SnapshotList window
             /\ length window = Nat.min (S n) (length all)
             /\ (exists older, all = older ++ window)
             /\ last window = getLatestSnapshot p ticker)
     /\ getLatestSnapshot p ticker = last all
     /\ (JSMap.get (snapshots (this p)) ticker = None ->
         all = [] /\ getLatestSnapshot p ticker = None))
  /\ (JSMap.get (snapshots (this p)) ticker = None ->
      inherited ticker = true ->
      getSnapshots p ticker None = InheritedMember
      /\ getSnapshots p ticker (Some 0%nat) = InheritedMember
      /\ (forall n, getSnapshots p ticker (Some (S n)) = ThrowsTypeError)
      /\ getLatestSnapshot p ticker = None).
Proof.
  unfold getSnapshots, getLatestSnapshot, property. split.
  - intros Hordinary.
    destruct (JSMap.get (snapshots (this p)) ticker) as [history|].
    + exists history. split; [reflexivity|]. split; [reflexivity|].
      split; [|split; [reflexivity|discriminate]].
      intros n. eexists. split; [reflexivity|].
      unfold slice_last. split; [rewrite length_drop; lia|].
      split; [exists (take (length history - S n) history);
              now rewrite take_drop|].
      rewrite <- (take_drop (length history - S n) history) at 3.
      rewrite last_app.
      destruct (last (drop (length history - S n) history)) eqn:Hlast;
        [reflexivity|].
      apply last_None in Hlast. apply drop_nil_inv in Hlast.
      assert (Hempty : history = [])
        by (destruct history; [reflexivity|simpl in *; lia]).
      now rewrite Hempty.
    + destruct Hordinary as [Hown|Hname]; [congruence|]. rewrite Hname.
      exists []. split; [reflexivity|]. split; [reflexivity|].
      split; [|split; [reflexivity|now split]].
      intros n. exists []. split; [reflexivity|].
      split; [reflexivity|]. split; [now exists []|reflexivity].
  - intros -> ->. repeat split.
Qed.

End Handlers.

(** ** What the handlers leave alone *)

Section Backdrop.
Import PriceSnapshotService.

Local Arguments DeviationCheckService.checkOrdersAndPositions : simpl never.
Local Arguments DeviationCheckService.calculateMarketState : simpl never.

(** Follows the tests of a handler down to its leaves. *)
Ltac by_cases :=
  repeat first
    [ progress simpl
    | match goal with
      | |- context [if ?c then _ else _] => destruct c eqn:?
      | |- context [match ?x with Some _ => _ | None => _ end] => destruct x eqn:?
      | |- context [match ?x with Resolved _ => _ | Rejected => _ end] => destruct x
      | |- context [match ?x with BID => _ | ASK => _ end] => destruct x
      | |- context [match ?x with (_, _) => _ end] => destruct x eqn:?
      end ];
  try reflexivity.

Lemma backdrop_emit (e : Effect) (p : Process) : backdrop (emit e p) = backdrop p.
Proof. reflexivity. Qed.

Lemma backdrop_suspend (next : option Frame) (p : Process) :
  backdrop (suspend next p) = backdrop p.
Proof. now destruct next. Qed.

Lemma backdrop_cancelOrder (ticker orderId : string) (side : OrderSide)
    (p : Process) :
  backdrop (fst (cancelOrder ticker orderId side p)) = backdrop p.
Proof. unfold cancelOrder. by_cases. Qed.

Lemma backdrop_cancelOrder_resume (ticker orderId : string) (side : OrderSide)
    (response : Response) (p : Process) :
  backdrop (cancelOrder_resume ticker orderId side response p) = backdrop p.
Proof. unfold cancelOrder_resume. by_cases. Qed.

Lemma backdrop_cancelAskIfFlagged (ticker : string) (shouldCancelAsk : bool)
    (tradingPair : TradingPair.t) (p : Process) :
  backdrop (fst (cancelAskIfFlagged ticker shouldCancelAsk tradingPair p))
  = backdrop p.
Proof. unfold cancelAskIfFlagged, cancelOrder. by_cases. Qed.

Lemma backdrop_checkOrdersAndPositions (now : Z) (ticker : string)
    (currentPrice : number) (p : Process) :
  backdrop (fst (checkOrdersAndPositions now ticker currentPrice p)) = backdrop p.
Proof.
  unfold checkOrdersAndPositions.
  destruct (deviationCheckService (this p)) as [service|]; [|reflexivity].
  destruct (etherealService (this p)); [|reflexivity]. cbn.
  destruct (JSMap.get (tradingPairs (this p)) ticker) as [tradingPair|];
    [|reflexivity].
  destruct (JSMap.get (assetConfigs (this p)) ticker) as [assetConfig|];
    [|reflexivity].
  match goal with
  | |- context [DeviationCheckService.shouldCancelBid ?c] => set (checks := c)
  end.
  clearbody checks.
  destruct (DeviationCheckService.shouldCancelBid checks),
           (TradingPair.bidOrder tradingPair) as [bidOrder|];
    try apply backdrop_cancelAskIfFlagged.
  destruct (bool_decide _).
  - now rewrite backdrop_cancelAskIfFlagged.
  - unfold cancelOrder. by_cases.
Qed.

Lemma backdrop_deleteCancellation (key : string) (p : Process) :
  backdrop (deleteCancellation key p) = backdrop p.
Proof. reflexivity. Qed.

Lemma backdrop_checkOrdersAndPositions_resumeBid (ticker key orderId : string)
    (sent shouldCancelAsk : bool) (response : Response) (p : Process) :
  backdrop (fst (checkOrdersAndPositions_resumeBid ticker key orderId sent
                   shouldCancelAsk response p))
  = backdrop p.
Proof.
  unfold checkOrdersAndPositions_resumeBid.
  set (q := if sent then cancelOrder_resume ticker orderId BID response p else p).
  assert (Hq : backdrop q = backdrop p).
  { subst q. destruct sent; [apply backdrop_cancelOrder_resume|reflexivity]. }
  destruct (JSMap.get _ ticker) as [tradingPair|].
  - now rewrite backdrop_cancelAskIfFlagged, backdrop_deleteCancellation.
  - simpl fst. now rewrite backdrop_deleteCancellation.
Qed.

Lemma backdrop_checkOrdersAndPositions_resumeAsk (ticker key orderId : string)
    (sent : bool) (response : Response) (p : Process) :
  backdrop (checkOrdersAndPositions_resumeAsk ticker key orderId sent response p)
  = backdrop p.
Proof.
  unfold checkOrdersAndPositions_resumeAsk.
  rewrite backdrop_deleteCancellation.
  destruct sent; [apply backdrop_cancelOrder_resume|reflexivity].
Qed.

Lemma backdrop_installPlaced (now : Z) (ticker : string) (side : OrderSide)
    (request : CreateOrderRequest.t) (order_id : option string) (p : Process) :
  backdrop (installPlaced now ticker side request order_id p) = backdrop p.
Proof. unfold installPlaced. by_cases. Qed.

Lemma backdrop_checkAndCreateOrders (now : Z) (ticker : string)
    (currentPrice : number) (p : Process) :
  backdrop (fst (checkAndCreateOrders now ticker currentPrice p)) = backdrop p.
Proof.
  unfold checkAndCreateOrders, createBidOrder, createAskOrder, creationFailed.
  by_cases.
Qed.

Lemma backdrop_checkAndCreateOrders_resumeBid (now : Z) (ticker : string)
    (currentPrice : number) (config : AssetConfig.t) (needsAskOrder : bool)
    (bidOrder : CreateOrderRequest.t) (response : Response) (p : Process) :
  backdrop (fst (checkAndCreateOrders_resumeBid now ticker currentPrice config
                   needsAskOrder bidOrder response p))
  = backdrop p.
Proof.
  unfold checkAndCreateOrders_resumeBid, createAskOrder, creationFailed.
  destruct response as [order_id|]; [|reflexivity].
  assert (Hq := backdrop_installPlaced now ticker BID bidOrder order_id p).
  set (q := installPlaced now ticker BID bidOrder order_id p) in *.
  destruct needsAskOrder; [|exact Hq].
  simpl. destruct (etherealService (this q)); exact Hq.
Qed.

Lemma backdrop_checkAndCreateOrders_resumeAsk (now : Z) (ticker : string)
    (askOrder : CreateOrderRequest.t) (response : Response) (p : Process) :
  backdrop (checkAndCreateOrders_resumeAsk now ticker askOrder response p)
  = backdrop p.
Proof.
  unfold checkAndCreateOrders_resumeAsk, creationFailed.
  destruct response as [order_id|]; [|reflexivity].
  apply (backdrop_installPlaced now ticker ASK askOrder order_id p).
Qed.

Lemma backdrop_cleanup (ticker : string) (p : Process) :
  backdrop (cleanupCompletedTradingPairs ticker p) = backdrop p.
Proof. unfold cleanupCompletedTradingPairs. by_cases. Qed.

Lemma backdrop_updateOrderStatus (orderUpdate : OrderUpdateEvent.t) (p : Process) :
  backdrop (updateOrderStatus orderUpdate p) = backdrop p.
Proof.
  unfold updateOrderStatus. now destruct (updateOrderStatus_loop _ _ _).
Qed.

Lemma backdrop_stop (p : Process) : backdrop (stop p) = backdrop p.
Proof. unfold stop. by_cases. Qed.

Lemma backdrop_cancelAllActiveOrders (p : Process) :
  backdrop (fst (cancelAllActiveOrders p)) = backdrop p.
Proof. unfold cancelAllActiveOrders. by_cases. Qed.

Lemma backdrop_cancelAllActiveOrders_resume (orderIds : list string)
    (response : Response) (p : Process) :
  backdrop (cancelAllActiveOrders_resume orderIds response p) = backdrop p.
Proof. unfold cancelAllActiveOrders_resume. by_cases. Qed.

Lemma backdrop_shutdown (p : Process) : backdrop (shutdown p) = backdrop p.
Proof.
  unfold shutdown.
  assert (H := backdrop_cancelAllActiveOrders
                 (stop (emit (console_log ShutdownReceived) p))).
  destruct (cancelAllActiveOrders _) as [q frame]. simpl in H.
  rewrite backdrop_stop, backdrop_emit in H.
  destruct frame; exact H.
Qed.

Lemma backdrop_resume (frame : Frame) (response : Response) (now : Z)
    (p : Process) :
  backdrop (resume frame response now p) = backdrop p.
Proof.
  destruct frame as [ticker key orderId sent shouldCancelAsk
                    |ticker key orderId sent
                    |ticker currentPrice config needsAskOrder bidOrder
                    |ticker askOrder|orderIds|]; simpl.
  - assert (H := backdrop_checkOrdersAndPositions_resumeBid ticker key orderId
                   sent shouldCancelAsk response p).
    destruct (checkOrdersAndPositions_resumeBid _ _ _ _ _ _ _) as [q next].
    now rewrite backdrop_suspend.
  - apply backdrop_checkOrdersAndPositions_resumeAsk.
  - assert (H := backdrop_checkAndCreateOrders_resumeBid now ticker currentPrice
                   config needsAskOrder bidOrder response p).
    destruct (checkAndCreateOrders_resumeBid _ _ _ _ _ _ _ _) as [q next].
    now rewrite backdrop_suspend.
  - apply backdrop_checkAndCreateOrders_resumeAsk.
  - apply (backdrop_cancelAllActiveOrders_resume orderIds response p).
  - reflexivity.
Qed.

(** A tick changes, for one instrument, the history and nothing else of the
    backdrop. *)
Lemma backdrop_takeSnapshot_entry (now : Z) (ticker : string)
    (priceUpdate : PriceUpdate.t) (p : Process) :
  let p' := takeSnapshot_entry now ticker priceUpdate p in
  wiring p' = wiring p
  /\ latestPrices (this p') = latestPrices (this p)
  /\ snapshots (this p')
     = JSMap.set (snapshots (this p)) ticker
         (extended (default [] (JSMap.get (snapshots (this p)) ticker))
            (PriceSnapshot.mk ticker (PriceUpdate.price priceUpdate)
               (PriceUpdate.confidence priceUpdate) now)).
Proof.
  cbv zeta. unfold takeSnapshot_entry.
  set (p1 := set_this p _).
  set (p2 := match deviationCheckService (this p1) with
             | Some _ => _
             | None => p1
             end).
  assert (H2 : backdrop p2 = backdrop p1).
  { subst p2. destruct (deviationCheckService (this p1)); [|reflexivity].
    assert (H := backdrop_checkOrdersAndPositions now ticker
                   (PriceUpdate.price priceUpdate) p1).
    destruct (checkOrdersAndPositions _ _ _ p1) as [q next].
    now rewrite backdrop_suspend. }
  clearbody p2.
  assert (H3 := backdrop_checkAndCreateOrders now ticker
                  (PriceUpdate.price priceUpdate) p2).
  destruct (checkAndCreateOrders _ _ _ p2) as [p3 next]. simpl in H3.
  set (p4 := cleanupCompletedTradingPairs ticker (suspend next p3)).
  assert (H4 : backdrop p4 = backdrop p1).
  { subst p4. now rewrite backdrop_cleanup, backdrop_suspend, H3. }
  clearbody p4.
  match goal with |- wiring ?x = _ /\ _ => set (p5 := x) end.
  assert (H5 : backdrop p5 = backdrop p1)
    by (subst p5; destruct (snapshotCallback (this p4)); exact H4).
  clearbody p5. unfold backdrop, wiring, feed in *.
  injection H5 as -> -> -> -> -> -> -> ->.
  repeat split.
Qed.

End Backdrop.

(** ** Maps with distinct keys *)

Section JSMapKeys.
Context {V : Type}.
Implicit Types (m : JSMap.t V) (k : string) (v : V).

Lemma keys_set m k v k' :
  k' ∈ JSMap.keys (JSMap.set m k v) <-> k' ∈ JSMap.keys m \/ k' = k.
Proof.
  unfold JSMap.keys. induction m as [|[k0 v0] m IH]; simpl.
  - rewrite list_elem_of_singleton. split; [now right|].
    now intros [H|H]; [apply elem_of_nil in H|].
  - destruct (String.eqb k0 k) eqn:E; simpl.
    + apply String.eqb_eq in E. subst k0. rewrite !elem_of_cons. tauto.
    + rewrite !elem_of_cons, IH. tauto.
Qed.

Lemma keys_set_distinct m k v :
  NoDup (JSMap.keys m) -> NoDup (JSMap.keys (JSMap.set m k v)).
Proof.
  unfold JSMap.keys. induction m as [|[k0 v0] m IH]; simpl; intros Hm.
  - apply NoDup_singleton.
  - apply NoDup_cons in Hm. destruct Hm as [Hfresh Hm].
    destruct (String.eqb k0 k) eqn:E; simpl.
    + apply String.eqb_eq in E. subst k0. apply NoDup_cons. now split.
    + apply String.eqb_neq in E. apply NoDup_cons. split; [|now apply IH].
      intros H. apply (keys_set m k v k0) in H.
      destruct H as [H|H]; [contradiction|congruence].
Qed.

(** With distinct keys an entry of the list is what [get] returns. *)
Lemma In_get_distinct m k v :
  NoDup (JSMap.keys m) -> In (k, v) m -> JSMap.get m k = Some v.
Proof.
  unfold JSMap.keys. induction m as [|[k0 v0] m IH]; simpl; intros Hm Hin.
  - contradiction.
  - apply NoDup_cons in Hm. destruct Hm as [Hfresh Hm].
    destruct Hin as [[= -> ->]|Hin]; [now rewrite String.eqb_refl|].
    destruct (String.eqb k0 k) eqn:E; [|now apply IH].
    apply String.eqb_eq in E. subst k0. exfalso. apply Hfresh.
    apply list_elem_of_In. apply (in_map fst) in Hin. exact Hin.
Qed.

(** Setting a key twice is setting it to the second value. *)
Lemma set_set m k v v' : JSMap.set (JSMap.set m k v) k v' = JSMap.set m k v'.
Proof.
  induction m as [|[k0 v0] m IH]; simpl.
  - now rewrite String.eqb_refl.
  - destruct (String.eqb k0 k) eqn:E; simpl.
    + now rewrite String.eqb_refl.
    + now rewrite E, IH.
Qed.

End JSMapKeys.

(** ** The feed: prices in, snapshots out *)

Section Feed.
Import PriceSnapshotService.

Lemma length_extended (history : list PriceSnapshot.t) (snapshot : PriceSnapshot.t) :
  (length history <= 100)%nat ->
  length (extended history snapshot) = Nat.min 100 (S (length history))
  /\ last (extended history snapshot) = Some snapshot.
Proof.
  intros Hcap. unfold extended, slice_last. cbv zeta.
  rewrite length_app. simpl length.
  destruct (100 <? length history + 1)%nat eqn:E.
  - apply Nat.ltb_lt in E.
    rewrite length_drop, length_app. simpl length. split; [lia|].
    replace (length history + 1 - 100)%nat with 1%nat by lia.
    destruct history as [|x history]; [simpl in E; lia|].
    simpl. rewrite drop_0. apply last_snoc.
  - apply Nat.ltb_ge in E. rewrite length_app. simpl length.
    split; [lia|apply last_snoc].
Qed.

Lemma capped_set (histories : JSMap.t (list PriceSnapshot.t)) (ticker : string)
    (history : list PriceSnapshot.t) :
  capped histories -> (length history <= 100)%nat ->
  capped (JSMap.set histories ticker history).
Proof.
  intros Hcap Hlen k l Hin. apply In_set in Hin.
  destruct Hin as [Hin|[_ ->]]; [now apply (Hcap k)|exact Hlen].
Qed.

Lemma capped_get (histories : JSMap.t (list PriceSnapshot.t)) (ticker : string) :
  capped histories ->
  (length (default [] (JSMap.get histories ticker)) <= 100)%nat.
Proof.
  intros Hcap. destruct (JSMap.get histories ticker) as [l|] eqn:Hget.
  - apply get_In in Hget. now apply (Hcap ticker).
  - simpl. lia.
Qed.

Lemma throwsAtPush_true (p : Process) (ticker : string) :
  throwsAtPush p ticker = true
  <-> JSMap.get (snapshots (this p)) ticker = None /\ inherited ticker = true.
Proof.
  unfold throwsAtPush. rewrite <- property_Inherited.
  destruct (property (snapshots (this p)) ticker); split;
    congruence.
Qed.

(** A ticker at which the tick does not throw is no name of
    [Object.prototype], when no history is kept under such a name. *)
Lemma throwsAtPush_false (p : Process) (ticker : string) :
  ownKeysOrdinary (snapshots (this p)) ->
  throwsAtPush p ticker = false -> inherited ticker = false.
Proof.
  intros Hown Hpush. destruct (inherited ticker) eqn:Hname; [|reflexivity].
  destruct (JSMap.get (snapshots (this p)) ticker) as [history|] eqn:Hget.
  - apply get_In in Hget. rewrite <- (Hown _ _ Hget). now rewrite Hname.
  - assert (H : throwsAtPush p ticker = true) by now apply throwsAtPush_true.
    congruence.
Qed.

Lemma ownKeysOrdinary_set (histories : JSMap.t (list PriceSnapshot.t))
    (ticker : string) (history : list PriceSnapshot.t) :
  ownKeysOrdinary histories -> inherited ticker = false ->
  ownKeysOrdinary (JSMap.set histories ticker history).
Proof.
  intros Hown Hname k l Hin. apply In_set in Hin.
  destruct Hin as [Hin|[-> _]]; [now apply (Hown k l)|exact Hname].
Qed.

(** What a tick does to the backdrop: to the history of every instrument
    with a latest price, in the order of the prices, up to the first ticker
    at which it throws. *)
Lemma backdrop_takeSnapshot_loop (now : Z)
    (prices : JSMap.t PriceUpdate.t) (p : Process) :
  let p' := takeSnapshot_loop now prices p in
  wiring p' = wiring p
  /\ latestPrices (this p') = latestPrices (this p)
  /\ (capped (snapshots (this p)) -> capped (snapshots (this p')))
  /\ (ownKeysOrdinary (snapshots (this p)) ->
      ownKeysOrdinary (snapshots (this p')))
  /\ (forall ticker, ticker ∉ JSMap.keys prices ->
                     JSMap.get (snapshots (this p')) ticker
                     = JSMap.get (snapshots (this p)) ticker)
  /\ ((forall ticker, ticker ∈ JSMap.keys prices -> inherited ticker = false) ->
      NoDup (JSMap.keys prices) -> capped (snapshots (this p)) ->
      forall ticker priceUpdate,
        In (ticker, priceUpdate) prices ->
        exists history,
          JSMap.get (snapshots (this p')) ticker = Some history
          /\ last history
             = Some (PriceSnapshot.mk ticker (PriceUpdate.price priceUpdate)
                       (PriceUpdate.confidence priceUpdate) now)
          /\ length history
             = Nat.min 100
                 (S (length (default [] (JSMap.get (snapshots (this p)) ticker)))))
  /\ (ownKeysOrdinary (snapshots (this p)) ->
      forall ticker, ticker ∈ JSMap.keys prices -> inherited ticker = true ->
      exited p' = true /\ last (output p') = Some (process_exit 1)).
Proof.
  revert p. induction prices as [|[k u] prices IH]; intros p; cbv zeta.
  - simpl. split; [reflexivity|]. split; [reflexivity|]. split; [trivial|].
    split; [trivial|]. split; [reflexivity|].
    split; [intros _ _ _ ticker priceUpdate []|].
    intros _ ticker Hin. now apply elem_of_nil in Hin.
  - cbn [takeSnapshot_loop]. destruct (throwsAtPush p k) eqn:Hpush.
    + apply throwsAtPush_true in Hpush. destruct Hpush as [Hget Hname].
      split; [reflexivity|]. split; [reflexivity|]. split; [trivial|].
      split; [trivial|]. split; [reflexivity|]. split.
      * intros Hordinary. exfalso.
        assert (H : inherited k = false)
          by (apply Hordinary; simpl; apply list_elem_of_here).
        congruence.
      * intros _ ticker _ _. split; [reflexivity|].
        unfold uncaughtException. simpl.
        change [console_error (UncaughtTypeError k); process_exit 1]
          with ([console_error (UncaughtTypeError k)] ++ [process_exit 1]).
        rewrite app_assoc. apply last_snoc.
    + destruct (backdrop_takeSnapshot_entry now k u p) as (Hw & Hl & Hs).
      set (q := takeSnapshot_entry now k u p) in *.
      destruct (IH q) as (Hw' & Hl' & Hc' & Hn' & Ho' & Hin' & Hcrash').
      assert (Hq : capped (snapshots (this p)) -> capped (snapshots (this q))).
      { intros Hcap. rewrite Hs. apply capped_set; [exact Hcap|].
        destruct (length_extended
                    (default [] (JSMap.get (snapshots (this p)) k))
                    (PriceSnapshot.mk k (PriceUpdate.price u)
                       (PriceUpdate.confidence u) now)
                    (capped_get _ k Hcap)) as [Hlen _].
        lia. }
      assert (Hqn : ownKeysOrdinary (snapshots (this p)) ->
                    ownKeysOrdinary (snapshots (this q))).
      { intros Hown. rewrite Hs. apply ownKeysOrdinary_set; [exact Hown|].
        now apply (throwsAtPush_false p). }
      split; [congruence|]. split; [congruence|]. split; [tauto|].
      split; [tauto|]. split; [|split].
      * intros ticker Hfresh. simpl in Hfresh.
        apply not_elem_of_cons in Hfresh. destruct Hfresh as [Hne Hfresh].
        rewrite (Ho' ticker Hfresh), Hs. now apply get_set_other.
      * intros Hordinary Hdistinct Hcap ticker priceUpdate Hin.
        simpl in Hdistinct.
        apply NoDup_cons in Hdistinct. destruct Hdistinct as [Hfresh Hdistinct].
        assert (Hrest : forall t, t ∈ JSMap.keys prices -> inherited t = false)
          by (intros t Ht; apply Hordinary; simpl; now apply list_elem_of_further).
        destruct Hin as [[= -> ->]|Hin].
        -- rewrite (Ho' ticker Hfresh), Hs, get_set_same.
           destruct (length_extended
                       (default [] (JSMap.get (snapshots (this p)) ticker))
                       (PriceSnapshot.mk ticker (PriceUpdate.price priceUpdate)
                          (PriceUpdate.confidence priceUpdate) now)
                       (capped_get _ ticker Hcap)) as [Hlen Hlast].
           eexists. split; [reflexivity|]. now split.
        -- assert (Hne : ticker <> k).
           { intros ->. apply Hfresh. apply list_elem_of_In.
             apply (in_map fst) in Hin. exact Hin. }
           destruct (Hin' Hrest Hdistinct (Hq Hcap) ticker priceUpdate Hin)
             as (history & Hget & Hlast & Hlen).
           exists history. split; [exact Hget|]. split; [exact Hlast|].
           rewrite Hlen, Hs. now rewrite get_set_other.
      * intros Hown ticker Hin Hname. simpl in Hin.
        apply elem_of_cons in Hin. destruct Hin as [->|Hin].
        -- assert (H := throwsAtPush_false p k Hown Hpush). congruence.
        -- exact (Hcrash' (Hqn Hown) ticker Hin Hname).
Qed.

End Feed.

(** ** Invariants of the running bot: the feed *)

Section FeedInvariants.
Import PriceSnapshotService.

(** After the end of the process no event does anything. *)
Lemma run_exited (events : list Event) (p : Process) :
  exited p = true -> run events p = p.
Proof.
  intros Hexited. induction events as [|e events IH]; [reflexivity|].
  simpl. assert (Hstep : step e p = p) by (unfold step; now rewrite Hexited).
  rewrite Hstep. exact IH.
Qed.

Lemma feed_loadPosition (parseFloat : string -> number) (now : Z)
    (position : PositionData) (p : Process) :
  feed (loadPosition parseFloat now position p) = feed p.
Proof.
  unfold loadPosition. destruct (negb _); [reflexivity|].
  destruct (gtb _ _); [reflexivity|]. destruct (ltb _ _); reflexivity.
Qed.

Lemma feed_loadExistingPositions (parseFloat : string -> number) (now : Z)
    (subaccountId : string) (positions : PositionsOutcome) (p : Process) :
  feed (loadExistingPositions parseFloat now subaccountId positions p) = feed p.
Proof.
  unfold loadExistingPositions.
  destruct (etherealService (this p)); [|reflexivity]. simpl.
  destruct positions as [[data|]|]; try reflexivity. simpl.
  set (q := emit _ (emit _ p)).
  change (feed p) with (feed q). generalize q. clear q.
  induction data as [|position data IH]; intros q; [reflexivity|].
  simpl. now rewrite IH, feed_loadPosition.
Qed.

Lemma feed_setAssetConfigs (assets : list AssetConfig.t) (q : Process) :
  feed (fold_left
          (fun p asset => setAssetConfig (AssetConfig.ticker asset) asset p)
          assets q)
  = feed q.
Proof.
  revert q. induction assets as [|asset assets IH]; intros q; [reflexivity|].
  simpl. now rewrite IH.
Qed.

(** The bot starts without prices and without histories. *)
Lemma feed_boot (parseFloat : string -> number) (now : Z)
    (config : MarketMakingConfig.t) (assets : list AssetConfig.t)
    (subaccountId : string) (subaccount : option string)
    (positions : PositionsOutcome) :
  feed (boot parseFloat now config assets subaccountId subaccount positions)
  = ([], []).
Proof.
  unfold boot, start, onSnapshot.
  match goal with
  | |- context [loadExistingPositions _ _ _ _ ?q] => set (p0 := q)
  end.
  assert (H := feed_loadExistingPositions parseFloat now subaccountId
                 positions p0).
  assert (H0 : feed p0 = ([], [])) by (subst p0; now rewrite feed_setAssetConfigs).
  destruct (snapshotTimer _); unfold feed in *; simpl; congruence.
Qed.

Lemma orderly_backdrop (p q : Process) :
  backdrop q = backdrop p -> orderly p -> orderly q.
Proof.
  unfold backdrop, feed, orderly. intros [= _ _ _ _ _ _ -> ->]. trivial.
Qed.

Lemma orderly_takeSnapshot (now : Z) (p : Process) :
  orderly p -> orderly (takeSnapshot now p).
Proof.
  intros (Hdistinct & Hcap & Hown). unfold takeSnapshot.
  set (q := emit _ p).
  destruct (backdrop_takeSnapshot_loop now (latestPrices (this q)) q)
    as (_ & Hprices & Hcapped & Hordinary & _).
  split; [now rewrite Hprices|]. split; [now apply Hcapped|now apply Hordinary].
Qed.

Lemma orderly_step (e : Event) (p : Process) : orderly p -> orderly (step e p).
Proof.
  intros Hinv. unfold step. destruct (exited p); [exact Hinv|].
  destruct e as [priceUpdate|orderUpdate|now|i response now|].
  - destruct Hinv as (Hdistinct & Hcap). split; [|exact Hcap].
    simpl. now apply keys_set_distinct.
  - apply (orderly_backdrop p); [|exact Hinv].
    now rewrite backdrop_updateOrderStatus.
  - destruct (snapshotTimer (this p)); [|exact Hinv].
    now apply orderly_takeSnapshot.
  - destruct (pending p !! i) as [frame|]; [|exact Hinv].
    apply (orderly_backdrop p); [|exact Hinv]. now rewrite backdrop_resume.
  - apply (orderly_backdrop p); [|exact Hinv]. apply backdrop_shutdown.
Qed.

Lemma orderly_run (events : list Event) (p : Process) :
  orderly p -> orderly (run events p).
Proof.
  revert p. induction events as [|e events IH]; intros p Hinv.
  - exact Hinv.
  - simpl. apply IH. now apply orderly_step.
Qed.

Lemma orderly_boot (parseFloat : string -> number) (now : Z)
    (config : MarketMakingConfig.t) (assets : list AssetConfig.t)
    (subaccountId : string) (subaccount : option string)
    (positions : PositionsOutcome) :
  orderly (boot parseFloat now config assets subaccountId subaccount positions).
Proof.
  assert (H := feed_boot parseFloat now config assets subaccountId subaccount
                 positions).
  unfold feed in H. injection H as Hprices Hsnapshots.
  unfold orderly. rewrite Hprices, Hsnapshots. split; [constructor|].
  split; intros ticker history [].
Qed.

(** X18. The history of an instrument never grows beyond a hundred
    snapshots: in every execution of the booted bot every array that
    [getSnapshots] returns, for any ticker and count, has at most a hundred
    entries. *)
Theorem snapshot_history_is_capped (parseFloat : string -> number)
    (now0 : Z) (config : MarketMakingConfig.t) (assets : list AssetConfig.t)
    (subaccountId : string) (subaccount : option string)
    (positions : PositionsOutcome) (events : list Event)
    (ticker : string) (count : option nat) (window : list PriceSnapshot.t) :
  let p :=
    run events
        (boot parseFloat now0 config assets subaccountId subaccount positions) in
  getSnapshots p ticker count = SnapshotList window ->
  (length window <= 100)%nat.
Proof.
  intros p.
  assert (Hinv : orderly p) by (apply orderly_run, orderly_boot).
  destruct Hinv as (_ & Hcap & _).
  unfold getSnapshots.
  destruct (property (snapshots (this p)) ticker) as [history| |] eqn:Hproperty.
  - apply property_Own, get_In in Hproperty.
    assert (Hall := Hcap ticker history Hproperty).
    destruct count as [[|n]|]; intros [= <-]; try exact Hall.
    unfold slice_last. rewrite length_drop. lia.
  - destruct count as [[|n]|]; discriminate.
  - destruct count as [[|n]|]; intros [= <-]; simpl; lia.
Qed.

(** X15. A tick records the latest price of every instrument: in every
    execution of the booted bot, as long as it runs and no instrument with a
    price is named like a member of [Object.prototype], after a price update
    and a tick the latest snapshot of the instrument carries that price and
    confidence and the clock of the tick; and so does, for the price it last
    received, the latest snapshot of every other instrument.  Of two
    updates of an instrument before a tick only the second counts. *)
Theorem tick_records_the_latest_price (parseFloat : string -> number)
    (now0 : Z) (config : MarketMakingConfig.t) (assets : list AssetConfig.t)
    (subaccountId : string) (subaccount : option string)
    (positions : PositionsOutcome) (events : list Event)
    (priceUpdate : PriceUpdate.t) (now : Z) :
  let p :=
    run events
        (boot parseFloat now0 config assets subaccountId subaccount positions) in
  exited p = false -> snapshotTimer (this p) = true ->
  inherited (PriceUpdate.ticker priceUpdate) = false ->
  (forall ticker, ticker ∈ JSMap.keys (latestPrices (this p)) ->
                  inherited ticker = false) ->
  let p' := step (TimerFires now) (step (PriceArrives priceUpdate) p) in
  getLatestSnapshot p' (PriceUpdate.ticker priceUpdate)
  = Some (PriceSnapshot.mk (PriceUpdate.ticker priceUpdate)
            (PriceUpdate.price priceUpdate)
            (PriceUpdate.confidence priceUpdate) now)
  /\ (forall ticker other,
         ticker <> PriceUpdate.ticker priceUpdate ->
         JSMap.get (latestPrices (this p)) ticker = Some other ->
         getLatestSnapshot p' ticker
         = Some (PriceSnapshot.mk ticker (PriceUpdate.price other)
                   (PriceUpdate.confidence other) now))
  /\ (forall earlier,
         PriceUpdate.ticker earlier = PriceUpdate.ticker priceUpdate ->
         step (PriceArrives priceUpdate) (step (PriceArrives earlier) p)
         = step (PriceArrives priceUpdate) p).
Proof.
  intros p Hrunning Htimer Hname Hnames p'.
  assert (Hinv : orderly p) by (apply orderly_run, orderly_boot).
  assert (Hstep : forall u, step (PriceArrives u) p = updatePrice u p)
    by (intros u; unfold step; now rewrite Hrunning).
  subst p'. rewrite Hstep.
  assert (Hinv1 : orderly (updatePrice priceUpdate p))
    by (rewrite <- Hstep; now apply orderly_step).
  set (p1 := updatePrice priceUpdate p) in *.
  assert (Hnames1 : forall ticker,
             ticker ∈ JSMap.keys (latestPrices (this p1)) ->
             inherited ticker = false).
  { intros ticker Hin. subst p1. simpl in Hin.
    apply keys_set in Hin. destruct Hin as [Hin| ->]; auto. }
  assert (Htick : step (TimerFires now) p1 = takeSnapshot now p1).
  { unfold step. change (exited p1) with (exited p). rewrite Hrunning.
    change (snapshotTimer (this p1)) with (snapshotTimer (this p)).
    now rewrite Htimer. }
  rewrite Htick. unfold takeSnapshot. set (q := emit _ p1).
  destruct (backdrop_takeSnapshot_loop now (latestPrices (this q)) q)
    as (_ & _ & _ & _ & _ & Hrecorded & _).
  destruct Hinv1 as (Hdistinct & Hcap & _).
  specialize (Hrecorded Hnames1 Hdistinct Hcap).
  assert (Hlatest : forall ticker u,
             JSMap.get (latestPrices (this p1)) ticker = Some u ->
             getLatestSnapshot
               (takeSnapshot_loop now (latestPrices (this q)) q) ticker
             = Some (PriceSnapshot.mk ticker (PriceUpdate.price u)
                       (PriceUpdate.confidence u) now)).
  { intros ticker u Hget. apply get_In in Hget.
    destruct (Hrecorded ticker u Hget) as (history & Hhistory & Hlast & _).
    unfold getLatestSnapshot.
    apply property_Own in Hhistory. now rewrite Hhistory. }
  split; [|split].
  - apply Hlatest. simpl. apply get_set_same.
  - intros ticker other Hne Hget. apply Hlatest. simpl.
    now rewrite get_set_other.
  - intros earlier Hsame.
    assert (Hstep' : step (PriceArrives priceUpdate) (updatePrice earlier p)
                     = updatePrice priceUpdate (updatePrice earlier p)).
    { unfold step. change (exited (updatePrice earlier p)) with (exited p).
      now rewrite Hrunning. }
    rewrite (Hstep earlier), Hstep'. subst p1. unfold updatePrice. simpl.
    rewrite Hsame. now rewrite set_set.
Qed.

(** X30. A price for a ticker that is named like a member of
    [Object.prototype] ends the bot at the next tick: in every execution of
    the booted bot, while it runs, after such a price update the tick throws
    where it appends to the history, nothing catches the error, and the
    process ends with exit code 1; no snapshot is recorded for that ticker,
    and no later event, the settling of a suspended call included, changes
    anything. *)
Theorem tick_on_a_prototype_name_ends_the_process
    (parseFloat : string -> number)
    (now0 : Z) (config : MarketMakingConfig.t) (assets : list AssetConfig.t)
    (subaccountId : string) (subaccount : option string)
    (positions : PositionsOutcome) (events : list Event)
    (priceUpdate : PriceUpdate.t) (now : Z) :
  let p :=
    run events
        (boot parseFloat now0 config assets subaccountId subaccount positions) in
  exited p = false -> snapshotTimer (this p) = true ->
  inherited (PriceUpdate.ticker priceUpdate) = true ->
  let p' := step (TimerFires now) (step (PriceArrives priceUpdate) p) in
  exited p' = true
  /\ last (output p') = Some (process_exit 1)
  /\ getLatestSnapshot p' (PriceUpdate.ticker priceUpdate) = None
  /\ forall events', run events' p' = p'.
Proof.
  intros p Hrunning Htimer Hname p'.
  assert (Hinv : orderly p) by (apply orderly_run, orderly_boot).
  assert (Hinv' : orderly p') by (subst p'; now do 2 apply orderly_step).
  assert (Hstep : step (PriceArrives priceUpdate) p = updatePrice priceUpdate p)
    by (unfold step; now rewrite Hrunning).
  assert (Hcrashed : exited p' = true /\ last (output p') = Some (process_exit 1)).
  { subst p'. rewrite Hstep.
    set (p1 := updatePrice priceUpdate p) in *.
    assert (Htick : step (TimerFires now) p1 = takeSnapshot now p1).
    { unfold step. change (exited p1) with (exited p). rewrite Hrunning.
      change (snapshotTimer (this p1)) with (snapshotTimer (this p)).
      now rewrite Htimer. }
    rewrite Htick. unfold takeSnapshot. set (q := emit _ p1).
    destruct (backdrop_takeSnapshot_loop now (latestPrices (this q)) q)
      as (_ & _ & _ & _ & _ & _ & Hcrash).
    destruct Hinv as (_ & _ & Hown).
    apply (Hcrash Hown (PriceUpdate.ticker priceUpdate)); [|exact Hname].
    change (latestPrices (this q))
      with (JSMap.set (latestPrices (this p)) (PriceUpdate.ticker priceUpdate)
                      priceUpdate).
    apply keys_set. now right. }
  destruct Hcrashed as [Hexit Hlast].
  split; [exact Hexit|]. split; [exact Hlast|]. split.
  - destruct Hinv' as (_ & _ & Hown').
    unfold getLatestSnapshot, property.
    destruct (JSMap.get (snapshots (this p')) (PriceUpdate.ticker priceUpdate))
      as [history|] eqn:Hget.
    + apply get_In in Hget. apply Hown' in Hget. congruence.
    + now rewrite Hname.
  - intros events'. now apply run_exited.
Qed.

End FeedInvariants.

(** ** Invariants of the running bot: no lock without a suspended call *)

Section OwnedLocks.
Import PriceSnapshotService.

Lemma ownedBy_startsCancel creation cancellation cancellation' frames next :
  startsCancel cancellation cancellation' next ->
  ownedBy creation cancellation frames ->
  ownedBy creation cancellation' (frames ++ option_list next).
Proof.
  intros Hstart [Hc Hk]. destruct next as [f|]; simpl in *.
  - destruct Hstart as (_ & Hpl & key & Hkey & _ & ->).
    split.
    + intros ticker Hin. rewrite omap_snoc, Hpl. simpl. rewrite app_nil_r. auto.
    + intros k Hin. rewrite omap_snoc, Hkey. simpl.
      apply elem_of_app. apply elem_of_union in Hin.
      destruct Hin as [Hin|Hin]; [right|left; auto].
      apply elem_of_singleton in Hin. subst k. apply list_elem_of_singleton.
      reflexivity.
  - subst cancellation'. rewrite app_nil_r. now split.
Qed.

Lemma ownedBy_startsRound ticker creation creation' cancellation frames next :
  startsRound ticker creation creation' next ->
  ownedBy creation cancellation frames ->
  ownedBy creation' cancellation (frames ++ option_list next).
Proof.
  intros Hstart [Hc Hk]. destruct next as [f|]; simpl in *.
  - destruct Hstart as (Hpl & Hkey & _ & ->).
    split.
    + intros t Hin. rewrite omap_snoc, Hpl. simpl.
      apply elem_of_app. apply elem_of_union in Hin.
      destruct Hin as [Hin|Hin]; [right|left; auto].
      apply elem_of_singleton in Hin. subst t. apply list_elem_of_singleton.
      reflexivity.
    + intros k Hin. rewrite omap_snoc, Hkey. simpl. rewrite app_nil_r. auto.
  - subst creation'. rewrite app_nil_r. now split.
Qed.

(** The tickers, or the keys, of the frames around a frame that is taken
    out of the list. *)
Lemma omap_without {B : Type} (g : Frame -> option B) (l1 l2 : list Frame)
    (f : Frame) (x : B) :
  x ∈ omap g (l1 ++ f :: l2) -> x ∈ omap g (l1 ++ l2) \/ g f = Some x.
Proof.
  rewrite !omap_app. simpl. rewrite !elem_of_app.
  destruct (g f) as [y|]; [rewrite elem_of_cons|]; intros H.
  - destruct H as [H|[->|H]]; [left; now left|now right|left; now right].
  - left. exact H.
Qed.

Lemma ownedBy_cancel_done creation cancellation frames i f key :
  frames !! i = Some f ->
  placementTicker f = None -> cancelKey f = Some key ->
  ownedBy creation cancellation frames ->
  ownedBy creation (cancellation ∖ {[key]}) (delete i frames).
Proof.
  intros Hi Hpl Hkey [Hc Hk].
  destruct (delete_middle frames i f Hi) as (l1 & l2 & -> & ->). split.
  - intros t Hin. apply Hc in Hin.
    destruct (omap_without placementTicker l1 l2 f t Hin) as [H|H];
      [exact H|congruence].
  - intros k Hin. apply elem_of_difference in Hin. destruct Hin as [Hin Hne].
    apply Hk in Hin.
    destruct (omap_without cancelKey l1 l2 f k Hin) as [H|H]; [exact H|].
    exfalso. apply Hne. apply elem_of_singleton. congruence.
Qed.

Lemma ownedBy_continuesRound ticker creation creation' cancellation frames
    i f next :
  frames !! i = Some f ->
  placementTicker f = Some ticker -> cancelKey f = None ->
  continuesRound ticker creation creation' next ->
  ownedBy creation cancellation frames ->
  ownedBy creation' cancellation (delete i frames ++ option_list next).
Proof.
  intros Hi Hpl Hkey Hnext [Hc Hk].
  destruct (delete_middle frames i f Hi) as (l1 & l2 & -> & ->).
  assert (Hkeys : forall k, k ∈ cancellation -> k ∈ omap cancelKey (l1 ++ l2)).
  { intros k Hin. apply Hk in Hin.
    destruct (omap_without cancelKey l1 l2 f k Hin) as [H|H];
      [exact H|congruence]. }
  destruct next as [g|]; simpl in *.
  - destruct Hnext as (Hpl' & Hkey' & ->). split.
    + intros t Hin. apply Hc in Hin. rewrite omap_snoc, Hpl'. simpl.
      apply elem_of_app.
      destruct (omap_without placementTicker l1 l2 f t Hin) as [H|H];
        [now left|right].
      apply list_elem_of_singleton. congruence.
    + intros k Hin. rewrite omap_snoc, Hkey'. simpl. rewrite app_nil_r. auto.
  - subst creation'. rewrite app_nil_r. split; [|exact Hkeys].
    intros t Hin. apply elem_of_difference in Hin. destruct Hin as [Hin Hne].
    apply Hc in Hin.
    destruct (omap_without placementTicker l1 l2 f t Hin) as [H|H]; [exact H|].
    exfalso. apply Hne. apply elem_of_singleton. congruence.
Qed.

Lemma ownedBy_other_done creation cancellation frames i f :
  frames !! i = Some f ->
  placementTicker f = None -> cancelKey f = None ->
  ownedBy creation cancellation frames ->
  ownedBy creation cancellation (delete i frames).
Proof.
  intros Hi Hpl Hkey [Hc Hk].
  destruct (delete_middle frames i f Hi) as (l1 & l2 & -> & ->). split.
  - intros t Hin. apply Hc in Hin.
    destruct (omap_without placementTicker l1 l2 f t Hin) as [H|H];
      [exact H|congruence].
  - intros k Hin. apply Hk in Hin.
    destruct (omap_without cancelKey l1 l2 f k Hin) as [H|H];
      [exact H|congruence].
Qed.

Lemma ownedBy_more creation cancellation creation' cancellation' frames f :
  creation' ⊆ creation -> cancellation' ⊆ cancellation ->
  ownedBy creation cancellation frames ->
  ownedBy creation' cancellation' (frames ++ option_list f).
Proof.
  intros Hsub Hsub' [Hc Hk]. split.
  - intros t Hin. rewrite omap_app. apply elem_of_app. left. auto.
  - intros k Hin. rewrite omap_app. apply elem_of_app. left. auto.
Qed.

Lemma locksAreOwned_of_control (p q : Process) :
  control q = control p -> locksAreOwned p -> locksAreOwned q.
Proof.
  unfold control, locksAreOwned. intros [= _ -> -> ->]. trivial.
Qed.

(** The bulk cancel clears the locks or leaves them. *)
Lemma locks_cancelAllActiveOrders (p : Process) :
  let p' := fst (cancelAllActiveOrders p) in
  orderCreationInProgress (this p') ⊆ orderCreationInProgress (this p)
  /\ orderCancellationInProgress (this p') ⊆ orderCancellationInProgress (this p)
  /\ pending p' = pending p.
Proof.
  unfold cancelAllActiveOrders.
  destruct (getAllActiveOrders p); [now repeat split|].
  destruct (ETHEREAL_SUBACCOUNT _) as [subaccount|]; [|now repeat split].
  destruct (truthy_string subaccount); [|now repeat split].
  simpl. destruct (etherealService (this p)); simpl;
    (split; [apply empty_subseteq|split; [apply empty_subseteq|reflexivity]]).
Qed.

Lemma locksAreOwned_takeSnapshot_entry (now : Z) (ticker : string)
    (priceUpdate : PriceUpdate.t) (p : Process) :
  locksAreOwned p -> locksAreOwned (takeSnapshot_entry now ticker priceUpdate p).
Proof.
  intros Hinv. unfold takeSnapshot_entry.
  set (p1 := set_this p _).
  assert (H1 : locksAreOwned p1) by exact Hinv.
  clearbody p1. clear Hinv.
  set (p2 := match deviationCheckService (this p1) with
             | Some _ => _
             | None => p1
             end).
  assert (H2 : locksAreOwned p2).
  { subst p2. destruct (deviationCheckService (this p1)); [|exact H1].
    assert (H := checkOrdersAndPositions_control now ticker
                   (PriceUpdate.price priceUpdate) p1).
    destruct (checkOrdersAndPositions now ticker (PriceUpdate.price priceUpdate) p1)
      as [q next].
    destruct H as (_ & Hcreation & Hpending & Hstart).
    unfold locksAreOwned. rewrite pending_suspend, this_suspend.
    rewrite Hcreation, Hpending.
    now apply (ownedBy_startsCancel _ (orderCancellationInProgress (this p1))). }
  clearbody p2. clear H1.
  assert (H := checkAndCreateOrders_control now ticker
                 (PriceUpdate.price priceUpdate) p2).
  destruct (checkAndCreateOrders now ticker (PriceUpdate.price priceUpdate) p2)
    as [p3 next].
  destruct H as (_ & Hcancellation & Hpending & Hstart).
  assert (H3 : locksAreOwned (suspend next p3)).
  { unfold locksAreOwned. rewrite pending_suspend, this_suspend.
    rewrite Hcancellation, Hpending.
    now apply (ownedBy_startsRound ticker (orderCreationInProgress (this p2))). }
  set (p4 := cleanupCompletedTradingPairs ticker (suspend next p3)).
  assert (H4 : locksAreOwned p4)
    by (apply (locksAreOwned_of_control (suspend next p3));
        [apply control_cleanup|exact H3]).
  destruct (snapshotCallback (this p4)); exact H4.
Qed.

Lemma locksAreOwned_takeSnapshot (now : Z) (p : Process) :
  locksAreOwned p -> locksAreOwned (takeSnapshot now p).
Proof.
  intros Hinv. unfold takeSnapshot.
  set (q := emit _ p). assert (Hq : locksAreOwned q) by exact Hinv.
  generalize (latestPrices (this q)) as prices.
  clearbody q. clear Hinv. intros prices. revert q Hq.
  induction prices as [|[ticker priceUpdate] prices IH]; intros q Hq.
  - exact Hq.
  - simpl. destruct (throwsAtPush q ticker); [exact Hq|].
    apply IH. now apply locksAreOwned_takeSnapshot_entry.
Qed.

Lemma locksAreOwned_shutdown (p : Process) :
  locksAreOwned p -> locksAreOwned (shutdown p).
Proof.
  intros Hinv. unfold shutdown.
  set (q := stop (emit (console_log ShutdownReceived) p)).
  assert (Hq : locksAreOwned q).
  { subst q. unfold stop. simpl. destruct (snapshotTimer (this p)); exact Hinv. }
  clearbody q.
  destruct (locks_cancelAllActiveOrders q) as (Hc & Hk & Hpending).
  destruct (cancelAllActiveOrders q) as [p' next]. simpl in *.
  assert (Hmore : forall f, locksAreOwned (suspend (Some f) p')).
  { intros f. unfold locksAreOwned. rewrite pending_suspend, this_suspend.
    rewrite Hpending.
    exact (ownedBy_more _ _ _ _ _ (Some f) Hc Hk Hq). }
  destruct next; apply Hmore.
Qed.

Lemma locksAreOwned_resume (i : nat) (frame : Frame) (response : Response)
    (now : Z) (p : Process) :
  pending p !! i = Some frame ->
  locksAreOwned p ->
  locksAreOwned (resume frame response now (set_pending p (delete i (pending p)))).
Proof.
  intros Hi Hinv. unfold locksAreOwned in Hinv.
  set (p0 := set_pending p (delete i (pending p))).
  destruct frame as [ticker key orderId sent shouldCancelAsk
                    |ticker key orderId sent
                    |ticker currentPrice config needsAskOrder bidOrder
                    |ticker askOrder|orderIds|]; simpl.
  - assert (H := checkOrdersAndPositions_resumeBid_control ticker key orderId
                   sent shouldCancelAsk response p0).
    destruct (checkOrdersAndPositions_resumeBid ticker key orderId sent
                shouldCancelAsk response p0) as [p' next].
    destruct H as (_ & Hcreation & Hpending & Hstart).
    unfold locksAreOwned. rewrite pending_suspend, this_suspend.
    rewrite Hcreation, Hpending. simpl.
    eapply ownedBy_startsCancel; [exact Hstart|].
    now apply (ownedBy_cancel_done _ _ _ i _ key Hi).
  - assert (H := checkOrdersAndPositions_resumeAsk_control ticker key orderId
                   sent response p0).
    destruct H as (_ & Hcreation & Hpending & Hcancellation).
    unfold locksAreOwned. rewrite Hcreation, Hpending, Hcancellation.
    simpl. now apply (ownedBy_cancel_done _ _ _ i _ key Hi).
  - assert (H := checkAndCreateOrders_resumeBid_control now ticker currentPrice
                   config needsAskOrder bidOrder response p0).
    destruct (checkAndCreateOrders_resumeBid now ticker currentPrice config
                needsAskOrder bidOrder response p0) as [p' next].
    destruct H as (_ & Hcancellation & Hpending & Hnext).
    unfold locksAreOwned. rewrite pending_suspend, this_suspend.
    rewrite Hcancellation, Hpending. simpl.
    now apply (ownedBy_continuesRound ticker (orderCreationInProgress (this p))
                 _ _ _ i _ next Hi).
  - assert (H := checkAndCreateOrders_resumeAsk_control now ticker askOrder
                   response p0).
    destruct H as (_ & Hcancellation & Hpending & Hcreation).
    unfold locksAreOwned. rewrite Hcancellation, Hpending, Hcreation.
    simpl. rewrite <- (app_nil_r (delete i (pending p))).
    now apply (ownedBy_continuesRound ticker (orderCreationInProgress (this p))
                 _ _ _ i _ None Hi).
  - unfold locksAreOwned, cancelAllActiveOrders_resume.
    destruct response; simpl; now apply (ownedBy_other_done _ _ _ i _ Hi).
  - unfold locksAreOwned. simpl. now apply (ownedBy_other_done _ _ _ i _ Hi).
Qed.

Lemma locksAreOwned_step (e : Event) (p : Process) :
  locksAreOwned p -> locksAreOwned (step e p).
Proof.
  intros Hinv. unfold step. destruct (exited p); [exact Hinv|].
  destruct e as [priceUpdate|orderUpdate|now|i response now|].
  - exact Hinv.
  - apply (locksAreOwned_of_control p); [|exact Hinv].
    now rewrite control_updateOrderStatus.
  - destruct (snapshotTimer (this p)); [|exact Hinv].
    now apply locksAreOwned_takeSnapshot.
  - destruct (pending p !! i) as [frame|] eqn:Hi; [|exact Hinv].
    now apply locksAreOwned_resume.
  - now apply locksAreOwned_shutdown.
Qed.

Lemma locksAreOwned_run (events : list Event) (p : Process) :
  locksAreOwned p -> locksAreOwned (run events p).
Proof.
  revert p. induction events as [|e events IH]; intros p Hinv.
  - exact Hinv.
  - simpl. apply IH. now apply locksAreOwned_step.
Qed.

Lemma locks_loadExistingPositions (parseFloat : string -> number) (now : Z)
    (subaccountId : string) (positions : PositionsOutcome) (p : Process) :
  let p' := loadExistingPositions parseFloat now subaccountId positions p in
  orderCreationInProgress (this p') = orderCreationInProgress (this p)
  /\ orderCancellationInProgress (this p') = orderCancellationInProgress (this p).
Proof.
  unfold loadExistingPositions.
  destruct (etherealService (this p)); [|now split]. simpl.
  destruct positions as [[data|]|]; try (now split). simpl.
  set (q := emit _ (emit _ p)).
  change (orderCreationInProgress (this p))
    with (orderCreationInProgress (this q)).
  change (orderCancellationInProgress (this p))
    with (orderCancellationInProgress (this q)).
  generalize q. clear q.
  induction data as [|position data IH]; intros q; [now split|].
  simpl. destruct (IH (loadPosition parseFloat now position q)) as [-> ->].
  unfold loadPosition. destruct (negb _); [now split|].
  destruct (gtb _ _); [now split|]. destruct (ltb _ _); now split.
Qed.

Lemma locks_setAssetConfigs (assets : list AssetConfig.t) (q : Process) :
  let p' :=
    fold_left (fun p asset => setAssetConfig (AssetConfig.ticker asset) asset p)
              assets q in
  orderCreationInProgress (this p') = orderCreationInProgress (this q)
  /\ orderCancellationInProgress (this p') = orderCancellationInProgress (this q).
Proof.
  revert q. induction assets as [|asset assets IH]; intros q; [now split|].
  simpl. destruct (IH (setAssetConfig (AssetConfig.ticker asset) asset q))
    as [-> ->].
  now split.
Qed.

Lemma locksAreOwned_boot (parseFloat : string -> number) (now : Z)
    (config : MarketMakingConfig.t) (assets : list AssetConfig.t)
    (subaccountId : string) (subaccount : option string)
    (positions : PositionsOutcome) :
  locksAreOwned
    (boot parseFloat now config assets subaccountId subaccount positions).
Proof.
  unfold locksAreOwned. rewrite pending_boot.
  unfold boot, start, onSnapshot.
  match goal with
  | |- context [loadExistingPositions _ _ _ _ ?q] => set (p0 := q)
  end.
  destruct (locks_loadExistingPositions parseFloat now subaccountId positions p0)
    as [Hc Hk].
  assert (H0 : orderCreationInProgress (this p0) = ∅
               /\ orderCancellationInProgress (this p0) = ∅).
  { subst p0.
    match goal with
    | |- context [fold_left _ assets ?q] =>
        destruct (locks_setAssetConfigs assets q) as [-> ->]
    end.
    now split. }
  destruct H0 as [Hc0 Hk0].
  destruct (snapshotTimer _); simpl; rewrite Hc, Hk, Hc0, Hk0;
    split; intros x Hx; now apply elem_of_empty in Hx.
Qed.

(** X19. No lock outlives its call: in every execution of the booted bot an
    instrument whose placement lock is held has a placement round suspended
    on a request, and a cancel key that is held has its deviation cancel
    suspended; when no call is suspended both lock sets are empty, so that
    the next tick can quote and cancel. *)
Theorem held_locks_belong_to_suspended_calls (parseFloat : string -> number)
    (now0 : Z) (config : MarketMakingConfig.t) (assets : list AssetConfig.t)
    (subaccountId : string) (subaccount : option string)
    (positions : PositionsOutcome) (events : list Event) :
  let p :=
    run events
        (boot parseFloat now0 config assets subaccountId subaccount positions) in
  (forall ticker,
      ticker ∈ orderCreationInProgress (this p) ->
      exists i f, pending p !! i = Some f /\ placementTicker f = Some ticker)
  /\ (forall key,
         key ∈ orderCancellationInProgress (this p) ->
         exists i f, pending p !! i = Some f /\ cancelKey f = Some key)
  /\ (pending p = [] ->
      orderCreationInProgress (this p) = ∅
      /\ orderCancellationInProgress (this p) = ∅).
Proof.
  intros p.
  assert (Hinv : locksAreOwned p) by (apply locksAreOwned_run, locksAreOwned_boot).
  destruct Hinv as [Hc Hk].
  assert (Hfind : forall (B : Type) (g : Frame -> option B) (x : B),
             x ∈ omap g (pending p) ->
             exists i f, pending p !! i = Some f /\ g f = Some x).
  { intros B g x Hin. apply list_elem_of_omap in Hin.
    destruct Hin as (f & Hf & Hg). apply list_elem_of_lookup_1 in Hf.
    destruct Hf as [i Hi]. now exists i, f. }
  split; [intros ticker Hin; apply Hfind; now apply Hc|].
  split; [intros key Hin; apply Hfind; now apply Hk|].
  intros Hnone. rewrite Hnone in Hc, Hk. simpl in Hc, Hk.
  split; apply elem_of_equiv_empty_L; intros x Hx.
  - apply Hc in Hx. now apply elem_of_nil in Hx.
  - apply Hk in Hx. now apply elem_of_nil in Hx.
Qed.

End OwnedLocks.

(** ** The shutdown handler (src/index.ts) *)

Section Shutdown.
Import PriceSnapshotService.

(** What the handler does up to its [await]. *)
Lemma shutdown_begins (p : Process) :
  let p1 := shutdown p in
  snapshotTimer (this p1) = false
  /\ exited p1 = exited p
  /\ (exists frame,
         pending p1 = pending p ++ [frame]
         /\ (frame = AwaitShutdown
             \/ exists orderIds, frame = AwaitCancelAll orderIds /\ orderIds <> []))
  /\ exists es,
       emitted p p1 es /\ placements es = []
       /\ (length (cancellations es) <= 1)%nat.
Proof.
  unfold shutdown, stop, cancelAllActiveOrders. simpl.
  destruct (snapshotTimer (this p)) eqn:Htimer; simpl;
    (destruct (getAllActiveOrders _) as [|active actives]; simpl;
     [|destruct (ETHEREAL_SUBACCOUNT p) as [subaccount|]; simpl;
       [destruct (truthy_string subaccount); simpl;
        [destruct (etherealService (this p)); simpl|]|]]);
    rewrite ?Htimer;
    (split; [reflexivity|]); (split; [reflexivity|]);
    (split;
     [eexists; split; [reflexivity|];
      first [now left | right; eexists; split; [reflexivity|discriminate]]
     |eexists; split;
      [unfold emitted; simpl; rewrite <- ?app_assoc; reflexivity
      |split; [reflexivity|simpl; lia]]]).
Qed.

(** X17. A termination signal always ends the process with exit code 0: the
    handler stops the timer, sends at most one request, the bulk cancel, and
    no placement; when what it waits for settles, whether the bulk cancel
    succeeded, failed or was never sent, it disconnects the feeds, logs and
    exits with code 0, having sent nothing more; and after the exit no event
    changes anything. *)
Theorem shutdown_always_exits_with_code_zero (p : Process)
    (response : Response) (now : Z) :
  exited p = false ->
  let p1 := step Signal p in
  let p2 := step (Settles (length (pending p)) response now) p1 in
  snapshotTimer (this p1) = false
  /\ (exists frame,
         pending p1 = pending p ++ [frame]
         /\ (frame = AwaitShutdown
             \/ exists orderIds, frame = AwaitCancelAll orderIds /\ orderIds <> []))
  /\ (exists es,
         emitted p p1 es /\ placements es = []
         /\ (length (cancellations es) <= 1)%nat)
  /\ exited p2 = true
  /\ pending p2 = pending p
  /\ (exists es,
         emitted p1 p2
           (es ++ [feeds_disconnect; console_log ShutdownComplete; process_exit 0])
         /\ placements es = [] /\ cancellations es = [])
  /\ forall events, run events p2 = p2.
Proof.
  intros Hrunning p1 p2.
  assert (Hp1 : p1 = shutdown p) by (subst p1; unfold step; now rewrite Hrunning).
  destruct (shutdown_begins p) as (Htimer & Hexited & Hframe & Hsent).
  rewrite <- Hp1 in Htimer, Hexited, Hframe, Hsent.
  split; [exact Htimer|]. split; [exact Hframe|]. split; [exact Hsent|].
  destruct Hframe as (frame & Hpending & Hkind).
  assert (Hp2 : p2 = resume frame response now (set_pending p1 (pending p))).
  { subst p2. unfold step. rewrite Hexited, Hrunning, Hpending.
    rewrite list_lookup_middle by reflexivity.
    now rewrite list.delete_middle, app_nil_r. }
  clearbody p1 p2. subst p2.
  assert (Hend : exited (resume frame response now (set_pending p1 (pending p)))
                 = true
                 /\ pending (resume frame response now (set_pending p1 (pending p)))
                    = pending p
                 /\ exists es,
                      emitted p1
                        (resume frame response now (set_pending p1 (pending p)))
                        (es ++ [feeds_disconnect; console_log ShutdownComplete;
                                process_exit 0])
                      /\ placements es = [] /\ cancellations es = []).
  { destruct Hkind as [->|(orderIds & -> & _)]; simpl.
    - split; [reflexivity|]. split; [reflexivity|].
      exists []. now split.
    - unfold cancelAllActiveOrders_resume.
      destruct response as [order_id|]; simpl.
      + split; [reflexivity|]. split; [reflexivity|].
        exists [console_log (SuccessfullyCancelledOrders (length orderIds))].
        split; [|now split].
        unfold emitted. simpl. now rewrite <- !app_assoc.
      + split; [reflexivity|]. split; [reflexivity|].
        exists [console_error AdapterErrorCancellingOrder;
                console_error ErrorCancellingDuringShutdown].
        split; [|now split].
        unfold emitted. simpl. now rewrite <- !app_assoc. }
  destruct Hend as (Hdone & Hrest & Hout).
  split; [exact Hdone|]. split; [exact Hrest|]. split; [exact Hout|].
  intros events. now apply run_exited.
Qed.

End Shutdown.

(** ** The warmup, outcome by outcome *)

Section WarmupOutcomes.
Import PriceSnapshotService.

(** A position adds log lines only. *)
Lemma loadPosition_logs (parseFloat : string -> number) (now : Z)
    (position : PositionData) (p : Process) :
  exists es,
    emitted p (loadPosition parseFloat now position p) es
    /\ Forall (fun e => exists m, e = console_log m) es.
Proof.
  unfold loadPosition, emitted. destruct (negb _).
  - exists []. split; [now rewrite app_nil_r|constructor].
  - destruct (gtb _ _); [|destruct (ltb _ _)]; simpl.
    + eexists. split; [reflexivity|]. repeat constructor. now eexists.
    + eexists. split; [reflexivity|]. repeat constructor. now eexists.
    + exists []. split; [reflexivity|constructor].
Qed.

Lemma loadPositions_logs (parseFloat : string -> number) (now : Z)
    (positions : list PositionData) (p : Process) :
  exists es,
    emitted p
      (fold_left (fun p position => loadPosition parseFloat now position p)
                 positions p)
      es
    /\ Forall (fun e => exists m, e = console_log m) es.
Proof.
  revert p. induction positions as [|position positions IH]; intros p.
  - exists []. split; [unfold emitted; now rewrite app_nil_r|constructor].
  - simpl. destruct (loadPosition_logs parseFloat now position p) as (es & He & Hes).
    destruct (IH (loadPosition parseFloat now position p)) as (es' & He' & Hes').
    exists (es ++ es'). unfold emitted in *. split.
    + now rewrite He', He, app_assoc.
    + now apply Forall_app.
Qed.

(** With the service set, the warmup logs, queries once, and then only
    logs. *)
Lemma warmup_output (parseFloat : string -> number) (now : Z)
    (subaccountId : string) (outcome : PositionsOutcome) (p : Process) :
  etherealService (this p) = true ->
  exists es,
    emitted p (loadExistingPositions parseFloat now subaccountId outcome p)
      (console_log FetchingPositions
         :: get_position subaccountId
              (omap (fun config =>
                       match AssetConfig.productId config with
                       | Some id => if truthy_string id then Some id else None
                       | None => None
                       end)
                    (JSMap.values (assetConfigs (this p))))
         :: es)
    /\ Forall (fun e => exists m, e = console_log m \/ e = console_error m) es.
Proof.
  intros Hservice. unfold loadExistingPositions. rewrite Hservice. simpl.
  set (productIds := omap _ _).
  destruct outcome as [[data|]|]; simpl.
  - destruct (loadPositions_logs parseFloat now data
                (emit (get_position subaccountId productIds)
                   (emit (console_log FetchingPositions) p)))
      as (es & He & Hes).
    exists (es ++ [console_log FinishedLoadingPositions]).
    unfold emitted in *. simpl in *. rewrite He, <- !app_assoc. simpl.
    split; [reflexivity|]. apply Forall_app. split.
    + eapply Forall_impl; [exact Hes|]. intros e [m ->]. exists m. now left.
    + repeat constructor. eexists. now left.
  - exists [console_log FinishedLoadingPositions].
    unfold emitted. simpl. rewrite <- !app_assoc. simpl.
    split; [reflexivity|]. repeat constructor. eexists. now left.
  - exists [console_error AdapterErrorFetchingPositions;
            console_error ErrorLoadingPositions].
    unfold emitted. simpl. rewrite <- !app_assoc. simpl.
    split; [reflexivity|]. repeat constructor; eexists; now right.
Qed.

(** X16. The warmup sends one request at most, the positions query, and
    only when the exchange service is set; the query names the subaccount
    and the product ids of the configured instruments that are not empty, in
    the order of the configurations.  Whatever the outcome, the warmup sends
    no order and no cancel and suspends nothing; and when the service is
    missing, the query fails, or the response has no data or no position, no
    trading pair changes. *)
Theorem warmup_queries_once_and_fails_safe (parseFloat : string -> number)
    (now : Z) (subaccountId : string) (outcome : PositionsOutcome) (p : Process) :
  let p' := loadExistingPositions parseFloat now subaccountId outcome p in
  let productIds :=
    omap (fun config =>
            match AssetConfig.productId config with
            | Some id => if truthy_string id then Some id else None
            | None => None
            end)
         (JSMap.values (assetConfigs (this p))) in
  pending p' = pending p
  /\ (etherealService (this p) = false ->
      this p' = this p
      /\ emitted p p' [console_error ServiceNotSetCannotFetchPositions])
  /\ (etherealService (this p) = true ->
      exists es,
        emitted p p'
          (console_log FetchingPositions
             :: get_position subaccountId productIds :: es)
        /\ Forall (fun e => exists m, e = console_log m \/ e = console_error m) es)
  /\ (outcome = PositionsRejected \/ outcome = PositionsResolved None
      \/ outcome = PositionsResolved (Some []) ->
      tradingPairs (this p') = tradingPairs (this p))
  /\ (forall id,
         In id productIds
         <-> id <> ""
             /\ exists config,
                  In config (JSMap.values (assetConfigs (this p)))
                  /\ AssetConfig.productId config = Some id).
Proof.
  intros p' productIds. subst p'.
  split; [apply pending_loadExistingPositions|].
  split; [unfold loadExistingPositions; intros ->; split; reflexivity|].
  split.
  - intros Hservice. subst productIds.
    apply (warmup_output parseFloat now subaccountId outcome p Hservice).
  - split.
    + unfold loadExistingPositions.
      destruct (etherealService (this p)); [|reflexivity].
      intros [->|[->| ->]]; reflexivity.
    + intros id. subst productIds. rewrite <- list_elem_of_In, list_elem_of_omap.
      split.
      * intros (config & Hin & Hid).
        destruct (AssetConfig.productId config) as [id'|] eqn:Hp; [|discriminate].
        destruct (truthy_string id') eqn:Ht; [|discriminate].
        injection Hid as <-. split; [now intros ->|].
        exists config. split; [now apply list_elem_of_In|exact Hp].
      * intros (Hne & config & Hin & Hp). exists config.
        split; [now apply list_elem_of_In|]. rewrite Hp.
        destruct id; [contradiction|reflexivity].
Qed.

End WarmupOutcomes.

(** ** Invariants of the running bot: the requests *)

Section ProperRequests.
Import PriceSnapshotService.

Local Arguments DeviationCheckService.checkOrdersAndPositions : simpl never.
Local Arguments DeviationCheckService.calculateMarketState : simpl never.

Variable P : Effect -> Prop.

Lemma adds_refl (p : Process) : adds P p p.
Proof. exists []. split; [now rewrite app_nil_r|constructor]. Qed.

Lemma adds_trans (p1 p2 p3 : Process) : adds P p1 p2 -> adds P p2 p3 -> adds P p1 p3.
Proof.
  intros (es & He & Hes) (es' & He' & Hes'). exists (es ++ es'). split.
  - now rewrite He', He, app_assoc.
  - now apply Forall_app.
Qed.

Lemma adds_emit (e : Effect) (p q : Process) :
  P e -> adds P p q -> adds P p (emit e q).
Proof.
  intros He Hq. apply (adds_trans p q); [exact Hq|].
  exists [e]. split; [reflexivity|now repeat constructor].
Qed.

Lemma adds_same (p q q' : Process) :
  output q' = output q -> adds P p q -> adds P p q'.
Proof. intros Hout (es & He & Hes). exists es. now rewrite Hout. Qed.

Lemma adds_invariant (p q : Process) :
  adds P p q -> Forall P (output p) -> Forall P (output q).
Proof.
  intros (es & -> & Hes) Hp. now apply Forall_app.
Qed.

End ProperRequests.

Section ProperHandlers.
Import PriceSnapshotService.

Local Arguments DeviationCheckService.checkOrdersAndPositions : simpl never.
Local Arguments DeviationCheckService.calculateMarketState : simpl never.

Lemma proper_cancel (configs : JSMap.t AssetConfig.t) (subaccount : option string)
    (orderIds : list string) :
  truthy_opt_string subaccount = true -> orderIds <> [] ->
  properRequest configs subaccount
    (post_orders_cancel (CancelOrderRequest.mk orderIds (default "" subaccount))).
Proof.
  intros Hsub Hids. destruct subaccount as [sub|]; [|discriminate]. simpl.
  split; [reflexivity|]. split; [|exact Hids]. now destruct sub.
Qed.

Lemma proper_bid (configs : JSMap.t AssetConfig.t) (subaccount : option string)
    (now : Z) (ticker : string) (currentPrice : number) (config : AssetConfig.t) :
  JSMap.get configs ticker = Some config ->
  properRequest configs subaccount
    (post_orders (bidOrderRequest now ticker currentPrice config)).
Proof.
  intros Hconfig. exists config. simpl. repeat split; auto.
Qed.

Lemma proper_ask (configs : JSMap.t AssetConfig.t) (subaccount : option string)
    (now : Z) (ticker : string) (currentPrice : number) (config : AssetConfig.t) :
  JSMap.get configs ticker = Some config ->
  properRequest configs subaccount
    (post_orders (askOrderRequest now ticker currentPrice config)).
Proof.
  intros Hconfig. exists config. simpl. repeat split; auto.
Qed.

(** Follows a handler to its leaves and accounts for what each leaf adds. *)
Ltac added :=
  repeat first
    [ progress simpl
    | match goal with
      | |- context [if ?c then _ else _] => destruct c eqn:?
      | |- context [match ?x with Some _ => _ | None => _ end] => destruct x eqn:?
      | |- context [match ?x with Resolved _ => _ | Rejected => _ end] => destruct x
      | |- context [match ?x with BID => _ | ASK => _ end] => destruct x
      end ];
  repeat (apply adds_emit; [try exact I|]);
  try (exists []; split; [simpl; now rewrite app_nil_r|constructor]).

Lemma properOf_wiring (p q : Process) :
  wiring q = wiring p -> properOf q = properOf p.
Proof.
  unfold wiring, properOf. intros H. injection H as Hc _ _ _ _ Hs.
  now rewrite Hc, Hs.
Qed.

Lemma adds_cancelOrder (ticker orderId : string) (side : OrderSide) (p : Process) :
  adds (properOf p) p (fst (cancelOrder ticker orderId side p)).
Proof.
  unfold cancelOrder, properOf. added.
  apply proper_cancel; [assumption|discriminate].
Qed.

Lemma adds_cancelOrder_resume (ticker orderId : string) (side : OrderSide)
    (response : Response) (p : Process) :
  adds (properOf p) p (cancelOrder_resume ticker orderId side response p).
Proof.
  unfold cancelOrder_resume, emits, properOf. added.
  exists [console_error AdapterErrorCancellingOrder;
          console_error (ErrorCancellingOrder ticker side orderId)].
  split; [reflexivity|now repeat constructor].
Qed.

Lemma wiring_backdrop (p q : Process) : backdrop q = backdrop p -> wiring q = wiring p.
Proof. unfold backdrop. intros H. exact (f_equal fst H). Qed.

Lemma adds_then (p q r : Process) :
  wiring q = wiring p ->
  adds (properOf p) p q -> adds (properOf q) q r -> adds (properOf p) p r.
Proof.
  intros Hw Hq Hr. rewrite (properOf_wiring p q Hw) in Hr.
  now apply (adds_trans _ p q r).
Qed.

Lemma adds_cancelAskIfFlagged (ticker : string) (shouldCancelAsk : bool)
    (tradingPair : TradingPair.t) (p : Process) :
  adds (properOf p) p
       (fst (cancelAskIfFlagged ticker shouldCancelAsk tradingPair p)).
Proof.
  unfold cancelAskIfFlagged, cancelOrder, properOf.
  destruct shouldCancelAsk, (TradingPair.askOrder tradingPair) as [askOrder|];
    try apply adds_refl.
  added. apply proper_cancel; [assumption|discriminate].
Qed.

Lemma adds_checkOrdersAndPositions (now : Z) (ticker : string)
    (currentPrice : number) (p : Process) :
  adds (properOf p) p (fst (checkOrdersAndPositions now ticker currentPrice p)).
Proof.
  unfold checkOrdersAndPositions.
  destruct (deviationCheckService (this p)) as [service|]; [|apply adds_refl].
  destruct (etherealService (this p)); [|apply adds_refl]. cbn.
  destruct (JSMap.get (tradingPairs (this p)) ticker) as [tradingPair|];
    [|apply adds_refl].
  destruct (JSMap.get (assetConfigs (this p)) ticker) as [assetConfig|];
    [|apply adds_refl].
  match goal with
  | |- context [DeviationCheckService.shouldCancelBid ?c] => set (checks := c)
  end.
  clearbody checks.
  destruct (DeviationCheckService.shouldCancelBid checks),
           (TradingPair.bidOrder tradingPair) as [bidOrder|];
    try apply adds_cancelAskIfFlagged.
  destruct (bool_decide _).
  - apply (adds_then p (emit (console_log (CancellationInProgress ticker BID)) p));
      [reflexivity| |apply adds_cancelAskIfFlagged].
    apply adds_emit; [exact I|apply adds_refl].
  - unfold cancelOrder, properOf. added.
    apply proper_cancel; [assumption|discriminate].
Qed.

Lemma adds_checkOrdersAndPositions_resumeBid (ticker key orderId : string)
    (sent shouldCancelAsk : bool) (response : Response) (p : Process) :
  adds (properOf p) p
       (fst (checkOrdersAndPositions_resumeBid ticker key orderId sent
               shouldCancelAsk response p)).
Proof.
  unfold checkOrdersAndPositions_resumeBid.
  set (q := if sent then cancelOrder_resume ticker orderId BID response p else p).
  assert (Hq : adds (properOf p) p q)
    by (subst q; destruct sent; [apply adds_cancelOrder_resume|apply adds_refl]).
  assert (Hw : wiring (deleteCancellation key q) = wiring p).
  { apply wiring_backdrop. rewrite backdrop_deleteCancellation. subst q.
    destruct sent; [apply backdrop_cancelOrder_resume|reflexivity]. }
  assert (Hd : adds (properOf p) p (deleteCancellation key q))
    by (apply (adds_same _ p q); [reflexivity|exact Hq]).
  clearbody q.
  destruct (JSMap.get _ ticker) as [tradingPair|]; [|exact Hd].
  apply (adds_then p (deleteCancellation key q)); [exact Hw|exact Hd|].
  apply adds_cancelAskIfFlagged.
Qed.

Lemma adds_checkOrdersAndPositions_resumeAsk (ticker key orderId : string)
    (sent : bool) (response : Response) (p : Process) :
  adds (properOf p) p
       (checkOrdersAndPositions_resumeAsk ticker key orderId sent response p).
Proof.
  unfold checkOrdersAndPositions_resumeAsk.
  set (q := if sent then cancelOrder_resume ticker orderId ASK response p else p).
  assert (Hq : adds (properOf p) p q)
    by (subst q; destruct sent; [apply adds_cancelOrder_resume|apply adds_refl]).
  apply (adds_same _ p q); [reflexivity|exact Hq].
Qed.

Lemma adds_installPlaced (now : Z) (ticker : string) (side : OrderSide)
    (request : CreateOrderRequest.t) (order_id : option string) (p : Process) :
  adds (properOf p) p (installPlaced now ticker side request order_id p).
Proof. unfold installPlaced. added. Qed.

(** A placement round sends proper requests, and the frame it suspends
    carries the configuration of its instrument. *)
Lemma adds_checkAndCreateOrders (now : Z) (ticker : string)
    (currentPrice : number) (p : Process) :
  adds (properOf p) p (fst (checkAndCreateOrders now ticker currentPrice p))
  /\ match snd (checkAndCreateOrders now ticker currentPrice p) with
     | Some f => configuredFrame (assetConfigs (this p)) f
     | None => True
     end.
Proof.
  unfold checkAndCreateOrders, createBidOrder, createAskOrder, creationFailed,
    properOf.
  destruct (etherealService (this p)) eqn:Hservice; simpl;
    [|split; [apply adds_refl|exact I]].
  destruct (JSMap.get (assetConfigs (this p)) ticker) as [assetConfig|] eqn:Hconfig;
    [|split; [apply adds_refl|exact I]].
  destruct (bool_decide _);
    [split; [apply adds_emit; [exact I|apply adds_refl]|exact I]|].
  destruct (absent _), (absent _); simpl; rewrite ?Hservice; simpl;
    (split; [|try exact I; try exact Hconfig]).
  - apply adds_emit; [now apply proper_bid|].
    apply adds_emit; [exact I|]. now apply (adds_same _ p p); [|apply adds_refl].
  - apply adds_emit; [now apply proper_bid|].
    apply adds_emit; [exact I|]. now apply (adds_same _ p p); [|apply adds_refl].
  - apply adds_emit; [now apply proper_ask|].
    apply adds_emit; [exact I|]. now apply (adds_same _ p p); [|apply adds_refl].
  - apply adds_refl.
Qed.

Lemma adds_checkAndCreateOrders_resumeBid (now : Z) (ticker : string)
    (currentPrice : number) (config : AssetConfig.t) (needsAskOrder : bool)
    (bidOrder : CreateOrderRequest.t) (response : Response) (p : Process) :
  JSMap.get (assetConfigs (this p)) ticker = Some config ->
  adds (properOf p) p
       (fst (checkAndCreateOrders_resumeBid now ticker currentPrice config
               needsAskOrder bidOrder response p))
  /\ match snd (checkAndCreateOrders_resumeBid now ticker currentPrice config
                  needsAskOrder bidOrder response p) with
     | Some f => configuredFrame (assetConfigs (this p)) f
     | None => True
     end.
Proof.
  intros Hconfig.
  unfold checkAndCreateOrders_resumeBid, createAskOrder, creationFailed.
  destruct response as [order_id|].
  - assert (Hq := adds_installPlaced now ticker BID bidOrder order_id p).
    assert (Hw := wiring_backdrop _ _
                    (backdrop_installPlaced now ticker BID bidOrder order_id p)).
    set (q := installPlaced now ticker BID bidOrder order_id p) in *.
    clearbody q.
    destruct needsAskOrder;
      [|split; [apply (adds_same _ p q); [reflexivity|exact Hq]|exact I]].
    simpl. destruct (etherealService (this q)); simpl; (split; [|exact I]).
    + apply adds_emit; [now apply proper_ask|].
      apply adds_emit; [exact I|exact Hq].
    + apply (adds_same _ p (emit (console_error (ErrorCreatingOrders ticker))
                               (emit (console_log
                                        (CreatingOrder ticker ASK
                                           (CreateOrderRequest.price
                                              (askOrderRequest now ticker
                                                 currentPrice config))
                                           (CreateOrderRequest.quantity
                                              (askOrderRequest now ticker
                                                 currentPrice config)))) q)));
        [reflexivity|].
      apply adds_emit; [exact I|]. apply adds_emit; [exact I|exact Hq].
  - simpl. split; [|exact I].
    apply (adds_same _ p (emit (console_error (ErrorCreatingOrders ticker))
                             (emit (console_error AdapterErrorPlacingOrder) p)));
      [reflexivity|].
    apply adds_emit; [exact I|]. apply adds_emit; [exact I|apply adds_refl].
Qed.

Lemma adds_checkAndCreateOrders_resumeAsk (now : Z) (ticker : string)
    (askOrder : CreateOrderRequest.t) (response : Response) (p : Process) :
  adds (properOf p) p
       (checkAndCreateOrders_resumeAsk now ticker askOrder response p).
Proof.
  unfold checkAndCreateOrders_resumeAsk, creationFailed.
  destruct response as [order_id|].
  - apply (adds_same _ p (installPlaced now ticker ASK askOrder order_id p));
      [reflexivity|apply adds_installPlaced].
  - apply (adds_same _ p (emit (console_error (ErrorCreatingOrders ticker))
                             (emit (console_error AdapterErrorPlacingOrder) p)));
      [reflexivity|].
    apply adds_emit; [exact I|]. apply adds_emit; [exact I|apply adds_refl].
Qed.

Lemma adds_cleanup (ticker : string) (p : Process) :
  adds (properOf p) p (cleanupCompletedTradingPairs ticker p).
Proof. unfold cleanupCompletedTradingPairs. added. Qed.

(** Reconciliation writes log lines only. *)
Lemma updateOrderStatus_loop_logs (orderId status : string)
    (entries : JSMap.t TradingPair.t) :
  Forall (fun e => exists m, e = console_log m)
         (snd (updateOrderStatus_loop orderId status entries)).
Proof.
  induction entries as [|[ticker tradingPair] rest IH]; simpl; [constructor|].
  destruct (updateOrderStatus_entry ticker orderId status tradingPair)
    as [[tradingPair' updated] log] eqn:Hentry.
  destruct updated; simpl.
  - unfold updateOrderStatus_entry in Hentry.
    destruct (TradingPair.bidOrder tradingPair) as [b|];
      [destruct (String.eqb (Order.id b) orderId);
       [destruct (String.eqb status "CANCELED" || String.eqb status "EXPIRED")|]|];
      simpl in Hentry;
      (destruct (TradingPair.askOrder tradingPair) as [a|];
       [destruct (String.eqb (Order.id a) orderId);
        [destruct (String.eqb status "CANCELED" || String.eqb status "EXPIRED")|]|]);
      apply (f_equal snd) in Hentry; simpl in Hentry; rewrite <- Hentry;
      repeat constructor; now eexists.
  - destruct (updateOrderStatus_loop orderId status rest) as [rest' log'].
    exact IH.
Qed.

Lemma adds_updateOrderStatus (orderUpdate : OrderUpdateEvent.t) (p : Process) :
  adds (properOf p) p (updateOrderStatus orderUpdate p).
Proof.
  unfold updateOrderStatus.
  assert (H := updateOrderStatus_loop_logs (OrderUpdateEvent.id orderUpdate)
                 (OrderUpdateEvent.status orderUpdate) (tradingPairs (this p))).
  destruct (updateOrderStatus_loop _ _ _) as [pairs log]. simpl in H.
  exists log. split; [reflexivity|].
  eapply Forall_impl; [exact H|]. now intros e [m ->].
Qed.

Lemma adds_cancelAllActiveOrders (p : Process) :
  adds (properOf p) p (fst (cancelAllActiveOrders p)).
Proof.
  unfold cancelAllActiveOrders, properOf.
  destruct (getAllActiveOrders p) as [|active actives];
    [apply adds_emit; [exact I|apply adds_refl]|].
  simpl. destruct (ETHEREAL_SUBACCOUNT p) as [subaccount|] eqn:Hsub; simpl.
  - destruct (truthy_string subaccount) eqn:Htruthy; simpl.
    + destruct (etherealService (this p)); simpl.
      * apply adds_emit.
        -- simpl. split; [reflexivity|]. split; [|discriminate].
           now destruct subaccount.
        -- apply (adds_same _ p (emit (console_log
                                         (CancellingActiveOrders
                                            (S (length actives)))) p));
             [reflexivity|].
           apply adds_emit; [exact I|apply adds_refl].
      * apply adds_emit; [exact I|].
        apply (adds_same _ p (emit (console_log
                                      (CancellingActiveOrders
                                         (S (length actives)))) p));
          [reflexivity|].
        apply adds_emit; [exact I|apply adds_refl].
    + apply adds_emit; [exact I|]. apply adds_emit; [exact I|apply adds_refl].
  - apply adds_emit; [exact I|]. apply adds_emit; [exact I|apply adds_refl].
Qed.

Lemma adds_cancelAllActiveOrders_resume (orderIds : list string)
    (response : Response) (p : Process) :
  adds (properOf p) p (cancelAllActiveOrders_resume orderIds response p).
Proof.
  unfold cancelAllActiveOrders_resume. destruct response as [order_id|].
  - apply adds_emit; [exact I|].
    apply (adds_same _ p p); [reflexivity|apply adds_refl].
  - exists [console_error AdapterErrorCancellingOrder;
            console_error ErrorCancellingDuringShutdown].
    split; [reflexivity|now repeat constructor].
Qed.

Lemma adds_shutdown_finish (p : Process) :
  adds (properOf p) p (shutdown_finish p).
Proof.
  exists [feeds_disconnect; console_log ShutdownComplete; process_exit 0].
  split; [reflexivity|now repeat constructor].
Qed.

(** The invariant moves along a handler that keeps the wiring, adds proper
    requests and suspends a configured frame. *)
Lemma requestsAreProper_advance (p q : Process) (next : option Frame) :
  requestsAreProper p ->
  wiring q = wiring p -> adds (properOf p) p q -> pending q = pending p ->
  match next with
  | Some f => configuredFrame (assetConfigs (this p)) f
  | None => True
  end ->
  requestsAreProper (suspend next q).
Proof.
  intros [Hout Hframes] Hw Hadds Hpending Hnext.
  assert (Hc : assetConfigs (this q) = assetConfigs (this p))
    by (unfold wiring in Hw; now injection Hw).
  unfold requestsAreProper. rewrite pending_suspend, this_suspend.
  assert (Hsame : properOf (suspend next q) = properOf p).
  { rewrite <- (properOf_wiring p q Hw). now destruct next. }
  rewrite Hsame, Hc, Hpending. split.
  - replace (output (suspend next q)) with (output q) by now destruct next.
    now apply (adds_invariant _ p q).
  - apply Forall_app. split; [exact Hframes|].
    destruct next; simpl; now repeat constructor.
Qed.

Lemma requestsAreProper_quiet (p q : Process) :
  requestsAreProper p ->
  wiring q = wiring p -> adds (properOf p) p q -> pending q = pending p ->
  requestsAreProper q.
Proof.
  intros Hinv Hw Hadds Hpending.
  assert (H := requestsAreProper_advance p q None Hinv Hw Hadds Hpending I).
  exact H.
Qed.

Lemma requestsAreProper_takeSnapshot_entry (now : Z) (ticker : string)
    (priceUpdate : PriceUpdate.t) (p : Process) :
  requestsAreProper p ->
  requestsAreProper (takeSnapshot_entry now ticker priceUpdate p).
Proof.
  intros Hinv. unfold takeSnapshot_entry.
  set (p1 := set_this p _).
  assert (H1 : requestsAreProper p1) by exact Hinv.
  clearbody p1. clear Hinv.
  set (p2 := match deviationCheckService (this p1) with
             | Some _ => _
             | None => p1
             end).
  assert (H2 : requestsAreProper p2).
  { subst p2. destruct (deviationCheckService (this p1)); [|exact H1].
    assert (Hc := checkOrdersAndPositions_control now ticker
                    (PriceUpdate.price priceUpdate) p1).
    assert (Ha := adds_checkOrdersAndPositions now ticker
                    (PriceUpdate.price priceUpdate) p1).
    assert (Hb := wiring_backdrop _ _
                    (backdrop_checkOrdersAndPositions now ticker
                       (PriceUpdate.price priceUpdate) p1)).
    destruct (checkOrdersAndPositions now ticker (PriceUpdate.price priceUpdate) p1)
      as [q next].
    destruct Hc as (_ & _ & Hpending & Hstart). simpl in Ha, Hb.
    apply (requestsAreProper_advance p1); try assumption.
    destruct next as [f|]; [|exact I].
    destruct Hstart as (_ & Hpl & _). now destruct f. }
  clearbody p2. clear H1.
  assert (Hc := checkAndCreateOrders_control now ticker
                  (PriceUpdate.price priceUpdate) p2).
  destruct (adds_checkAndCreateOrders now ticker
              (PriceUpdate.price priceUpdate) p2) as [Ha Hf].
  assert (Hb := wiring_backdrop _ _
                  (backdrop_checkAndCreateOrders now ticker
                     (PriceUpdate.price priceUpdate) p2)).
  destruct (checkAndCreateOrders now ticker (PriceUpdate.price priceUpdate) p2)
    as [p3 next].
  destruct Hc as (_ & _ & Hpending & _). simpl in Ha, Hb, Hf.
  assert (H3 : requestsAreProper (suspend next p3))
    by (apply (requestsAreProper_advance p2); assumption).
  set (p4 := cleanupCompletedTradingPairs ticker (suspend next p3)).
  assert (H4 : requestsAreProper p4).
  { apply (requestsAreProper_quiet (suspend next p3)); [exact H3| | |].
    - apply wiring_backdrop, backdrop_cleanup.
    - apply adds_cleanup.
    - assert (Hk := control_cleanup ticker (suspend next p3)).
      unfold control in Hk. now injection Hk. }
  destruct (snapshotCallback (this p4)); [|exact H4].
  apply (requestsAreProper_quiet p4); [exact H4|reflexivity| |reflexivity].
  apply adds_emit; [exact I|apply adds_refl].
Qed.

Lemma requestsAreProper_takeSnapshot (now : Z) (p : Process) :
  requestsAreProper p -> requestsAreProper (takeSnapshot now p).
Proof.
  intros Hinv. unfold takeSnapshot.
  set (q := emit _ p).
  assert (Hq : requestsAreProper q).
  { apply (requestsAreProper_quiet p); [exact Hinv|reflexivity| |reflexivity].
    apply adds_emit; [exact I|apply adds_refl]. }
  generalize (latestPrices (this q)) as prices.
  clearbody q. clear Hinv. intros prices. revert q Hq.
  induction prices as [|[ticker priceUpdate] prices IH]; intros q Hq.
  - exact Hq.
  - simpl. destruct (throwsAtPush q ticker).
    + apply (requestsAreProper_quiet q); [exact Hq|reflexivity| |reflexivity].
      unfold uncaughtException.
      exists [console_error (UncaughtTypeError ticker); process_exit 1].
      split; [reflexivity|]. repeat constructor.
    + apply IH. now apply requestsAreProper_takeSnapshot_entry.
Qed.

Lemma requestsAreProper_shutdown (p : Process) :
  requestsAreProper p -> requestsAreProper (shutdown p).
Proof.
  intros Hinv. unfold shutdown.
  set (q := stop (emit (console_log ShutdownReceived) p)).
  assert (Hq : requestsAreProper q).
  { apply (requestsAreProper_quiet p); [exact Hinv| | |].
    - subst q. apply wiring_backdrop. now rewrite backdrop_stop.
    - subst q. unfold stop. simpl.
      destruct (snapshotTimer (this p)); repeat (apply adds_emit; [exact I|]);
        apply adds_refl.
    - subst q. unfold stop. simpl. now destruct (snapshotTimer (this p)). }
  clearbody q. clear Hinv.
  assert (Ha := adds_cancelAllActiveOrders q).
  assert (Hb := wiring_backdrop _ _ (backdrop_cancelAllActiveOrders q)).
  assert (Hc := control_cancelAllActiveOrders q).
  destruct (cancelAllActiveOrders q) as [p' next].
  destruct Hc as (_ & Hpending & Hnext). simpl in Ha, Hb.
  destruct next as [f|].
  - apply (requestsAreProper_advance q p' (Some f)); try assumption.
    destruct Hnext as [Hpl _]. now destruct f.
  - apply (requestsAreProper_advance q p' (Some AwaitShutdown)); assumption.
Qed.

Lemma requestsAreProper_resume (i : nat) (frame : Frame) (response : Response)
    (now : Z) (p : Process) :
  pending p !! i = Some frame ->
  requestsAreProper p ->
  requestsAreProper (resume frame response now (set_pending p (delete i (pending p)))).
Proof.
  intros Hi [Hout Hframes].
  assert (Hframe : configuredFrame (assetConfigs (this p)) frame).
  { rewrite Forall_forall in Hframes. apply Hframes.
    now apply list_elem_of_lookup_2 with i. }
  set (p0 := set_pending p (delete i (pending p))).
  assert (H0 : requestsAreProper p0).
  { split; [exact Hout|]. simpl. now apply Forall_delete. }
  destruct frame as [ticker key orderId sent shouldCancelAsk
                    |ticker key orderId sent
                    |ticker currentPrice config needsAskOrder bidOrder
                    |ticker askOrder|orderIds|]; simpl.
  - assert (Hc := checkOrdersAndPositions_resumeBid_control ticker key orderId
                    sent shouldCancelAsk response p0).
    assert (Ha := adds_checkOrdersAndPositions_resumeBid ticker key orderId
                    sent shouldCancelAsk response p0).
    assert (Hb := wiring_backdrop _ _
                    (backdrop_checkOrdersAndPositions_resumeBid ticker key
                       orderId sent shouldCancelAsk response p0)).
    destruct (checkOrdersAndPositions_resumeBid ticker key orderId sent
                shouldCancelAsk response p0) as [p' next].
    destruct Hc as (_ & _ & Hpending & Hstart). simpl in Ha, Hb.
    apply (requestsAreProper_advance p0); try assumption.
    destruct next as [f|]; [|exact I].
    destruct Hstart as (_ & Hpl & _). now destruct f.
  - assert (Hc := checkOrdersAndPositions_resumeAsk_control ticker key orderId
                    sent response p0).
    destruct Hc as (_ & _ & Hpending & _).
    apply (requestsAreProper_quiet p0); [exact H0| | |exact Hpending].
    + apply wiring_backdrop, backdrop_checkOrdersAndPositions_resumeAsk.
    + apply adds_checkOrdersAndPositions_resumeAsk.
  - assert (Hc := checkAndCreateOrders_resumeBid_control now ticker currentPrice
                    config needsAskOrder bidOrder response p0).
    destruct (adds_checkAndCreateOrders_resumeBid now ticker currentPrice config
                needsAskOrder bidOrder response p0 Hframe) as [Ha Hf].
    assert (Hb := wiring_backdrop _ _
                    (backdrop_checkAndCreateOrders_resumeBid now ticker
                       currentPrice config needsAskOrder bidOrder response p0)).
    destruct (checkAndCreateOrders_resumeBid now ticker currentPrice config
                needsAskOrder bidOrder response p0) as [p' next].
    destruct Hc as (_ & _ & Hpending & _). simpl in Ha, Hb, Hf.
    now apply (requestsAreProper_advance p0).
  - assert (Hc := checkAndCreateOrders_resumeAsk_control now ticker askOrder
                    response p0).
    destruct Hc as (_ & _ & Hpending & _).
    apply (requestsAreProper_quiet p0); [exact H0| | |exact Hpending].
    + apply wiring_backdrop, backdrop_checkAndCreateOrders_resumeAsk.
    + apply adds_checkAndCreateOrders_resumeAsk.
  - set (q := cancelAllActiveOrders_resume orderIds response p0).
    assert (Hq : requestsAreProper q).
    { apply (requestsAreProper_quiet p0); [exact H0| | |].
      - apply wiring_backdrop, backdrop_cancelAllActiveOrders_resume.
      - apply adds_cancelAllActiveOrders_resume.
      - subst q. unfold cancelAllActiveOrders_resume. now destruct response. }
    apply (requestsAreProper_quiet q); [exact Hq|reflexivity| |reflexivity].
    apply adds_shutdown_finish.
  - apply (requestsAreProper_quiet p0); [exact H0|reflexivity| |reflexivity].
    apply adds_shutdown_finish.
Qed.

Lemma requestsAreProper_step (e : Event) (p : Process) :
  requestsAreProper p -> requestsAreProper (step e p).
Proof.
  intros Hinv. unfold step. destruct (exited p); [exact Hinv|].
  destruct e as [priceUpdate|orderUpdate|now|i response now|].
  - exact Hinv.
  - set (q := emit _ p).
    assert (Hq : requestsAreProper q).
    { apply (requestsAreProper_quiet p); [exact Hinv|reflexivity| |reflexivity].
      apply adds_emit; [exact I|apply adds_refl]. }
    apply (requestsAreProper_quiet q); [exact Hq| | |].
    + apply wiring_backdrop, backdrop_updateOrderStatus.
    + apply adds_updateOrderStatus.
    + assert (Hk := control_updateOrderStatus orderUpdate q).
      unfold control in Hk. now injection Hk.
  - destruct (snapshotTimer (this p)); [|exact Hinv].
    now apply requestsAreProper_takeSnapshot.
  - destruct (pending p !! i) as [frame|] eqn:Hi; [|exact Hinv].
    now apply requestsAreProper_resume.
  - now apply requestsAreProper_shutdown.
Qed.

Lemma requestsAreProper_run (events : list Event) (p : Process) :
  requestsAreProper p -> requestsAreProper (run events p).
Proof.
  revert p. induction events as [|e events IH]; intros p Hinv.
  - exact Hinv.
  - simpl. apply IH. now apply requestsAreProper_step.
Qed.

Lemma wiring_step (e : Event) (p : Process) : wiring (step e p) = wiring p.
Proof.
  unfold step. destruct (exited p); [reflexivity|].
  destruct e as [priceUpdate|orderUpdate|now|i response now|].
  - reflexivity.
  - apply wiring_backdrop. now rewrite backdrop_updateOrderStatus.
  - destruct (snapshotTimer (this p)); [|reflexivity].
    unfold takeSnapshot.
    destruct (backdrop_takeSnapshot_loop now
                (latestPrices (this (emit (console_log
                                             (TakingSnapshot now
                                                (length (latestPrices (this p)))))
                                          p)))
                (emit (console_log (TakingSnapshot now
                                      (length (latestPrices (this p))))) p))
      as [Hw _].
    exact Hw.
  - destruct (pending p !! i) as [frame|]; [|reflexivity].
    apply wiring_backdrop. now rewrite backdrop_resume.
  - apply wiring_backdrop, backdrop_shutdown.
Qed.

Lemma wiring_run (events : list Event) (p : Process) :
  wiring (run events p) = wiring p.
Proof.
  revert p. induction events as [|e events IH]; intros p; [reflexivity|].
  simpl. now rewrite IH, wiring_step.
Qed.

(** The wiring of the bot after boot. *)
Lemma setAssetConfigs_spec (assets : list AssetConfig.t) (q : Process) :
  let q' :=
    fold_left (fun p asset => setAssetConfig (AssetConfig.ticker asset) asset p)
              assets q in
  assetConfigs (this q')
  = fold_left (fun m asset => JSMap.set m (AssetConfig.ticker asset) asset)
              assets (assetConfigs (this q))
  /\ output q' = output q /\ ETHEREAL_SUBACCOUNT q' = ETHEREAL_SUBACCOUNT q
  /\ etherealService (this q') = etherealService (this q).
Proof.
  revert q. induction assets as [|asset assets IH]; intros q; [now repeat split|].
  simpl. destruct (IH (setAssetConfig (AssetConfig.ticker asset) asset q))
    as (-> & -> & -> & ->).
  now repeat split.
Qed.

Lemma wiring_loadExistingPositions (parseFloat : string -> number) (now : Z)
    (subaccountId : string) (positions : PositionsOutcome) (p : Process) :
  wiring (loadExistingPositions parseFloat now subaccountId positions p)
  = wiring p.
Proof.
  unfold loadExistingPositions.
  destruct (etherealService (this p)); [|reflexivity]. simpl.
  destruct positions as [[data|]|]; try reflexivity. simpl.
  set (q := emit _ (emit _ p)).
  change (wiring p) with (wiring q). generalize q. clear q.
  induction data as [|position data IH]; intros q; [reflexivity|].
  simpl. rewrite IH. unfold loadPosition.
  destruct (negb _); [reflexivity|].
  destruct (gtb _ _); [reflexivity|]. destruct (ltb _ _); reflexivity.
Qed.

Lemma boot_spec (parseFloat : string -> number) (now : Z)
    (config : MarketMakingConfig.t) (assets : list AssetConfig.t)
    (subaccountId : string) (subaccount : option string)
    (positions : PositionsOutcome) :
  let p := boot parseFloat now config assets subaccountId subaccount positions in
  assetConfigs (this p) = configsOf assets
  /\ ETHEREAL_SUBACCOUNT p = subaccount
  /\ Forall noOrderRequest (output p).
Proof.
  unfold boot, start, onSnapshot.
  match goal with
  | |- context [loadExistingPositions _ _ _ _ ?q] => set (p0 := q)
  end.
  assert (H0 : assetConfigs (this p0) = configsOf assets
               /\ output p0 = [] /\ ETHEREAL_SUBACCOUNT p0 = subaccount
               /\ etherealService (this p0) = true).
  { subst p0.
    match goal with
    | |- context [fold_left _ assets ?q] =>
        destruct (setAssetConfigs_spec assets q) as (-> & -> & -> & ->)
    end.
    now repeat split. }
  destruct H0 as (Hconfigs & Hout & Hsub & Hservice).
  assert (Hw := wiring_loadExistingPositions parseFloat now subaccountId
                  positions p0).
  destruct (warmup_output parseFloat now subaccountId positions p0 Hservice)
    as (es & Hes & Hlogs).
  set (p1 := loadExistingPositions parseFloat now subaccountId positions p0) in *.
  clearbody p1. unfold wiring in Hw. injection Hw as Hc _ _ _ _ Hs.
  assert (Hquiet : Forall noOrderRequest (output p1)).
  { unfold emitted in Hes. rewrite Hes, Hout. simpl.
    repeat constructor. eapply Forall_impl; [exact Hlogs|].
    now intros e (m & [->| ->]). }
  destruct (snapshotTimer _); simpl; rewrite Hc, Hs, Hconfigs, Hsub;
    (split; [reflexivity|]); (split; [reflexivity|]); try exact Hquiet.
  apply Forall_app. split; [exact Hquiet|now repeat constructor].
Qed.

Lemma noOrderRequest_proper (configs : JSMap.t AssetConfig.t)
    (subaccount : option string) (e : Effect) :
  noOrderRequest e -> properRequest configs subaccount e.
Proof. now destruct e. Qed.

Lemma requestsAreProper_boot (parseFloat : string -> number) (now : Z)
    (config : MarketMakingConfig.t) (assets : list AssetConfig.t)
    (subaccountId : string) (subaccount : option string)
    (positions : PositionsOutcome) :
  requestsAreProper
    (boot parseFloat now config assets subaccountId subaccount positions).
Proof.
  destruct (boot_spec parseFloat now config assets subaccountId subaccount
              positions) as (_ & _ & Hquiet).
  split.
  - eapply Forall_impl; [exact Hquiet|]. intros e. apply noOrderRequest_proper.
  - rewrite pending_boot. constructor.
Qed.

(** A configuration stored at boot is one of the list, under its ticker. *)
Lemma configsOf_get (assets : list AssetConfig.t) (ticker : string)
    (config : AssetConfig.t) :
  JSMap.get (configsOf assets) ticker = Some config ->
  In config assets /\ AssetConfig.ticker config = ticker.
Proof.
  unfold configsOf.
  assert (H : forall m,
             JSMap.get (fold_left
                          (fun m asset => JSMap.set m (AssetConfig.ticker asset) asset)
                          assets m) ticker = Some config ->
             (In config assets /\ AssetConfig.ticker config = ticker)
             \/ JSMap.get m ticker = Some config).
  { induction assets as [|asset assets IH]; intros m Hget; [now right|].
    simpl in Hget. destruct (IH _ Hget) as [[Hin Ht]|Hm].
    - left. split; [now right|exact Ht].
    - destruct (String.eqb (AssetConfig.ticker asset) ticker) eqn:E.
      + apply String.eqb_eq in E. rewrite <- E, get_set_same in Hm.
        injection Hm as <-. left. split; [now left|exact E].
      + apply String.eqb_neq in E. rewrite get_set_other in Hm by congruence.
        now right. }
  intros Hget. destruct (H [] Hget) as [Hdone|Hnil]; [exact Hdone|discriminate].
Qed.

(** X20. Every placement follows the configuration: in every execution of
    the booted bot each placement request is a LIMIT GTD order for an
    instrument of the configuration list, with the order size configured for
    that instrument, a side of 0 or 1, and a price. *)
Theorem placements_follow_the_configuration (parseFloat : string -> number)
    (now0 : Z) (config : MarketMakingConfig.t) (assets : list AssetConfig.t)
    (subaccountId : string) (subaccount : option string)
    (positions : PositionsOutcome) (events : list Event) :
  let p :=
    run events
        (boot parseFloat now0 config assets subaccountId subaccount positions) in
  forall request,
    In (post_orders request) (output p) ->
    exists asset,
      In asset assets
      /\ AssetConfig.ticker asset = CreateOrderRequest.ticker request
      /\ JSMap.get (assetConfigs (this p)) (CreateOrderRequest.ticker request)
         = Some asset
      /\ CreateOrderRequest.quantity request = AssetConfig.orderSize asset
      /\ CreateOrderRequest.order_type request = LIMIT
      /\ CreateOrderRequest.time_in_force request = GTD
      /\ (CreateOrderRequest.side request = 0%Z
          \/ CreateOrderRequest.side request = 1%Z)
      /\ CreateOrderRequest.price request <> None.
Proof.
  intros p request Hin.
  set (p0 := boot parseFloat now0 config assets subaccountId subaccount positions)
    in *.
  assert (Hinv : requestsAreProper p)
    by (apply requestsAreProper_run, requestsAreProper_boot).
  assert (Hw : wiring p = wiring p0) by apply wiring_run.
  destruct (boot_spec parseFloat now0 config assets subaccountId subaccount
              positions) as (Hconfigs & _ & _).
  fold p0 in Hconfigs.
  assert (Hc : assetConfigs (this p) = configsOf assets).
  { unfold wiring in Hw. injection Hw as Hc _ _ _ _ _. congruence. }
  destruct Hinv as [Hout _]. rewrite Forall_forall in Hout.
  apply list_elem_of_In in Hin. specialize (Hout _ Hin).
  destruct Hout as (asset & Hget & Hrest). exists asset.
  destruct (configsOf_get assets (CreateOrderRequest.ticker request) asset)
    as [Hasset Hticker]; [congruence|].
  split; [exact Hasset|]. split; [exact Hticker|]. split; [exact Hget|exact Hrest].
Qed.

(** X21. Every cancel names the configured subaccount: in every execution of
    the booted bot each cancel request, of a deviation cancel or of the
    shutdown, carries the subaccount of the environment, which is not empty,
    and lists at least one order; without a subaccount no cancel is ever
    sent. *)
Theorem cancels_name_the_configured_subaccount (parseFloat : string -> number)
    (now0 : Z) (config : MarketMakingConfig.t) (assets : list AssetConfig.t)
    (subaccountId : string) (subaccount : option string)
    (positions : PositionsOutcome) (events : list Event) :
  let p :=
    run events
        (boot parseFloat now0 config assets subaccountId subaccount positions) in
  (forall request,
      In (post_orders_cancel request) (output p) ->
      subaccount = Some (CancelOrderRequest.subaccount request)
      /\ CancelOrderRequest.subaccount request <> ""
      /\ CancelOrderRequest.order_ids request <> [])
  /\ (truthy_opt_string subaccount = false -> cancellations (output p) = []).
Proof.
  intros p.
  set (p0 := boot parseFloat now0 config assets subaccountId subaccount positions)
    in *.
  assert (Hinv : requestsAreProper p)
    by (apply requestsAreProper_run, requestsAreProper_boot).
  assert (Hw : wiring p = wiring p0) by apply wiring_run.
  destruct (boot_spec parseFloat now0 config assets subaccountId subaccount
              positions) as (_ & Hsub & _).
  fold p0 in Hsub.
  assert (Hs : ETHEREAL_SUBACCOUNT p = subaccount).
  { unfold wiring in Hw. injection Hw as _ _ _ _ _ Hs. congruence. }
  destruct Hinv as [Hout _]. rewrite Forall_forall in Hout.
  assert (Hcancel : forall request,
             In (post_orders_cancel request) (output p) ->
             subaccount = Some (CancelOrderRequest.subaccount request)
             /\ CancelOrderRequest.subaccount request <> ""
             /\ CancelOrderRequest.order_ids request <> []).
  { intros request Hin. apply list_elem_of_In in Hin. specialize (Hout _ Hin).
    unfold properOf in Hout. simpl in Hout. now rewrite Hs in Hout. }
  split; [exact Hcancel|].
  intros Hnone. unfold cancellations.
  destruct (omap _ (output p)) as [|request rest] eqn:Hrequests; [reflexivity|].
  exfalso.
  assert (Hin : request ∈ omap (fun e => match e with
                                         | post_orders_cancel r => Some r
                                         | _ => None
                                         end) (output p))
    by (rewrite Hrequests; now left).
  apply list_elem_of_omap in Hin. destruct Hin as (e & He & Hr).
  destruct e; try discriminate. injection Hr as ->.
  apply list_elem_of_In in He. destruct (Hcancel request He) as (Hsome & Hne & _).
  rewrite Hsome in Hnone. simpl in Hnone.
  destruct (CancelOrderRequest.subaccount request); [contradiction|discriminate].
Qed.

End ProperHandlers.

(** ** The configuration from the environment (marketConfig.ts) *)

Section Configuration.
Import MarketConfig.

Lemma split_nonempty (sep : Ascii.ascii) (s : string) : split sep s <> [].
Proof.
  destruct s as [|c rest]; simpl; [discriminate|].
  destruct (Ascii.eqb c sep); [discriminate|].
  destruct (split sep rest); discriminate.
Qed.

Lemma split_length (sep : Ascii.ascii) (s : string) :
  length (split sep s) = S (occurrences sep s).
Proof.
  induction s as [|c rest IH]; simpl; [reflexivity|].
  destruct (Ascii.eqb c sep); simpl; [now rewrite IH|].
  destruct (split sep rest) as [|field fields] eqn:E; [discriminate|].
  exact IH.
Qed.

Lemma split_join (sep : Ascii.ascii) (s : string) :
  join (String sep EmptyString) (split sep s) = s.
Proof.
  induction s as [|c rest IH]; simpl; [reflexivity|].
  destruct (Ascii.eqb c sep) eqn:E.
  - apply Ascii.eqb_eq in E. subst c.
    assert (Hne := split_nonempty sep rest).
    destruct (split sep rest) as [|field fields]; [contradiction|].
    simpl in *. now rewrite IH.
  - destruct (split sep rest) as [|field fields] eqn:Hs.
    + now destruct (split_nonempty sep rest).
    + destruct fields as [|next fields]; simpl in *; now rewrite <- IH.
Qed.

Lemma split_fields (sep : Ascii.ascii) (s : string) :
  Forall (fun field => occurrences sep field = 0%nat) (split sep s).
Proof.
  induction s as [|c rest IH]; simpl; [now repeat constructor|].
  destruct (Ascii.eqb c sep) eqn:E; [now constructor|].
  destruct (split sep rest) as [|field fields]; [repeat constructor; simpl; now rewrite E|].
  apply Forall_cons in IH. destruct IH as [Hfield Hfields].
  constructor; [simpl; now rewrite E|exact Hfields].
Qed.

(** X22. The instruments of the configuration are the fields of [TICKERS]
    between its commas, in order, one more than it has commas, and joining
    them with commas gives [TICKERS] back; when [TICKERS] is not set or is
    empty they are BTCUSD, ETHUSD and SOLUSD.  The refresh cycle is read from
    [QUOTE_REFRESH_CYCLE], or is 5000; and no instrument comes with a tick
    size, quantity bounds or a product id. *)
Theorem loadConfig_reads_the_tickers (parseFloat : string -> number)
    (parseInt : string -> Z) (env : Env) :
  let config := loadConfig parseFloat parseInt env in
  let tickers := map AssetConfig.ticker (MarketMakingConfig.assets config) in
  (forall list,
      env "TICKERS" = Some list -> list <> "" ->
      join "," tickers = list
      /\ length tickers = S (occurrences ","%char list)
      /\ Forall (fun ticker => occurrences ","%char ticker = 0%nat) tickers)
  /\ (env "TICKERS" = None \/ env "TICKERS" = Some "" ->
      tickers = ["BTCUSD"; "ETHUSD"; "SOLUSD"])
  /\ (forall cycle,
         env "QUOTE_REFRESH_CYCLE" = Some cycle -> cycle <> "" ->
         MarketMakingConfig.quoteRefreshCycle config = parseInt cycle)
  /\ (env "QUOTE_REFRESH_CYCLE" = None \/ env "QUOTE_REFRESH_CYCLE" = Some "" ->
      MarketMakingConfig.quoteRefreshCycle config = parseInt "5000")
  /\ Forall (fun asset =>
               AssetConfig.tickSize asset = None
               /\ AssetConfig.minQuantity asset = None
               /\ AssetConfig.maxQuantity asset = None
               /\ AssetConfig.productId asset = None)
            (MarketMakingConfig.assets config).
Proof.
  intros config tickers.
  assert (Htickers : tickers = loadTickers env).
  { subst tickers config. unfold loadConfig. simpl.
    rewrite map_map. simpl. apply map_id. }
  split; [|split; [|split; [|split]]].
  - intros list Hlist Hne. rewrite Htickers. unfold loadTickers.
    rewrite Hlist. simpl.
    destruct list as [|c rest]; [contradiction|]. simpl truthy_string. cbv iota.
    split; [apply (split_join ","%char)|].
    split; [apply split_length|apply split_fields].
  - intros Hnone. rewrite Htickers. unfold loadTickers.
    now destruct Hnone as [-> | ->].
  - intros cycle Hcycle Hne. subst config. unfold loadConfig, firstSet. simpl.
    rewrite Hcycle. now destruct cycle.
  - intros Hnone. subst config. unfold loadConfig, firstSet. simpl.
    now destruct Hnone as [-> | ->].
  - subst config. unfold loadConfig. simpl. apply Forall_map.
    apply Forall_forall. now intros ticker _.
Qed.




Lemma prefix_USD (rest : string) :
  String.prefix "USD" (String "U" (String "S" (String "D" rest))) = true.
Proof. destruct rest; reflexivity. Qed.

Lemma replace_unfold (pattern replacement : string) (c : Ascii.ascii)
    (s : string) :
  replace pattern replacement (String c s)
  = if String.prefix pattern (String c s)
    then (replacement ++ slice (String.length pattern) (String c s))%string
    else String c (replace pattern replacement s).
Proof. reflexivity. Qed.

(** A string without the letter U has no occurrence of USD. *)
Lemma replace_without_U (replacement s : string) :
  Forall (fun c => c <> "U"%char) (list_ascii_of_string s) ->
  forall rest,
    replace "USD" replacement (s ++ "USD" ++ rest)
    = (s ++ replacement ++ rest)%string
    /\ replace "USD" replacement s = s.
Proof.
  induction s as [|c s IH]; intros Hs rest.
  - split; [|reflexivity].
    change (("" ++ "USD" ++ rest)%string)
      with (String "U" (String "S" (String "D" rest))).
    rewrite replace_unfold, prefix_USD. reflexivity.
  - simpl in Hs. apply Forall_cons in Hs. destruct Hs as [Hc Hs].
    destruct (IH Hs rest) as [IH1 IH2].
    assert (Hprefix : forall tail, String.prefix "USD" (String c tail) = false).
    { intros tail. cbn [String.prefix].
      destruct (ascii_dec "U" c) as [E|E]; [|reflexivity].
      now subst c. }
    split.
    + change ((String c s ++ "USD" ++ rest)%string)
        with (String c (s ++ "USD" ++ rest)%string).
      change ((String c s ++ replacement ++ rest)%string)
        with (String c (s ++ replacement ++ rest)%string).
      now rewrite replace_unfold, Hprefix, IH1.
    + now rewrite replace_unfold, Hprefix, IH2.
Qed.

(** X24. The prefix of the variables of an instrument: for a ticker that is
    a base without the letter U followed by USD, the prefix is the base
    followed by [_USD], as in BTCUSD and BTC_USD; only the first USD is
    replaced; and a ticker without the letter U is its own prefix. *)
Theorem envPrefix_inserts_an_underscore (base rest : string) :
  Forall (fun c => c <> "U"%char) (list_ascii_of_string base) ->
  envPrefix (base ++ "USD") = (base ++ "_USD")%string
  /\ envPrefix (base ++ "USD" ++ rest) = (base ++ "_USD" ++ rest)%string
  /\ envPrefix base = base.
Proof.
  intros Hbase. unfold envPrefix.
  destruct (replace_without_U "_USD" base Hbase "") as [H1 H3].
  destruct (replace_without_U "_USD" base Hbase rest) as [H2 _].
  split; [exact H1|]. split; [exact H2|exact H3].
Qed.


End Configuration.

(** ** The order update stream (EtherealWebSocketClient.ts) *)

Section OrderUpdateStream.
Import EtherealWebSocketClient.
Context {UpdateCallback FillCallback Fill : Type}.
Implicit Types (self : EtherealWebSocketClient.t UpdateCallback FillCallback)
               (callback : UpdateCallback).

Lemma get_remove_same {V : Type} (m : JSMap.t V) (k : string) :
  NoDup (JSMap.keys m) -> JSMap.get (remove m k) k = None.
Proof.
  unfold JSMap.keys. induction m as [|[k' v] m IH]; intros Hm; [reflexivity|].
  simpl in *. apply NoDup_cons in Hm. destruct Hm as [Hfresh Hm].
  destruct (String.eqb k' k) eqn:E; simpl.
  - apply String.eqb_eq in E. subst k'.
    destruct (JSMap.get m k) as [v'|] eqn:Hget; [|reflexivity].
    exfalso. apply Hfresh. apply get_In in Hget. apply list_elem_of_In.
    apply (in_map fst) in Hget. exact Hget.
  - rewrite E. now apply IH.
Qed.

Lemma get_remove_other {V : Type} (m : JSMap.t V) (k k' : string) :
  k' <> k -> JSMap.get (remove m k) k' = JSMap.get m k'.
Proof.
  intros Hne. induction m as [|[k0 v] m IH]; [reflexivity|]. simpl.
  destruct (String.eqb k0 k) eqn:E; simpl.
  - apply String.eqb_eq in E. subst k0.
    destruct (String.eqb k k') eqn:E'; [|reflexivity].
    apply String.eqb_eq in E'. congruence.
  - destruct (String.eqb k0 k'); [reflexivity|exact IH].
Qed.

(** X26. A subscription needs a live connection: subscribing throws, and
    registers nothing, unless the socket exists and has reported its
    connection; so it throws on a new client, after [connect()] until the
    socket connects, and again once the socket has disconnected or failed.
    On a connected client it registers the callback under the subaccount,
    replacing the one registered before and leaving the other subaccounts
    and the fill callbacks alone, and sends one subscribe message. *)
Theorem websocket_subscription_needs_a_connection self
    (subaccountId : string) callback :
  (subscribeToOrderUpdates (Fill := Fill) subaccountId callback self = None
   <-> socket self = false \/ isSocketConnected self = false)
  /\ (forall self' (es : list (WsEffect UpdateCallback FillCallback Fill)),
         subscribeToOrderUpdates subaccountId callback self = Some (self', es) ->
         JSMap.get (orderUpdateCallbacks self') subaccountId = Some callback
         /\ (forall other, other <> subaccountId ->
                           JSMap.get (orderUpdateCallbacks self') other
                           = JSMap.get (orderUpdateCallbacks self) other)
         /\ orderFillCallbacks self' = orderFillCallbacks self
         /\ es = [socket_emit "subscribe" OrderUpdate subaccountId;
                  ws_log (SubscribedTo OrderUpdate subaccountId)])
  /\ subscribeToOrderUpdates (FillCallback := FillCallback) (Fill := Fill)
       subaccountId callback new = None
  /\ subscribeToOrderUpdates (FillCallback := FillCallback) (Fill := Fill)
       subaccountId callback (connect new) = None
  /\ subscribeToOrderUpdates (Fill := Fill) subaccountId callback
       (fst (on_connect (Fill := Fill) (connect self)))
     <> None
  /\ subscribeToOrderUpdates (Fill := Fill) subaccountId callback
       (fst (on_disconnect (Fill := Fill) self)) = None
  /\ subscribeToOrderUpdates (Fill := Fill) subaccountId callback
       (fst (on_connect_error (Fill := Fill) self)) = None.
Proof.
  unfold subscribeToOrderUpdates.
  split; [|split; [|split; [|split; [|split; [|split]]]]].
  - destruct (socket self), (isSocketConnected self); simpl;
      split; try discriminate; try tauto; intros [H|H]; discriminate.
  - intros self' es.
    destruct (negb (socket self) || negb (isSocketConnected self));
      [discriminate|].
    intros [= <- <-]. simpl.
    split; [apply get_set_same|].
    split; [intros other Hne; now apply get_set_other|now split].
  - reflexivity.
  - reflexivity.
  - discriminate.
  - simpl. now rewrite orb_true_r.
  - simpl. now rewrite orb_true_r.
Qed.

(** X27. Disconnecting forgets every subscription: on a client with a socket
    it closes the socket, clears the callbacks of both streams and marks the
    client as not connected, so that an update that still arrives reaches
    nobody and subscribing throws; on a client without a socket it does
    nothing; and disconnecting twice is disconnecting once.  Unsubscribing
    removes the callback of a subaccount, connected or not, and tells the
    exchange only when connected. *)
Theorem websocket_disconnect_forgets_every_subscription self
    (throws : UpdateCallback -> OrderUpdateEvent.t -> bool)
    (data : OrderUpdateEvent.t) (subaccountId : string) callback :
  let self' := fst (disconnect (Fill := Fill) self) in
  (socket self = true ->
   orderUpdateCallbacks self' = [] /\ orderFillCallbacks self' = []
   /\ isConnected self' = false /\ socket self' = false
   /\ snd (disconnect (Fill := Fill) self)
      = [socket_disconnect; ws_log DisconnectedFromWebSocket]
   /\ handleOrderUpdate (Fill := Fill) throws data self' = []
   /\ subscribeToOrderUpdates (Fill := Fill) subaccountId callback self' = None)
  /\ (socket self = false -> disconnect (Fill := Fill) self = (self, []))
  /\ disconnect (Fill := Fill) self' = (self', [])
  /\ (let unsubscribed :=
        unsubscribeFromOrderUpdates (Fill := Fill) subaccountId self in
      (NoDup (JSMap.keys (orderUpdateCallbacks self)) ->
       JSMap.get (orderUpdateCallbacks (fst unsubscribed)) subaccountId = None)
      /\ (forall other, other <> subaccountId ->
                        JSMap.get (orderUpdateCallbacks (fst unsubscribed)) other
                        = JSMap.get (orderUpdateCallbacks self) other)
      /\ snd unsubscribed
         = if socket self && isSocketConnected self
           then [socket_emit "unsubscribe" OrderUpdate subaccountId;
                 ws_log (UnsubscribedFrom OrderUpdate subaccountId)]
           else []).
Proof.
  intros self'. subst self'. unfold disconnect.
  split; [|split; [|split]].
  - intros ->. simpl. now repeat split.
  - now intros ->.
  - destruct (socket self) eqn:E; simpl; [reflexivity|now rewrite E].
  - unfold unsubscribeFromOrderUpdates. simpl.
    split; [|split].
    + intros Hdistinct.
      destruct (socket self && isSocketConnected self); simpl;
        now apply get_remove_same.
    + intros other Hne.
      destruct (socket self && isSocketConnected self); simpl;
        now apply get_remove_other.
    + now destruct (socket self && isSocketConnected self).
Qed.

(** X28. An order update is broadcast: every registered callback is called
    exactly once, in the order of registration, with the event as it came,
    whatever subaccount it was registered for; a callback that throws has an
    error logged and does not keep the later ones from being called. *)
Theorem order_updates_reach_every_subscriber self
    (throws : UpdateCallback -> OrderUpdateEvent.t -> bool)
    (data : OrderUpdateEvent.t) :
  let es := handleOrderUpdate (Fill := Fill) throws data self in
  updateCalls es
  = map (fun '(_, callback) => (callback, data)) (orderUpdateCallbacks self)
  /\ length (updateCalls es) = length (orderUpdateCallbacks self)
  /\ errorsLogged es
     = length (List.filter (fun '(_, callback) => throws callback data)
                           (orderUpdateCallbacks self))
  /\ (forall subaccountId callback,
         In (subaccountId, callback) (orderUpdateCallbacks self) ->
         In (callback, data) (updateCalls es)).
Proof.
  intros es. subst es. unfold handleOrderUpdate, updateCalls, errorsLogged.
  assert (Hcalls : omap (fun e : WsEffect UpdateCallback FillCallback Fill =>
                           match e with
                           | update_call c d => Some (c, d)
                           | _ => None
                           end)
                        (flat_map
                           (fun '(_, c) =>
                              update_call c data
                              :: (if throws c data
                                  then [ws_error (ErrorInCallback OrderUpdate)]
                                  else []))
                           (orderUpdateCallbacks self))
                   = map (fun '(_, c) => (c, data)) (orderUpdateCallbacks self)).
  { induction (orderUpdateCallbacks self) as [|[k c] m IH]; [reflexivity|].
    cbn [flat_map map]. rewrite omap_app, IH. now destruct (throws c data). }
  split; [exact Hcalls|]. split; [now rewrite Hcalls, length_map|].
  split.
  - clear Hcalls.
    induction (orderUpdateCallbacks self) as [|[k c] m IH]; [reflexivity|].
    cbn [flat_map List.filter]. rewrite List.filter_app, length_app, IH.
    now destruct (throws c data).
  - intros subaccountId callback Hin. rewrite Hcalls.
    apply in_map_iff. now exists (subaccountId, callback).
Qed.

End OrderUpdateStream.

(** ** The positions query *)

Section PositionsQuery.
Import EtherealService.
Local Open Scope string_scope.

Lemma append_assoc (a b c : string) : (a ++ b) ++ c = a ++ (b ++ c).
Proof.
  induction a as [|x a IH]; [reflexivity|].
  change ((String x a ++ b) ++ c) with (String x ((a ++ b) ++ c)).
  change (String x a ++ (b ++ c)) with (String x (a ++ (b ++ c))).
  now rewrite IH.
Qed.

Lemma append_empty (a : string) : a ++ "" = a.
Proof.
  induction a as [|x a IH]; [reflexivity|].
  change (String x a ++ "") with (String x (a ++ "")). now rewrite IH.
Qed.

Lemma join_parameters (f : string -> string) (ids : list string) :
  ids <> [] ->
  "&" ++ MarketConfig.join "&" (map f ids)
  = String.concat "" (map (fun id => "&" ++ f id) ids).
Proof.
  induction ids as [|id ids IH]; [congruence|]. intros _.
  destruct ids as [|id' ids].
  - reflexivity.
  - change (MarketConfig.join "&" (map f (id :: id' :: ids)))
      with (f id ++ "&" ++ MarketConfig.join "&" (map f (id' :: ids))).
    change (String.concat "" (map (fun id => "&" ++ f id) (id :: id' :: ids)))
      with (("&" ++ f id) ++ ""
            ++ String.concat "" (map (fun id => "&" ++ f id) (id' :: ids))).
    rewrite IH by congruence.
    change ("" ++ ?x) with x. now rewrite append_assoc.
Qed.

(** X29. The positions query names each product once: the URL is the
    subaccount query with [open=true], followed by one [productIds]
    parameter for each product id, in the order given; without a list of
    product ids, or with an empty one, it is the subaccount query alone. *)
Theorem positions_query_names_each_product (subaccountId : string)
    (productIds : list string) :
  let url := "/position?subaccountId=" ++ subaccountId ++ "&open=true" in
  getPositions subaccountId None = url
  /\ getPositions subaccountId (Some []) = url
  /\ getPositions subaccountId (Some productIds)
     = url ++ String.concat ""
                (map (fun id => "&productIds=" ++ id) productIds).
Proof.
  intros url. split; [reflexivity|]. split; [reflexivity|].
  destruct productIds as [|id ids].
  - cbn [getPositions length Nat.ltb Nat.leb map String.concat].
    now rewrite append_empty.
  - unfold getPositions. cbn [length Nat.ltb Nat.leb].
    fold url.
    rewrite (join_parameters (fun id => "productIds=" ++ id) (id :: ids))
      by congruence.
    reflexivity.
Qed.

End PositionsQuery.

(** ** The further statements at concrete inputs *)

Section MoreScenarios.
Import PriceUtils PriceSnapshotService.
Local Open Scope Q_scope.


(** After the run of the two scenarios a price of 61000 and a tick at 10000
    give the snapshot of 61000 at 10000. *)
Lemma tick_records_the_latest_price_witness :
  getLatestSnapshot
    (step (TimerFires 10000)
       (step (PriceArrives (PriceUpdate.mk "BTCUSD" 61000 5 9500))
          (run quotedThenJump bootedExample)))
    "BTCUSD"
  = Some (PriceSnapshot.mk "BTCUSD" 61000 5 10000).
Proof.
  apply (tick_records_the_latest_price parseDecimal 0 exampleConfig [btcConfig]
           "main" (Some "main"%string) (PositionsResolved (Some []))
           quotedThenJump (PriceUpdate.mk "BTCUSD" 61000 5 9500) 10000);
    try (vm_compute; reflexivity).
  intros ticker Hin. vm_compute in Hin.
  apply list_elem_of_singleton in Hin. now subst ticker.
Defined.

(** The history of BTCUSD after the run of the two scenarios. *)
Lemma snapshot_history_is_capped_witness :
  exists window,
    getSnapshots (run quotedThenJump bootedExample) "BTCUSD" (Some 5%nat)
    = SnapshotList window
    /\ (length window <= 100)%nat.
Proof.
  eexists. split; [reflexivity|].
  apply (snapshot_history_is_capped parseDecimal 0 exampleConfig [btcConfig]
           "main" (Some "main"%string) (PositionsResolved (Some []))
           quotedThenJump "BTCUSD" (Some 5%nat)).
  reflexivity.
Defined.

(** A price for the ticker [constructor] after the run of the two
    scenarios. *)
Lemma tick_on_a_prototype_name_witness :
  let p' :=
    step (TimerFires 10000)
      (step (PriceArrives (PriceUpdate.mk "constructor" 1 0 9500))
         (run quotedThenJump bootedExample)) in
  exited p' = true /\ last (output p') = Some (process_exit 1).
Proof.
  intros p'.
  destruct (tick_on_a_prototype_name_ends_the_process parseDecimal 0
              exampleConfig [btcConfig] "main" (Some "main"%string)
              (PositionsResolved (Some [])) quotedThenJump
              (PriceUpdate.mk "constructor" 1 0 9500) 10000)
    as (Hexit & Hlast & _); try reflexivity.
  split; [exact Hexit|exact Hlast].
Defined.

(** A signal after the run of the two scenarios, with the bulk cancel of the
    two quotes failing: the process exits all the same. *)
Lemma shutdown_exits_witness :
  let p := run quotedThenJump bootedExample in
  exited (step (Settles (length (pending p)) Rejected 9100) (step Signal p))
  = true.
Proof.
  apply (shutdown_always_exits_with_code_zero
           (run quotedThenJump bootedExample) Rejected 9100).
  vm_compute. reflexivity.
Defined.

(** The bid of the first scenario: the request sent at the tick of 5000
    follows the configuration of BTCUSD. *)
Lemma placements_follow_the_configuration_witness :
  let request := bidOrderRequest 5000 "BTCUSD" 50000 btcConfig in
  In (post_orders request) (output (run quotedThenJump bootedExample))
  /\ exists asset,
       In asset [btcConfig]
       /\ CreateOrderRequest.quantity request = AssetConfig.orderSize asset
       /\ CreateOrderRequest.order_type request = LIMIT
       /\ CreateOrderRequest.time_in_force request = GTD.
Proof.
  intros request.
  assert (Hin : In (post_orders request)
                   (output (run quotedThenJump bootedExample))).
  { vm_compute. repeat (first [left; reflexivity | right]). }
  split; [exact Hin|].
  destruct (placements_follow_the_configuration parseDecimal 0 exampleConfig
              [btcConfig] "main" (Some "main"%string)
              (PositionsResolved (Some [])) quotedThenJump request Hin)
    as (asset & Hasset & _ & _ & Hsize & Htype & Hforce & _).
  exists asset. now repeat split.
Defined.

(** BTCUSD and its variables. *)
Lemma envPrefix_witness :
  MarketConfig.envPrefix "BTCUSD" = "BTC_USD"%string
  /\ MarketConfig.envPrefix "BTCUSD-PERP" = "BTC_USD-PERP"%string
  /\ MarketConfig.envPrefix "BTC" = "BTC"%string.
Proof.
  apply (envPrefix_inserts_an_underscore "BTC" "-PERP").
  repeat (constructor; [discriminate|]). constructor.
Defined.

End MoreScenarios.
